(** * porycon: metatile decoding, layer routing, tile routing and GID allocation

    A shallow embedding of the pure core of [porycon/metatile.py],
    [porycon/map_reader.py], [porycon/converter.py],
    [porycon/animation_scanner.py] and [fix_world_coordinates.py], with the
    properties the specification states about them and further properties
    read off the code.

    Python integers are [Z]; Python lists are [list]; a [set] of integers is
    a [gset Z]; a [dict] is a [gmap]; [bytes] is a [list byte].  A function
    that can raise returns a [result]. *)

From Stdlib Require Import ZArith.
From Stdlib.Strings Require Import Byte.
From stdpp Require Import gmap list strings pretty.

Local Open Scope Z_scope.

(** ** Exceptions *)

Inductive exn : Type :=
  | ValueError
  | IndexError
  | ZeroDivisionError.

Inductive result (A : Type) : Type :=
  | Ok (a : A)
  | Raise (e : exn).

Arguments Ok {A} a.
Arguments Raise {A} e.

#[global] Instance result_ret : MRet result := fun A a => Ok a.

#[global] Instance result_bind : MBind result := fun A B k r =>
  match r with
  | Ok a => k a
  | Raise e => Raise e
  end.

Definition is_ok {A : Type} (r : result A) : bool :=
  match r with Ok _ => true | Raise _ => false end.

(** ** Python sequence helpers *)

(** [l[a:b]] for [0 <= a]; every call site below guards the lower index. *)
Definition slice {A : Type} (l : list A) (a b : Z) : list A :=
  take (Z.to_nat (b - a)) (drop (Z.to_nat a) l).

(** [len(l)] *)
Definition len {A : Type} (l : list A) : Z := Z.of_nat (length l).

(** [l[i]] for an index that the caller does not guard: negative indices
    count from the end, anything else out of range raises [IndexError]. *)
Definition getitem {A : Type} (l : list A) (i : Z) : result A :=
  let j := if i <? 0 then i + len l else i in
  if j <? 0 then Raise IndexError
  else match l !! Z.to_nat j with
       | Some x => Ok x
       | None => Raise IndexError
       end.

(** [l[i] = v]: same index rule as [getitem]. *)
Definition setitem {A : Type} (l : list A) (i : Z) (v : A) : result (list A) :=
  let j := if i <? 0 then i + len l else i in
  if (j <? 0) || (len l <=? j) then Raise IndexError
  else Ok (<[Z.to_nat j := v]> l).

(** [range(n)] *)
Definition range (n : Z) : list Z := Z.of_nat <$> seq 0 (Z.to_nat n).

(** [range(0, n, 2)] *)
Definition range_by_2 (n : Z) : list Z :=
  (fun k => 2 * Z.of_nat k) <$> seq 0 (Z.to_nat ((n + 1) `div` 2)).

(** [a % b] and [a // b]: Python rounds towards minus infinity, as [Z.modulo]
    and [Z.div] do, and raises on a zero divisor. *)
Definition py_mod (a b : Z) : result Z :=
  if decide (b = 0) then Raise ZeroDivisionError else Ok (a `mod` b).

Definition py_floordiv (a b : Z) : result Z :=
  if decide (b = 0) then Raise ZeroDivisionError else Ok (a `div` b).

(** [bytes]: keys of the image dictionary, so they must be countable. *)
#[global] Instance byte_eq_dec : EqDecision byte := Byte.byte_eq_dec.
#[global] Instance byte_countable : Countable byte :=
  inj_countable Byte.to_N Byte.of_N Byte.of_to_N.

Definition byte_to_Z (b : byte) : Z := Z.of_N (Byte.to_N b).

(** [struct.unpack('<H', bs)[0]]: little-endian, on a two-byte slice; the
    guard [i + 1 < len(data)] of every caller makes the slice two bytes
    long, so no other length is reached. *)
Definition unpack_H (bs : list byte) : Z :=
  match bs with
  | [lo; hi] => byte_to_Z lo + 256 * byte_to_Z hi
  | _ => 0
  end.

(** The decoding loop shared by every binary reader of the repository:
    [for i in range(0, len(data), 2): if i + 1 < len(data): entries.append(...)]. *)
Definition unpack_entries (data : list byte) : list Z :=
  foldl (fun entries i =>
           if i + 1 <? len data
           then entries ++ [unpack_H (slice data i (i + 2))]
           else entries)
        [] (range_by_2 (len data)).

(** ** constants.py *)

Module Constants.

Definition NUM_METATILES_IN_PRIMARY : Z := 512.
Definition NUM_TILES_IN_PRIMARY_VRAM : Z := 512.
Definition TILE_SIZE : Z := 8.
Definition METATILE_SIZE : Z := 16.
Definition NUM_TILES_PER_METATILE : Z := 8.
Definition METATILE_WIDTH : Z := 2.
Definition METATILE_HEIGHT : Z := 2.
Definition METATILE_ID_MASK : Z := 0x03FF.
Definition COLLISION_MASK : Z := 0x0C00.
Definition ELEVATION_MASK : Z := 0xF000.
Definition FLIP_HORIZONTAL : Z := 0x01.
Definition FLIP_VERTICAL : Z := 0x02.
Definition DEFAULT_ANIMATION_DURATION_MS : Z := 200.
Definition STANDARD_ANIMATION_FRAMES : Z := 8.

End Constants.

(** ** metatile.py *)

Module Metatile.
Import Constants.

(** [class MetatileLayerType(IntEnum)]: the members are integers. *)
Definition NORMAL : Z := 0.
Definition COVERED : Z := 1.
Definition SPLIT : Z := 2.

(** The call [MetatileLayerType(value)]: an [IntEnum] lookup by value, which
    raises [ValueError] for a value that is no member. *)
Definition MetatileLayerType (value : Z) : result Z :=
  if decide (value = NORMAL) then Ok NORMAL
  else if decide (value = COVERED) then Ok COVERED
  else if decide (value = SPLIT) then Ok SPLIT
  else Raise ValueError.

Definition unpack_metatile_data (metatile_id : Z) (metatile_data : list Z)
  : list Z :=
  if (metatile_id <? 0)
     || (metatile_id * NUM_TILES_PER_METATILE >=? len metatile_data)
  then replicate (Z.to_nat NUM_TILES_PER_METATILE) 0
  else
    let start_idx := metatile_id * NUM_TILES_PER_METATILE in
    slice metatile_data start_idx (start_idx + NUM_TILES_PER_METATILE).

Definition unpack_metatile_data_with_attrs
    (metatile_id : Z) (metatile_data : list (Z * Z * Z)) : list (Z * Z * Z) :=
  if (metatile_id <? 0)
     || (metatile_id * NUM_TILES_PER_METATILE >=? len metatile_data)
  then replicate (Z.to_nat NUM_TILES_PER_METATILE) (0, 0, 0)
  else
    let start_idx := metatile_id * NUM_TILES_PER_METATILE in
    slice metatile_data start_idx (start_idx + NUM_TILES_PER_METATILE).

Definition split_metatile_to_layers (metatile_tiles : list Z) (layer_type : Z)
  : list Z * list Z * list Z :=
  let bottom_tiles := slice metatile_tiles 0 4 in
  let top_tiles := slice metatile_tiles 4 8 in
  if decide (layer_type = NORMAL) then
    ([0; 0; 0; 0], bottom_tiles, top_tiles)
  else if decide (layer_type = COVERED) then
    (bottom_tiles, top_tiles, [0; 0; 0; 0])
  else if decide (layer_type = SPLIT) then
    (bottom_tiles, [0; 0; 0; 0], top_tiles)
  else
    ([0; 0; 0; 0], bottom_tiles, top_tiles).

Definition extract_metatile_id (entry : Z) : Z := Z.land entry METATILE_ID_MASK.
Definition extract_elevation (entry : Z) : Z :=
  Z.shiftr (Z.land entry ELEVATION_MASK) 12.
Definition extract_collision (entry : Z) : Z :=
  Z.shiftr (Z.land entry COLLISION_MASK) 10.

Definition convert_metatile_to_tile_layers_with_attrs
    (metatile_id : Z) (metatile_data : list (Z * Z * Z))
    (layer_type x y map_width : Z)
  : gmap (Z * Z) (Z * Z) * gmap (Z * Z) (Z * Z) * gmap (Z * Z) (Z * Z) :=
  let metatile_tiles := unpack_metatile_data_with_attrs metatile_id metatile_data in
  let bottom_tiles := slice metatile_tiles 0 4 in
  let top_tiles := slice metatile_tiles 4 8 in
  let '(bg3_tiles_data, bg2_tiles_data, bg1_tiles_data) :=
    if decide (layer_type = NORMAL) then ([], bottom_tiles, top_tiles)
    else if decide (layer_type = COVERED) then (bottom_tiles, top_tiles, [])
    else if decide (layer_type = SPLIT) then (bottom_tiles, [], top_tiles)
    else ([], bottom_tiles, top_tiles) in
  let base_tile_x := x * 2 in
  let base_tile_y := y * 2 in
  let create_tile_dict (tiles_data : list (Z * Z * Z)) : gmap (Z * Z) (Z * Z) :=
    foldl (fun result '(tile_idx, (tx, ty)) =>
             let tile_x := base_tile_x + tx in
             let tile_y := base_tile_y + ty in
             match tiles_data !! tile_idx with
             | Some (tile_id, flip_flags, palette_idx) =>
                 if decide (tile_id ≠ 0)
                 then <[(tile_x, tile_y) := (tile_id, palette_idx)]> result
                 else result
             | None => result
             end)
          ∅ [(0%nat, (0, 0)); (1%nat, (1, 0)); (2%nat, (0, 1)); (3%nat, (1, 1))] in
  (create_tile_dict bg3_tiles_data,
   create_tile_dict bg2_tiles_data,
   create_tile_dict bg1_tiles_data).

Definition convert_metatile_to_tile_layers
    (metatile_id : Z) (metatile_data : list Z) (layer_type x y map_width : Z)
  : result (gmap (Z * Z) Z * gmap (Z * Z) Z * gmap (Z * Z) Z) :=
  let metatile_tiles := unpack_metatile_data metatile_id metatile_data in
  let '(bg3_tiles, bg2_tiles, bg1_tiles) :=
    split_metatile_to_layers metatile_tiles layer_type in
  let tile_x := x * METATILE_WIDTH in
  let tile_y := y * METATILE_HEIGHT in
  let create_tile_dict (tiles : list Z) : result (gmap (Z * Z) Z) :=
    t0 ← getitem tiles 0;
    t1 ← getitem tiles 1;
    t2 ← getitem tiles 2;
    t3 ← getitem tiles 3;
    Ok (<[(tile_x + 1, tile_y + 1) := t3]>
          (<[(tile_x, tile_y + 1) := t2]>
             (<[(tile_x + 1, tile_y) := t1]>
                (<[(tile_x, tile_y) := t0]> ∅)))) in
  d3 ← create_tile_dict bg3_tiles;
  d2 ← create_tile_dict bg2_tiles;
  d1 ← create_tile_dict bg1_tiles;
  Ok (d3, d2, d1).

(** [read_map_bin], on the bytes of the file. *)
Definition read_map_bin (data : list byte) (width height : Z)
  : result (list (list Z)) :=
  let entries := unpack_entries data in
  if decide (len entries ≠ width * height) then Raise ValueError
  else Ok ((fun y => slice entries (y * width) ((y + 1) * width))
             <$> range height).

End Metatile.

(** ** validators.py *)

Module Validators.

Definition validate_map_dimensions (width height : Z) : result unit :=
  let max_size := 1000 in
  if width <=? 0 then Raise ValueError
  else if height <=? 0 then Raise ValueError
  else if width >? max_size then Raise ValueError
  else if height >? max_size then Raise ValueError
  else Ok tt.

End Validators.

(** ** map_reader.py *)

Module MapReader.
Import Validators.

(** [MapReader.read_map_bin], on the bytes of an existing file. *)
Definition read_map_bin (data : list byte) (width height : Z)
  : result (list (list Z)) :=
  _ ← validate_map_dimensions width height;
  let entries := unpack_entries data in
  if decide (len entries ≠ width * height) then Raise ValueError
  else
    mapM (fun y => mapM (fun x => getitem entries (y * width + x))
                        (range width))
         (range height).

(** [MapReader.read_metatile_attributes], on the bytes of an existing file:
    record [k] of the file gives the layer type of metatile [k]. *)
Definition read_metatile_attributes (data : list byte) : gmap Z Z :=
  foldl (fun attributes i =>
           if i + 1 <? len data
           then
             let attr := unpack_H (slice data i (i + 2)) in
             let metatile_id := i `div` 2 in
             let layer_type := Z.land (Z.shiftr attr 12) 0x0F in
             <[metatile_id := layer_type]> attributes
           else attributes)
        ∅ (range_by_2 (len data)).

(** [MapReader.read_metatiles], on the bytes of an existing file. *)
Definition read_metatiles (data : list byte) : list Z :=
  foldl (fun metatiles i =>
           if i + 1 <? len data
           then
             let tile_attr := unpack_H (slice data i (i + 2)) in
             let tile_id := Z.land tile_attr 0x3FF in
             metatiles ++ [tile_id]
           else metatiles)
        [] (range_by_2 (len data)).

(** [MapReader.read_metatiles_with_attributes], on the bytes of an existing
    file (the debug message on the sample palettes left out). *)
Definition read_metatiles_with_attributes (data : list byte)
  : list (Z * Z * Z) :=
  foldl (fun metatiles i =>
           if i + 1 <? len data
           then
             let tile_attr := unpack_H (slice data i (i + 2)) in
             let tile_id := Z.land tile_attr 0x3FF in
             let flip_flags := Z.land (Z.shiftr tile_attr 10) 0x3 in
             let palette_index := Z.land (Z.shiftr tile_attr 12) 0xF in
             metatiles ++ [(tile_id, flip_flags, palette_index)]
           else metatiles)
        [] (range_by_2 (len data)).

End MapReader.

(** ** converter.py: tile routing, validation of the used-tile sets, GIDs *)

Module Converter.
Import Constants Metatile.

(** The four accumulators of [convert_map] that
    [add_used_tile_with_palette] closes over. *)
Record used_tiles : Type := UsedTiles {
  used_primary_tiles : gset Z;
  used_secondary_tiles : gset Z;
  used_primary_tiles_with_palettes : gset (Z * Z);
  used_secondary_tiles_with_palettes : gset (Z * Z)
}.

Definition no_used_tiles : used_tiles := UsedTiles ∅ ∅ ∅ ∅.

(** The nested function [add_used_tile_with_palette] of [convert_map];
    [primary_tileset] is the enclosing variable it compares against. *)
Definition add_used_tile_with_palette (primary_tileset : string)
    (tile_id palette_index : Z) (tileset_name_for_tile : string)
    (u : used_tiles) : used_tiles :=
  if decide (tileset_name_for_tile = primary_tileset) then
    {| used_primary_tiles := {[tile_id]} ∪ used_primary_tiles u;
       used_secondary_tiles := used_secondary_tiles u;
       used_primary_tiles_with_palettes :=
         {[(tile_id, palette_index)]} ∪ used_primary_tiles_with_palettes u;
       used_secondary_tiles_with_palettes :=
         used_secondary_tiles_with_palettes u |}
  else if tile_id <? NUM_TILES_IN_PRIMARY_VRAM then
    {| used_primary_tiles := {[tile_id]} ∪ used_primary_tiles u;
       used_secondary_tiles := used_secondary_tiles u;
       used_primary_tiles_with_palettes :=
         {[(tile_id, palette_index)]} ∪ used_primary_tiles_with_palettes u;
       used_secondary_tiles_with_palettes :=
         used_secondary_tiles_with_palettes u |}
  else
    let adjusted_id := tile_id - NUM_TILES_IN_PRIMARY_VRAM in
    {| used_primary_tiles := used_primary_tiles u;
       used_secondary_tiles := {[adjusted_id]} ∪ used_secondary_tiles u;
       used_primary_tiles_with_palettes := used_primary_tiles_with_palettes u;
       used_secondary_tiles_with_palettes :=
         {[(adjusted_id, palette_index)]}
         ∪ used_secondary_tiles_with_palettes u |}.

(** [{(k[0], k[1]): (v, 0) for k, v in tiles.items()}] *)
Definition with_palette_0 (tiles : gmap (Z * Z) Z) : gmap (Z * Z) (Z * Z) :=
  (fun v => (v, 0)) <$> tiles.

(** One iteration of the metatile loop of [convert_map], up to the three
    dictionaries [(tile_x, tile_y) -> (tile_id, palette_index)] of the cell:
    tileset selection, layer type, conversion. *)
Definition convert_map_cell
    (primary_tileset secondary_tileset : string)
    (primary_metatiles secondary_metatiles : list Z)
    (primary_metatiles_with_attrs secondary_metatiles_with_attrs : list (Z * Z * Z))
    (primary_attributes secondary_attributes : gmap Z Z)
    (entry x y width : Z)
  : result (gmap (Z * Z) (Z * Z) * gmap (Z * Z) (Z * Z) * gmap (Z * Z) (Z * Z)) :=
  let metatile_id := extract_metatile_id entry in
  let '(metatiles, attributes, tileset_name, metatile_id) :=
    if metatile_id <? NUM_METATILES_IN_PRIMARY
    then (primary_metatiles, primary_attributes, primary_tileset, metatile_id)
    else (secondary_metatiles, secondary_attributes, secondary_tileset,
          metatile_id - NUM_METATILES_IN_PRIMARY) in
  let layer_type_val := default 0 (attributes !! metatile_id) in
  layer_type ← MetatileLayerType layer_type_val;
  let metatiles_with_attrs :=
    if bool_decide (tileset_name = primary_tileset)
       && (0 <? len primary_metatiles_with_attrs)
    then primary_metatiles_with_attrs
    else if bool_decide (tileset_name = secondary_tileset)
            && (0 <? len secondary_metatiles_with_attrs)
    then secondary_metatiles_with_attrs
    else [] in
  if 0 <? len metatiles_with_attrs then
    Ok (convert_metatile_to_tile_layers_with_attrs
          metatile_id metatiles_with_attrs layer_type x y width)
  else
    '(bg3_tiles, bg2_tiles, bg1_tiles) ←
      convert_metatile_to_tile_layers metatile_id metatiles layer_type x y width;
    Ok (with_palette_0 bg3_tiles, with_palette_0 bg2_tiles,
        with_palette_0 bg1_tiles).

(** The state that the cell loop of [_build_map_layers] updates. *)
Record map_layers : Type := MapLayers {
  layer_data_bg3 : list Z;
  layer_data_bg2 : list Z;
  layer_data_bg1 : list Z;
  used_gids : gset Z
}.

Definition add_used_gid (gid : Z) (used : gset Z) : gset Z :=
  if gid >? 0 then {[gid]} ∪ used else used.

(** One iteration of the cell loop of [_build_map_layers], after the
    tileset of the metatile has been determined. *)
Definition build_map_layers_cell
    (attributes : gmap Z Z) (metatile_to_gid : gmap (Z * string * Z * bool) Z)
    (actual_metatile_id : Z) (tileset_name : string) (idx : Z)
    (st : map_layers) : result map_layers :=
  let layer_type_val := default 0 (attributes !! actual_metatile_id) in
  layer_type ← MetatileLayerType layer_type_val;
  let bottom_gid :=
    default 0 (metatile_to_gid
                 !! (actual_metatile_id, tileset_name, layer_type_val, false)) in
  let top_gid :=
    default 0 (metatile_to_gid
                 !! (actual_metatile_id, tileset_name, layer_type_val, true)) in
  if decide (layer_type = NORMAL) then
    bg2 ← setitem (layer_data_bg2 st) idx bottom_gid;
    bg1 ← setitem (layer_data_bg1 st) idx top_gid;
    Ok (MapLayers (layer_data_bg3 st) bg2 bg1
          (add_used_gid top_gid (add_used_gid bottom_gid (used_gids st))))
  else if decide (layer_type = COVERED) then
    bg3 ← setitem (layer_data_bg3 st) idx bottom_gid;
    bg2 ← setitem (layer_data_bg2 st) idx top_gid;
    Ok (MapLayers bg3 bg2 (layer_data_bg1 st)
          (add_used_gid top_gid (add_used_gid bottom_gid (used_gids st))))
  else if decide (layer_type = SPLIT) then
    bg3 ← setitem (layer_data_bg3 st) idx bottom_gid;
    bg1 ← setitem (layer_data_bg1 st) idx top_gid;
    Ok (MapLayers bg3 (layer_data_bg2 st) bg1
          (add_used_gid top_gid (add_used_gid bottom_gid (used_gids st))))
  else Ok st.

(** [_get_max_tile_id], on the size [(width, height)] of the bank's
    [tiles.png], or [None] when the image cannot be opened. *)
Definition _get_max_tile_id (img : option (Z * Z)) : option Z :=
  match img with
  | Some (width, height) =>
      let tile_size := 8 in
      let tiles_per_row := width `div` tile_size in
      let tiles_per_col := height `div` tile_size in
      let total_tiles := tiles_per_row * tiles_per_col in
      if total_tiles >? 0 then Some (total_tiles - 1) else None
  | None => None
  end.

(** The validation block of [convert_map] that follows the routing loop
    (the log calls left out): it returns the two sets as they are when
    [tileset_builder.add_tiles] receives them. *)
Definition validate_used_tiles (primary_max_tile secondary_max_tile : option Z)
    (used_primary_tiles used_secondary_tiles : gset Z) : gset Z * gset Z :=
  let used_primary_tiles :=
    match primary_max_tile with
    | Some primary_max_tile =>
        filter (fun tid => 0 <= tid <= primary_max_tile) used_primary_tiles
    | None => used_primary_tiles
    end in
  match secondary_max_tile with
  | Some secondary_max_tile =>
      let invalid_secondary :=
        filter (fun tid => tid > secondary_max_tile) used_secondary_tiles in
      if decide (invalid_secondary ≠ ∅) then
        let misrouted := filter (fun tid => tid < 512) invalid_secondary in
        let '(used_primary_tiles, used_secondary_tiles) :=
          if decide (misrouted ≠ ∅) then
            (used_primary_tiles ∪ misrouted,
             filter (fun tid => tid ∉ misrouted) used_secondary_tiles)
          else (used_primary_tiles, used_secondary_tiles) in
        (used_primary_tiles,
         filter (fun tid => 0 <= tid <= secondary_max_tile)
                used_secondary_tiles)
      else (used_primary_tiles, used_secondary_tiles)
  | None => (used_primary_tiles, used_secondary_tiles)
  end.

(** The GID assignment with deduplication, written inline for the bottom
    and for the top image in [_process_border_metatiles]: it returns the
    GID with the updated dictionary and counter. *)
Definition assign_gid (image_bytes : list byte)
    (image_to_gid : gmap (list byte) Z) (next_gid : Z)
  : Z * gmap (list byte) Z * Z :=
  match image_to_gid !! image_bytes with
  | Some gid => (gid, image_to_gid, next_gid)
  | None =>
      let gid := next_gid in
      (gid, <[image_bytes := gid]> image_to_gid, next_gid + 1)
  end.

(** Both assignments of [_process_border_metatiles], bottom then top. *)
Definition assign_border_gids (border_bottom_bytes border_top_bytes : list byte)
    (image_to_gid : gmap (list byte) Z) (next_gid : Z)
  : Z * Z * gmap (list byte) Z * Z :=
  let '(border_bottom_gid, image_to_gid, next_gid) :=
    assign_gid border_bottom_bytes image_to_gid next_gid in
  let '(border_top_gid, image_to_gid, next_gid) :=
    assign_gid border_top_bytes image_to_gid next_gid in
  (border_bottom_gid, border_top_gid, image_to_gid, next_gid).

(** An entry of [object_events] or of [warp_events], as far as the
    position is concerned: the values of the keys "x" and "y", [None] for a
    missing key. *)
Record event : Type := Event {
  event_x : option Z;
  event_y : option Z
}.

(** An element of [objects_layer["objects"]], without its "properties". *)
Record tiled_object : Type := TiledObject {
  object_id : Z;
  object_name : string;
  object_type : string;
  object_x : Z;
  object_y : Z;
  object_width : Z;
  object_height : Z
}.

(** The two loops of [convert_map] that fill the object layer: the objects
    and the counter [object_id] after the loops. *)
Definition convert_events (object_events warp_events : list event)
  : list tiled_object * Z :=
  let objects_and_id :=
    foldl (fun '(objects, object_id) obj =>
             (objects
              ++ [TiledObject object_id ("NPC_" +:+ pretty object_id) "npc"
                    (default 0 (event_x obj) * 8)
                    (default 0 (event_y obj) * 8) 16 16],
              object_id + 1))
          ([], 1) object_events in
  foldl (fun '(objects, object_id) warp =>
           (objects
            ++ [TiledObject object_id ("Warp_" +:+ pretty object_id)
                  "warp_event"
                  (default 0 (event_x warp) * 8)
                  (default 0 (event_y warp) * 8) 8 8],
            object_id + 1))
        objects_and_id warp_events.

(** The end of [convert_map]: the object layer is added, and "nextobjectid"
    set, only when there is an object. *)
Definition objects_layer (object_events warp_events : list event)
  : option (list tiled_object * Z) :=
  let '(objects, object_id) := convert_events object_events warp_events in
  if bool_decide (objects ≠ []) then Some (objects, object_id) else None.

(** [_read_and_validate_map_data], on the bytes of the [map_bin] file of
    the layout: [None] is the function's own failure value, [Raise] an
    exception that leaves it.  An exception raised inside the
    [except ValueError] handler is not caught by the [except Exception]
    clause that follows it. *)
Definition _read_and_validate_map_data (data : list byte) (width height : Z)
  : result (option (list (list Z) * Z * Z)) :=
  match MapReader.read_map_bin data width height with
  | Ok map_entries => Ok (Some (map_entries, width, height))
  | Raise ValueError =>
      let file_size := len data in
      let expected_entries := width * height in
      let actual_entries := file_size `div` 2 in
      if decide (actual_entries ≠ expected_entries) then
        let half_width := width `div` 2 in
        let half_height := height `div` 2 in
        if (half_width >? 0) && (half_height >? 0)
           && bool_decide (actual_entries = half_width * half_height)
        then
          let width := half_width in
          let height := half_height in
          map_entries ← MapReader.read_map_bin data width height;
          Ok (Some (map_entries, width, height))
        else Ok None
      else Raise ValueError
  | Raise _ => Ok None
  end.

(** *** Phase 2 of [_build_metatile_animations]

    The pixel operations belong to the imaging library, so the model takes
    them as parameters: [paste dst src (x, y)] is [dst.paste(src, (x, y),
    src)] and the two flips are [transpose(FLIP_LEFT_RIGHT)] and
    [transpose(FLIP_TOP_BOTTOM)]; every image is taken to be RGBA already.
    The tileset image is represented by the sequence of pastes made on it,
    each with its pixel position; enlarging the canvas before a paste is not
    represented.  The dictionary [animation_frames_gids], which no timeline
    reads, is left out. *)

Section Animations.
Context (Image : Type).
Context (paste : Image → Image → Z * Z → Image).
Context (flip_left_right flip_top_bottom : Image → Image).

(** An entry of [anim_info_list]: the ten-field tuple built in phase 1. *)
Record anim_info : Type := AnimInfo {
  anim_name : string;
  frames : list Image;
  duration_ms : Z;
  frame_sequence : option (list Z);
  actual_base_tile_id : Z;
  num_tiles : Z;
  animated_tile_range : gset Z;
  is_metatile : bool;
  anim_layer_gid : Z;
  orig_tile_position : Z
}.

(** A value of [all_bottom_tiles] / [all_top_tiles]: the eight-field tuple. *)
Record strip_tile : Type := StripTile {
  st_tile_id : Z;
  st_flip_flags : Z;
  st_anim_name : string;
  st_frames : list Image;
  st_actual_base : Z;
  st_num_tiles : Z;
  st_frame_seq : option (list Z);
  st_duration_ms : Z
}.

(** [d[k] = v] on a dictionary whose iteration order matters: an existing
    key keeps its place, a new key goes last. *)
Fixpoint dict_set {V : Type} (d : list (Z * V)) (k : Z) (v : V)
  : list (Z * V) :=
  match d with
  | [] => [(k, v)]
  | (k', v') :: d' =>
      if decide (k' = k) then (k, v) :: d' else (k', v') :: dict_set d' k v
  end.

Record strip_tiles : Type := StripTiles {
  all_bottom_tiles : list (Z * strip_tile);
  all_top_tiles : list (Z * strip_tile);
  bottom_layer_gids : gset Z;
  top_layer_gids : gset Z
}.

Definition no_strip_tiles : strip_tiles := StripTiles [] [] ∅ ∅.

(** The body of the loop over [anim_info_list] in the tile-strip branch. *)
Definition collect_strip_tile (metatile_tiles : list (Z * Z * Z))
    (c : strip_tiles) (info : anim_info) : result strip_tiles :=
  if orig_tile_position info <? 4 then
    let pos := orig_tile_position info in
    '(tile_id, flip_flags, _) ← getitem metatile_tiles pos;
    if decide (tile_id ∈ animated_tile_range info) then
      Ok {| all_bottom_tiles :=
              dict_set (all_bottom_tiles c) pos
                (StripTile tile_id flip_flags (anim_name info) (frames info)
                   (actual_base_tile_id info) (num_tiles info)
                   (frame_sequence info) (duration_ms info));
            all_top_tiles := all_top_tiles c;
            bottom_layer_gids := {[anim_layer_gid info]} ∪ bottom_layer_gids c;
            top_layer_gids := top_layer_gids c |}
    else Ok c
  else
    let pos := orig_tile_position info in
    '(tile_id, flip_flags, _) ← getitem metatile_tiles pos;
    if decide (tile_id ∈ animated_tile_range info) then
      Ok {| all_bottom_tiles := all_bottom_tiles c;
            all_top_tiles :=
              dict_set (all_top_tiles c) (pos - 4)
                (StripTile tile_id flip_flags (anim_name info) (frames info)
                   (actual_base_tile_id info) (num_tiles info)
                   (frame_sequence info) (duration_ms info));
            bottom_layer_gids := bottom_layer_gids c;
            top_layer_gids := {[anim_layer_gid info]} ∪ top_layer_gids c |}
    else Ok c.

Fixpoint collect_strip_tiles (metatile_tiles : list (Z * Z * Z))
    (c : strip_tiles) (anim_info_list : list anim_info) : result strip_tiles :=
  match anim_info_list with
  | [] => Ok c
  | info :: rest =>
      c ← collect_strip_tile metatile_tiles c info;
      collect_strip_tiles metatile_tiles c rest
  end.

(** The computation of [actual_frame] for step [frame_num]; an empty
    [frame_seq] is falsy, like [None]. *)
Definition actual_frame (frame_seq : option (list Z)) (frames : list Image)
    (num_tiles frame_num : Z) : result Z :=
  match frame_seq with
  | Some ((_ :: _) as frame_seq) =>
      i ← py_mod frame_num (len frame_seq);
      getitem frame_seq i
  | _ =>
      if (num_tiles >? 0) && (len frames >? 0) then
        frames_per_cycle ← py_floordiv (len frames) num_tiles;
        if frames_per_cycle >? 0 then py_mod frame_num frames_per_cycle
        else Ok 0
      else Ok 0
  end.

(** The body of the loop over [all_bottom_tiles.items()] (the same for the
    top half): substitute the animated tile of step [frame_num] at [pos]. *)
Definition paste_animated_tile (frame_num : Z) (composite : Image)
    (pos : Z) (t : strip_tile) : result Image :=
  actual_frame ← actual_frame (st_frame_seq t) (st_frames t) (st_num_tiles t)
                   frame_num;
  let tile_offset := st_tile_id t - st_actual_base t in
  let frame_tile_idx := actual_frame * st_num_tiles t + tile_offset in
  if (0 <=? frame_tile_idx) && (frame_tile_idx <? len (st_frames t)) then
    frame_tile ← getitem (st_frames t) frame_tile_idx;
    let frame_tile :=
      if decide (Z.land (st_flip_flags t) FLIP_HORIZONTAL ≠ 0)
      then flip_left_right frame_tile else frame_tile in
    let frame_tile :=
      if decide (Z.land (st_flip_flags t) FLIP_VERTICAL ≠ 0)
      then flip_top_bottom frame_tile else frame_tile in
    let px := (pos `mod` 2) * 8 in
    let py := (pos `div` 2) * 8 in
    Ok (paste composite frame_tile (px, py))
  else Ok composite.

Fixpoint composite_half (frame_num : Z) (composite : Image)
    (tiles : list (Z * strip_tile)) : result Image :=
  match tiles with
  | [] => Ok composite
  | (pos, t) :: rest =>
      composite ← paste_animated_tile frame_num composite pos t;
      composite_half frame_num composite rest
  end.

(** The tileset under construction: the pastes made so far and the counter. *)
Record tileset_state : Type := TilesetState {
  tileset_pastes : list (Z * Z * Image);
  next_gid : Z
}.

(** The block that adds one frame image to the tileset: the frame takes the
    tile index [next_gid - 1], whatever its content, and the counter moves
    on. *)
Definition add_frame (cols : Z) (frame_img : Image) (ts : tileset_state)
  : result (Z * tileset_state) :=
  let tile_idx := next_gid ts - 1 in
  column ← py_mod tile_idx cols;
  row ← py_floordiv tile_idx cols;
  let x := column * 16 in
  let y := row * 16 in
  Ok (tile_idx,
      {| tileset_pastes := tileset_pastes ts ++ [(x, y, frame_img)];
         next_gid := next_gid ts + 1 |}).

(** The first [for frame_num in range(num_anim_frames)] loop: both halves
    are composited, the bottom one is added to the tileset. *)
Fixpoint composite_bottom_frames (cols : Z) (base_bottom base_top : Image)
    (c : strip_tiles) (frame_nums : list Z)
    (composited_frame_map : gmap Z Z) (ts : tileset_state)
  : result (gmap Z Z * tileset_state) :=
  match frame_nums with
  | [] => Ok (composited_frame_map, ts)
  | frame_num :: rest =>
      composite_bottom ←
        composite_half frame_num base_bottom (all_bottom_tiles c);
      composite_top ← composite_half frame_num base_top (all_top_tiles c);
      '(tile_idx, ts) ← add_frame cols composite_bottom ts;
      composite_bottom_frames cols base_bottom base_top c rest
        (<[frame_num := tile_idx]> composited_frame_map) ts
  end.

(** The second loop, run when [all_top_tiles] is not empty. *)
Fixpoint composite_top_frames (cols : Z) (base_top : Image)
    (c : strip_tiles) (frame_nums : list Z)
    (composited_top_frame_map : gmap Z Z) (ts : tileset_state)
  : result (gmap Z Z * tileset_state) :=
  match frame_nums with
  | [] => Ok (composited_top_frame_map, ts)
  | frame_num :: rest =>
      composite_top_frame ←
        composite_half frame_num base_top (all_top_tiles c);
      '(tile_idx, ts) ← add_frame cols composite_top_frame ts;
      composite_top_frames cols base_top c rest
        (<[frame_num := tile_idx]> composited_top_frame_map) ts
  end.

(** [[{"tileid": m[f], "duration": d} for f in range(n) if f in m]] *)
Definition frame_gids (frame_map : gmap Z Z) (num_anim_frames duration_ms : Z)
  : list (Z * Z) :=
  omap (fun frame_num =>
          (fun tile_idx => (tile_idx, duration_ms)) <$> frame_map !! frame_num)
       (range num_anim_frames).

(** An element [{"id": id, "animation": timeline}] of [animations]. *)
Definition animation : Type := Z * list (Z * Z).

(** The two final blocks of the branch: the bottom timeline goes to the
    GIDs of [bottom_layer_gids], the top timeline to those of
    [top_layer_gids].  A Python set has no specified iteration order;
    [elements] fixes one. *)
Definition attach_bottom (c : strip_tiles) (used_gids : gset Z)
    (composited_frame_gids : list (Z * Z)) : list animation :=
  if bool_decide (composited_frame_gids ≠ [])
     && bool_decide (all_bottom_tiles c ≠ [])
  then (fun gid => (gid - 1, composited_frame_gids))
         <$> filter (fun gid => gid ∈ used_gids) (elements (bottom_layer_gids c))
  else [].

Definition attach_top (c : strip_tiles) (used_gids : gset Z)
    (composited_top_frame_gids : list (Z * Z)) : list animation :=
  if bool_decide (composited_top_frame_gids ≠ [])
     && bool_decide (all_top_tiles c ≠ [])
  then (fun gid => (gid - 1, composited_top_frame_gids))
         <$> filter (fun gid => gid ∈ used_gids) (elements (top_layer_gids c))
  else [].

(** The two timelines of the tile-strip branch, built from the collected
    tiles: [(composited_frame_gids, composited_top_frame_gids)]. *)
Definition strip_timelines (cols : Z) (base_bottom base_top : Image)
    (c : strip_tiles) (ts : tileset_state)
  : result (list (Z * Z) * list (Z * Z) * tileset_state) :=
  let num_anim_frames := 8 in
  let duration_ms := 200 in
  '(composited_frame_map, ts) ←
    composite_bottom_frames cols base_bottom base_top c
      (range num_anim_frames) ∅ ts;
  '(composited_top_frame_map, ts) ←
    (if bool_decide (all_top_tiles c ≠ [])
     then composite_top_frames cols base_top c (range num_anim_frames) ∅ ts
     else Ok (∅, ts));
  Ok (frame_gids composited_frame_map num_anim_frames duration_ms,
      frame_gids composited_top_frame_map num_anim_frames duration_ms,
      ts).

(** The tile-strip branch for one metatile: the animations it appends and
    the tileset afterwards. *)
Definition build_strip_animations (cols : Z) (used_gids : gset Z)
    (base_bottom base_top : Image) (metatile_tiles : list (Z * Z * Z))
    (anim_info_list : list anim_info) (ts : tileset_state)
  : result (list animation * tileset_state) :=
  c ← collect_strip_tiles metatile_tiles no_strip_tiles anim_info_list;
  if bool_decide (all_bottom_tiles c = [])
     && bool_decide (all_top_tiles c = [])
  then Ok ([], ts)
  else
    '(composited_frame_gids, composited_top_frame_gids, ts) ←
      strip_timelines cols base_bottom base_top c ts;
    Ok (attach_bottom c used_gids composited_frame_gids
          ++ attach_top c used_gids composited_top_frame_gids,
        ts).

(** The loop [for frame_idx, frame_img in enumerate(frames)] of the
    metatile-frame branch. *)
Fixpoint add_metatile_frames (cols : Z) (frames : list Image) (frame_idx : Z)
    (frame_gid_map : gmap Z Z) (ts : tileset_state)
  : result (gmap Z Z * tileset_state) :=
  match frames with
  | [] => Ok (frame_gid_map, ts)
  | frame_img :: rest =>
      '(tile_idx, ts) ← add_frame cols frame_img ts;
      add_metatile_frames cols rest (frame_idx + 1)
        (<[frame_idx := tile_idx]> frame_gid_map) ts
  end.

(** The metatile-frame branch, for the first entry with [is_metatile]. *)
Definition build_metatile_animation (cols : Z) (used_gids : gset Z)
    (info : anim_info) (ts : tileset_state)
  : result (list animation * tileset_state) :=
  '(frame_gid_map, ts) ← add_metatile_frames cols (frames info) 0 ∅ ts;
  let playback_order :=
    match frame_sequence info with
    | Some ((_ :: _) as frame_sequence) => frame_sequence
    | _ => range (len (frames info))
    end in
  let shared_frame_gids :=
    omap (fun seq_idx =>
            (fun tile_idx => (tile_idx, duration_ms info))
              <$> frame_gid_map !! seq_idx)
         playback_order in
  if bool_decide (anim_layer_gid info ∈ used_gids)
     && bool_decide (shared_frame_gids ≠ [])
  then Ok ([(anim_layer_gid info - 1, shared_frame_gids)], ts)
  else Ok ([], ts).

(** The body of the phase-2 loop once the base images and the composition
    of the metatile have been looked up. *)
Definition build_animations_for_metatile (cols : Z) (used_gids : gset Z)
    (base_bottom base_top : Image) (metatile_tiles : list (Z * Z * Z))
    (anim_info_list : list anim_info) (ts : tileset_state)
  : result (list animation * tileset_state) :=
  match find is_metatile anim_info_list with
  | Some info => build_metatile_animation cols used_gids info ts
  | None =>
      build_strip_animations cols used_gids base_bottom base_top
        metatile_tiles anim_info_list ts
  end.

(** The final pass: one animation per tile ID, the first one. *)
Definition deduplicate_animations (animations : list animation)
  : list animation :=
  (foldl (fun '(seen_ids, deduplicated_animations) anim =>
            let anim_id := anim.1 in
            if decide (anim_id ∈ (seen_ids : gset Z))
            then (seen_ids, deduplicated_animations)
            else ({[anim_id]} ∪ seen_ids, deduplicated_animations ++ [anim]))
         (∅, []) animations).2.

End Animations.

Arguments AnimInfo {Image}.
Arguments anim_name {Image}.
Arguments frames {Image}.
Arguments duration_ms {Image}.
Arguments frame_sequence {Image}.
Arguments actual_base_tile_id {Image}.
Arguments num_tiles {Image}.
Arguments animated_tile_range {Image}.
Arguments is_metatile {Image}.
Arguments anim_layer_gid {Image}.
Arguments orig_tile_position {Image}.
Arguments StripTile {Image}.
Arguments st_tile_id {Image}.
Arguments st_flip_flags {Image}.
Arguments st_anim_name {Image}.
Arguments st_frames {Image}.
Arguments st_actual_base {Image}.
Arguments st_num_tiles {Image}.
Arguments st_frame_seq {Image}.
Arguments st_duration_ms {Image}.
Arguments StripTiles {Image}.
Arguments all_bottom_tiles {Image}.
Arguments all_top_tiles {Image}.
Arguments bottom_layer_gids {Image}.
Arguments top_layer_gids {Image}.
Arguments no_strip_tiles {Image}.
Arguments collect_strip_tile {Image}.
Arguments collect_strip_tiles {Image}.
Arguments actual_frame {Image}.
Arguments TilesetState {Image}.
Arguments tileset_pastes {Image}.
Arguments next_gid {Image}.
Arguments add_frame {Image}.
Arguments attach_bottom {Image}.
Arguments attach_top {Image}.
Arguments add_metatile_frames {Image}.
Arguments build_metatile_animation {Image}.
Arguments paste_animated_tile {Image}.
Arguments composite_half {Image}.
Arguments composite_bottom_frames {Image}.
Arguments composite_top_frames {Image}.
Arguments strip_timelines {Image}.
Arguments build_strip_animations {Image}.
Arguments build_animations_for_metatile {Image}.

End Converter.

(** ** animation_scanner.py *)

Module AnimationScanner.

(** [extract_tiles_from_frame] on an opened frame image, already RGBA, of
    the given width and height: [crop img (x0, y0, x1, y1)] is
    [img.crop(...)] and [new_tile] the transparent 8 x 8 tile made by
    [Image.new].  The divisor [tiles_per_row] is at least 1 by its
    definition. *)
Section Frames.
Context (Image : Type).
Context (crop : Image → Z * Z * Z * Z → Image) (new_tile : Image).

Definition extract_tiles_from_frame (frame_img : Image) (width height : Z)
    (num_tiles : Z) : list Image :=
  if bool_decide (width = 16) && bool_decide (height = 16) then [frame_img]
  else
    let actual_tile_size := 8 in
    let tiles_per_row :=
      if width >=? actual_tile_size then width `div` actual_tile_size else 1 in
    let tiles_per_col :=
      if height >=? actual_tile_size then height `div` actual_tile_size
      else 1 in
    let total_available_tiles := tiles_per_row * tiles_per_col in
    let is_single_column :=
      bool_decide (tiles_per_row = 1) && (tiles_per_col >=? num_tiles) in
    let is_single_row :=
      bool_decide (tiles_per_col = 1) && (tiles_per_row >=? num_tiles) in
    let is_two_column_grid :=
      bool_decide (tiles_per_row = 2)
      && (total_available_tiles >=? num_tiles) in
    let is_general_grid := total_available_tiles >=? num_tiles in
    if is_single_column then
      (fun i =>
         let x := 0 in
         let y := i * actual_tile_size in
         if y + actual_tile_size <=? height
         then crop frame_img (x, y, x + actual_tile_size, y + actual_tile_size)
         else new_tile) <$> range num_tiles
    else if is_single_row then
      (fun i =>
         let x := i * actual_tile_size in
         let y := 0 in
         if x + actual_tile_size <=? width
         then crop frame_img (x, y, x + actual_tile_size, y + actual_tile_size)
         else new_tile) <$> range num_tiles
    else if is_two_column_grid || is_general_grid then
      (fun i =>
         let col := i `mod` tiles_per_row in
         let row := i `div` tiles_per_row in
         let x := col * actual_tile_size in
         let y := row * actual_tile_size in
         if (x + actual_tile_size <=? width)
            && (y + actual_tile_size <=? height)
         then crop frame_img (x, y, x + actual_tile_size, y + actual_tile_size)
         else new_tile) <$> range num_tiles
    else
      let tiles :=
        (fun i =>
           let col := i `mod` tiles_per_row in
           let row := i `div` tiles_per_row in
           let x := col * actual_tile_size in
           let y := row * actual_tile_size in
           crop frame_img (x, y, x + actual_tile_size, y + actual_tile_size))
          <$> range (Z.min num_tiles total_available_tiles) in
      tiles ++ replicate (Z.to_nat (num_tiles - len tiles)) new_tile.

End Frames.

Arguments extract_tiles_from_frame {Image}.

End AnimationScanner.

(** ** fix_world_coordinates.py *)

Module FixWorldCoordinates.

(** An element of [world['maps']]: the stem of its [fileName] and its
    position. *)
Record map_entry : Type := MapEntry {
  map_name : string;
  map_x : Z;
  map_y : Z
}.

#[global] Instance map_entry_eq_dec : EqDecision map_entry.
Proof. solve_decision. Defined.

(** [maps_by_name[name]] after the indexing loop: the last entry of the
    list with that name, with its place in the list, since the dictionary
    holds the entry object itself. *)
Fixpoint find_entry (name : string) (maps : list map_entry) (i : nat)
  : option (nat * map_entry) :=
  match maps with
  | [] => None
  | m :: rest =>
      match find_entry name rest (S i) with
      | Some r => Some r
      | None => if decide (map_name m = name) then Some (i, m) else None
      end
  end.

Definition set_y (m : map_entry) (y : Z) : map_entry :=
  MapEntry (map_name m) (map_x m) y.

(** [fix_world_coordinates] on the list [world['maps']]: the list as it is
    written back and the names of the maps that a fix was applied to (the
    printed messages left out). *)
Definition fix_world_coordinates (maps : list map_entry)
  : list map_entry * list string :=
  let '(maps, fixes_applied) :=
    match find_entry "dewford_town" maps 0, find_entry "route107" maps 0 with
    | Some (_, dewford), Some (j, route107) =>
        if decide (Z.abs (map_y dewford - map_y route107) = 32)
        then (<[j := set_y route107 (map_y dewford)]> maps, ["route107"])
        else (maps, [])
    | _, _ => (maps, [])
    end in
  match find_entry "route114" maps 0, find_entry "route115" maps 0 with
  | Some (j, route114), Some (_, route115) =>
      let expected_offset := 320 in
      let actual_offset := Z.abs (map_y route115 - map_y route114) in
      if decide (actual_offset ≠ expected_offset) then
        let correct_y := map_y route115 + expected_offset in
        if decide (map_y route114 ≠ correct_y)
        then (<[j := set_y route114 correct_y]> maps,
              fixes_applied ++ ["route114"])
        else (maps, fixes_applied)
      else (maps, fixes_applied)
  | _, _ => (maps, fixes_applied)
  end.

End FixWorldCoordinates.

(** ** Notions used in the statements *)

(** What the bound check of the block accepts: everything when the image
    of the bank could not be read. *)
Definition within_bound (max_tile : option Z) (tid : Z) : Prop :=
  match max_tile with
  | Some m => 0 <= tid <= m
  | None => True
  end.

(** The records of a buffer, two bytes at a time; a trailing byte is no
    record.  [unpack_entries] computes this list (lemma
    [unpack_entries_rec]). *)
Fixpoint entries_of (data : list byte) : list Z :=
  match data with
  | lo :: hi :: rest => unpack_H [lo; hi] :: entries_of rest
  | _ => []
  end.

(** The tile that [info] points at in the metatile is in its animated
    range: the test of the collecting loop. *)
Definition animated_at {Image : Type} (metatile_tiles : list (Z * Z * Z))
    (info : Converter.anim_info Image) : Prop :=
  ∃ tile_id flip_flags palette,
    getitem metatile_tiles (Converter.orig_tile_position info)
      = Ok (tile_id, flip_flags, palette)
    ∧ tile_id ∈ Converter.animated_tile_range info.

(** The timelines of the tile-strip branch when the counter is [n] on
    entry: 8 frames of 200 ms on consecutive tiles. *)
Definition strip_bottom_timeline (n : Z) : list (Z * Z) :=
  (fun i => (n - 1 + i, 200)) <$> range 8.

Definition strip_top_timeline (n : Z) : list (Z * Z) :=
  (fun i => (n + 7 + i, 200)) <$> range 8.

(** What a frame loop leaves in its frame map: step [k + i] of the run is
    on tile [next_gid - 1 + i]. *)
Definition frames_added (k n : nat) (next : Z) (old new : gmap Z Z) : Prop :=
  ∀ z : Z, new !! z
    = if decide (Z.of_nat k <= z < Z.of_nat (k + n))
      then Some (next - 1 + (z - Z.of_nat k))
      else old !! z.

(** [gid] is the GID of an entry of the list whose animated occurrence is
    in the bottom half (positions below 4), respectively the top half. *)
Definition bottom_source {Image : Type} (metatile_tiles : list (Z * Z * Z))
    (l : list (Converter.anim_info Image)) (gid : Z) : Prop :=
  ∃ info, info ∈ l ∧ Converter.anim_layer_gid info = gid
    ∧ Converter.orig_tile_position info < 4 ∧ animated_at metatile_tiles info.

Definition top_source {Image : Type} (metatile_tiles : list (Z * Z * Z))
    (l : list (Converter.anim_info Image)) (gid : Z) : Prop :=
  ∃ info, info ∈ l ∧ Converter.anim_layer_gid info = gid
    ∧ 4 <= Converter.orig_tile_position info ∧ animated_at metatile_tiles info.

(** The image dictionary and the counter of the GID allocator agree: the
    counter is at least 1, every recorded GID is at least 1 and below the
    counter, and no two images share a GID. *)
Definition gid_table_ok (image_to_gid : gmap (list byte) Z) (next_gid : Z)
  : Prop :=
  1 <= next_gid
  ∧ (∀ k g, image_to_gid !! k = Some g → 1 <= g < next_gid)
  ∧ (∀ k1 k2 g, image_to_gid !! k1 = Some g → image_to_gid !! k2 = Some g →
       k1 = k2).

(** Every positive GID written to one of the three layers is recorded in
    [used_gids]. *)
Definition layers_tracked (st : Converter.map_layers) : Prop :=
  ∀ gid, gid > 0 →
    gid ∈ Converter.layer_data_bg3 st ∨ gid ∈ Converter.layer_data_bg2 st
    ∨ gid ∈ Converter.layer_data_bg1 st →
    gid ∈ Converter.used_gids st.

(** A run of calls [add_used_tile_with_palette(tile_id, palette_index,
    tileset_name)], in order, on the accumulators [u]. *)
Definition add_used_tiles (primary_tileset : string)
    (calls : list (Z * Z * string)) (u : Converter.used_tiles)
  : Converter.used_tiles :=
  foldl (fun u '(tile_id, palette_index, tileset_name) =>
           Converter.add_used_tile_with_palette primary_tileset tile_id
             palette_index tileset_name u)
        u calls.

(** ** Example inputs

    One-byte images stand for the pixel data; pasting keeps the pasted
    image, which is all the examples need. *)

Definition px_paste (dst src : list byte) (xy : Z * Z) : list byte := src.

(** A two-frame strip animation of tile 432, found at position 4 (top half)
    of the first metatile and at position 0 (bottom half) of the second. *)
Definition info_a : Converter.anim_info (list byte) :=
  Converter.AnimInfo "water" [[x01]; [x02]] 200 (Some [0; 1]) 432 1 {[432]}
    false 2 4.

Definition info_b : Converter.anim_info (list byte) :=
  Converter.AnimInfo "water" [[x01]; [x02]] 200 (Some [0; 1]) 432 1 {[432]}
    false 1 0.

Definition tiles_a : list (Z * Z * Z) :=
  [(1, 0, 0); (1, 0, 0); (1, 0, 0); (1, 0, 0);
   (432, 0, 0); (1, 0, 0); (1, 0, 0); (1, 0, 0)].

Definition tiles_b : list (Z * Z * Z) :=
  [(432, 0, 0); (1, 0, 0); (1, 0, 0); (1, 0, 0);
   (1, 0, 0); (1, 0, 0); (1, 0, 0); (1, 0, 0)].

Definition anims_a : list Converter.animation := [(1, strip_top_timeline 3)].

Definition ts_a : Converter.tileset_state (list byte) :=
  Converter.TilesetState
    [(32, 0, [x00]); (48, 0, [x00]); (64, 0, [x00]); (80, 0, [x00]);
     (96, 0, [x00]); (112, 0, [x00]); (128, 0, [x00]); (144, 0, [x00]);
     (160, 0, [x01]); (176, 0, [x02]); (192, 0, [x01]); (208, 0, [x02]);
     (224, 0, [x01]); (240, 0, [x02]); (0, 16, [x01]); (16, 16, [x02])]
    19.

Definition anims_b : list Converter.animation := [(0, strip_bottom_timeline 19)].

Definition ts_b : Converter.tileset_state (list byte) :=
  Converter.TilesetState
    (Converter.tileset_pastes ts_a
     ++ [(32, 16, [x01]); (48, 16, [x02]); (64, 16, [x01]); (80, 16, [x02]);
         (96, 16, [x01]); (112, 16, [x02]); (128, 16, [x01]);
         (144, 16, [x02])])
    27.

(** The water animation of the specification: 30 tiles from tile 432, the
    sequence 0..7, on the tile at bottom position 0. *)
Definition water_tiles : Converter.strip_tiles (list byte) :=
  Converter.StripTiles
    [(0, Converter.StripTile 432 0 "water" (replicate 240 [x01]) 432 30
           (Some [0; 1; 2; 3; 4; 5; 6; 7]) 200)]
    [] {[1]} ∅.

(** * Properties *)

(** ** Layer routing ([metatile.py], [_build_map_layers]) *)

Section LayerRouting.
Import Metatile Converter.

Lemma slice_bottom_half {A : Type} (bottom top : list A) :
  length bottom = 4%nat → slice (bottom ++ top) 0 4 = bottom.
Proof.
  intros Hb. unfold slice.
  change (Z.to_nat (4 - 0)) with 4%nat. change (Z.to_nat 0) with 0%nat.
  rewrite drop_0, <- Hb. apply take_app_length.
Qed.

Lemma slice_top_half {A : Type} (bottom top : list A) :
  length bottom = 4%nat → length top = 4%nat →
  slice (bottom ++ top) 4 8 = top.
Proof.
  intros Hb Ht. unfold slice.
  change (Z.to_nat (8 - 4)) with 4%nat. change (Z.to_nat 4) with 4%nat.
  rewrite <- Hb at 2. rewrite drop_app_length.
  rewrite <- Ht. apply firstn_all.
Qed.

(** The cell step of [_build_map_layers] writes the two GIDs of the
    metatile to the layers that the routing table names and leaves the
    third layer as it was. *)
Lemma build_map_layers_cell_table
    (attributes : gmap Z Z) (metatile_to_gid : gmap (Z * string * Z * bool) Z)
    (id : Z) (name : string) (idx : nat) (st : map_layers) (v : Z) :
  default 0 (attributes !! id) = v →
  (idx < length (layer_data_bg3 st))%nat →
  (idx < length (layer_data_bg2 st))%nat →
  (idx < length (layer_data_bg1 st))%nat →
  v = NORMAL ∨ v = COVERED ∨ v = SPLIT →
  ∃ st', build_map_layers_cell attributes metatile_to_gid id name
           (Z.of_nat idx) st = Ok st'
    ∧ let bottom_gid := default 0 (metatile_to_gid !! (id, name, v, false)) in
      let top_gid := default 0 (metatile_to_gid !! (id, name, v, true)) in
      (v = NORMAL →
         layer_data_bg3 st' = layer_data_bg3 st
         ∧ layer_data_bg2 st' = <[idx := bottom_gid]> (layer_data_bg2 st)
         ∧ layer_data_bg1 st' = <[idx := top_gid]> (layer_data_bg1 st))
      ∧ (v = COVERED →
         layer_data_bg3 st' = <[idx := bottom_gid]> (layer_data_bg3 st)
         ∧ layer_data_bg2 st' = <[idx := top_gid]> (layer_data_bg2 st)
         ∧ layer_data_bg1 st' = layer_data_bg1 st)
      ∧ (v = SPLIT →
         layer_data_bg3 st' = <[idx := bottom_gid]> (layer_data_bg3 st)
         ∧ layer_data_bg2 st' = layer_data_bg2 st
         ∧ layer_data_bg1 st' = <[idx := top_gid]> (layer_data_bg1 st)).
Proof.
  intros Hv H3 H2 H1 Hcase.
  assert (Hset : ∀ (l : list Z) (x : Z), (idx < length l)%nat →
             setitem l (Z.of_nat idx) x = Ok (<[idx := x]> l)).
  { intros l x Hl. unfold setitem, len.
    destruct (Z.of_nat idx <? 0) eqn:E1; [lia|].
    rewrite E1. simpl.
    destruct (Z.of_nat (length l) <=? Z.of_nat idx) eqn:E2; [lia|].
    by rewrite Nat2Z.id. }
  unfold build_map_layers_cell. rewrite Hv.
  destruct Hcase as [-> | [-> | ->]]; cbn;
    rewrite !Hset by done; cbn; eexists; (split; [reflexivity|]);
    cbn; repeat split; intros; try done.
Qed.

(** C1: for every metatile (four bottom references followed by four top
    references), [split_metatile_to_layers] returns (zeros, bottom, top) for
    NORMAL, (bottom, top, zeros) for COVERED and (bottom, zeros, top) for
    SPLIT; a SPLIT metatile with bottom [5,6,7,8] and top [500,501,502,503]
    gives ([5,6,7,8], zeros, [500,501,502,503]). *)
Theorem split_metatile_routing_table (bottom top : list Z) :
  length bottom = 4%nat →
  length top = 4%nat →
  split_metatile_to_layers (bottom ++ top) NORMAL = ([0; 0; 0; 0], bottom, top)
  ∧ split_metatile_to_layers (bottom ++ top) COVERED
      = (bottom, top, [0; 0; 0; 0])
  ∧ split_metatile_to_layers (bottom ++ top) SPLIT
      = (bottom, [0; 0; 0; 0], top)
  ∧ split_metatile_to_layers [5; 6; 7; 8; 500; 501; 502; 503] SPLIT
      = ([5; 6; 7; 8], [0; 0; 0; 0], [500; 501; 502; 503]).
Proof.
  intros Hb Ht. unfold split_metatile_to_layers.
  rewrite slice_bottom_half, slice_top_half by done.
  repeat split.
Qed.

Lemma split_metatile_routing_table_witness :
  length [1; 2; 3; 4] = 4%nat
  ∧ length [9; 10; 11; 12] = 4%nat
  ∧ split_metatile_to_layers ([1; 2; 3; 4] ++ [9; 10; 11; 12]) NORMAL
      = ([0; 0; 0; 0], [1; 2; 3; 4], [9; 10; 11; 12])
  ∧ split_metatile_to_layers ([1; 2; 3; 4] ++ [9; 10; 11; 12]) COVERED
      = ([1; 2; 3; 4], [9; 10; 11; 12], [0; 0; 0; 0])
  ∧ split_metatile_to_layers ([1; 2; 3; 4] ++ [9; 10; 11; 12]) SPLIT
      = ([1; 2; 3; 4], [0; 0; 0; 0], [9; 10; 11; 12])
  ∧ split_metatile_to_layers [5; 6; 7; 8; 500; 501; 502; 503] SPLIT
      = ([5; 6; 7; 8], [0; 0; 0; 0], [500; 501; 502; 503]).
Proof.
  split; [reflexivity|]. split; [reflexivity|].
  apply (split_metatile_routing_table [1; 2; 3; 4] [9; 10; 11; 12]);
    reflexivity.
Defined.

End LayerRouting.

(** ** Out-of-range metatile IDs and layer types *)

Section Unpacking.
Import Constants Metatile MapReader Converter.

(** C10: for a negative [metatile_id], or one whose first tile index
    [metatile_id * 8] is at or beyond the end of the table, both unpacking
    functions return eight empty entries; being total functions on lists,
    they raise for no input. *)
Theorem unpack_metatile_out_of_range
    (metatile_id : Z) (metatile_data : list Z)
    (metatile_data_with_attrs : list (Z * Z * Z)) :
  metatile_id < 0 ∨ metatile_id * 8 >= len metatile_data →
  metatile_id < 0 ∨ metatile_id * 8 >= len metatile_data_with_attrs →
  unpack_metatile_data metatile_id metatile_data = [0; 0; 0; 0; 0; 0; 0; 0]
  ∧ unpack_metatile_data_with_attrs metatile_id metatile_data_with_attrs
      = [(0, 0, 0); (0, 0, 0); (0, 0, 0); (0, 0, 0);
         (0, 0, 0); (0, 0, 0); (0, 0, 0); (0, 0, 0)].
Proof.
  intros H1 H2.
  unfold unpack_metatile_data, unpack_metatile_data_with_attrs,
    NUM_TILES_PER_METATILE.
  split.
  - destruct (metatile_id <? 0) eqn:E1; [done|].
    destruct (metatile_id * 8 >=? len metatile_data) eqn:E2; [done|]. lia.
  - destruct (metatile_id <? 0) eqn:E1; [done|].
    destruct (metatile_id * 8 >=? len metatile_data_with_attrs) eqn:E2;
      [done|]. lia.
Qed.

Lemma unpack_metatile_out_of_range_witness :
  (5 < 0 ∨ 5 * 8 >= len [1; 2; 3])
  ∧ (5 < 0 ∨ 5 * 8 >= len ([] : list (Z * Z * Z)))
  ∧ unpack_metatile_data 5 [1; 2; 3] = [0; 0; 0; 0; 0; 0; 0; 0]
  ∧ unpack_metatile_data_with_attrs 5 []
      = [(0, 0, 0); (0, 0, 0); (0, 0, 0); (0, 0, 0);
         (0, 0, 0); (0, 0, 0); (0, 0, 0); (0, 0, 0)].
Proof.
  assert (H1 : 5 < 0 ∨ 5 * 8 >= len [1; 2; 3]) by (right; vm_compute; discriminate).
  assert (H2 : 5 < 0 ∨ 5 * 8 >= len ([] : list (Z * Z * Z)))
    by (right; vm_compute; discriminate).
  split; [exact H1|]. split; [exact H2|].
  exact (unpack_metatile_out_of_range 5 [1; 2; 3] [] H1 H2).
Defined.

(** The [IntEnum] call accepts the three members and nothing else. *)
Lemma MetatileLayerType_raises (value : Z) :
  value ≠ 0 → value ≠ 1 → value ≠ 2 →
  MetatileLayerType value = Raise ValueError.
Proof.
  intros H0 H1 H2. unfold MetatileLayerType, NORMAL, COVERED, SPLIT.
  repeat case_decide; congruence.
Qed.

(** Called directly with a value that is no member, the splitting function
    takes its last branch, which is the NORMAL assignment. *)
Lemma split_metatile_unknown_is_normal (tiles : list Z) (layer_type : Z) :
  layer_type ≠ 0 → layer_type ≠ 1 → layer_type ≠ 2 →
  split_metatile_to_layers tiles layer_type
    = split_metatile_to_layers tiles NORMAL.
Proof.
  intros H0 H1 H2. unfold split_metatile_to_layers, NORMAL, COVERED, SPLIT.
  repeat case_decide; congruence.
Qed.

(** Both map pipelines build the enum before they convert the cell, so a
    metatile whose attribute holds a layer type outside 0..2 aborts them. *)
Lemma convert_map_cell_raises
    (primary_tileset secondary_tileset : string)
    (primary_metatiles secondary_metatiles : list Z)
    (primary_with_attrs secondary_with_attrs : list (Z * Z * Z))
    (primary_attributes secondary_attributes : gmap Z Z)
    (entry x y width value : Z) :
  extract_metatile_id entry < NUM_METATILES_IN_PRIMARY →
  primary_attributes !! extract_metatile_id entry = Some value →
  value ≠ 0 → value ≠ 1 → value ≠ 2 →
  convert_map_cell primary_tileset secondary_tileset
    primary_metatiles secondary_metatiles primary_with_attrs
    secondary_with_attrs primary_attributes secondary_attributes
    entry x y width = Raise ValueError.
Proof.
  intros Hlt Hattr H0 H1 H2. unfold convert_map_cell.
  destruct (extract_metatile_id entry <? NUM_METATILES_IN_PRIMARY) eqn:E;
    [|lia].
  rewrite Hattr. cbn [default from_option].
  by rewrite MetatileLayerType_raises.
Qed.

Lemma build_map_layers_cell_raises
    (attributes : gmap Z Z) (metatile_to_gid : gmap (Z * string * Z * bool) Z)
    (id : Z) (name : string) (idx : Z) (st : map_layers) (value : Z) :
  attributes !! id = Some value →
  value ≠ 0 → value ≠ 1 → value ≠ 2 →
  build_map_layers_cell attributes metatile_to_gid id name idx st
    = Raise ValueError.
Proof.
  intros Hattr H0 H1 H2. unfold build_map_layers_cell.
  rewrite Hattr. cbn [default from_option].
  by rewrite MetatileLayerType_raises.
Qed.

(** C9 (fails on the code): the attribute record [0x3000] gives metatile 0
    the layer type 3; [convert_map] and [_build_map_layers] then raise
    [ValueError] on that cell instead of routing it as NORMAL, for this and
    for every other value of 3..15, although [split_metatile_to_layers]
    itself would have routed it as NORMAL. *)
Theorem layer_type_out_of_range_raises :
  read_metatile_attributes [x00; x30] = {[0 := 3]}
  ∧ Forall (fun value =>
      convert_map_cell "General" "Petalburg"
        [1; 2; 3; 4; 5; 6; 7; 8] [] [(1, 0, 0); (2, 0, 0); (3, 0, 0);
        (4, 0, 0); (5, 0, 0); (6, 0, 0); (7, 0, 0); (8, 0, 0)] []
        {[0 := value]} ∅ 0 0 0 1 = Raise ValueError
      ∧ build_map_layers_cell {[0 := value]} ∅ 0 "General" 0
          (MapLayers [0] [0] [0] ∅) = Raise ValueError
      ∧ split_metatile_to_layers [1; 2; 3; 4; 5; 6; 7; 8] value
          = ([0; 0; 0; 0], [1; 2; 3; 4], [5; 6; 7; 8]))
     [3; 4; 5; 6; 7; 8; 9; 10; 11; 12; 13; 14; 15].
Proof.
  split; [by vm_compute|].
  repeat (constructor; [repeat split|]).
  constructor.
Qed.

End Unpacking.

(** ** Tile routing and validation of the used-tile sets ([convert_map]) *)

Section TileRouting.
Import Constants Converter.

(** C2: a tile reference 0..1023 of a primary metatile is recorded in the
    primary set with its ID unchanged; for a secondary metatile an ID of
    0..511 is recorded in the primary set unchanged and an ID of 512..1023
    in the secondary set as [tile_id - 512]; 600 becomes 88 in the
    secondary set. *)
Theorem add_used_tile_routes
    (primary_tileset tileset_name_for_tile : string)
    (tile_id palette_index : Z) (u : used_tiles) :
  0 <= tile_id <= 1023 →
  let u' := add_used_tile_with_palette primary_tileset tile_id palette_index
              tileset_name_for_tile u in
  (tileset_name_for_tile = primary_tileset →
     used_primary_tiles u' = {[tile_id]} ∪ used_primary_tiles u
     ∧ used_primary_tiles_with_palettes u'
         = {[(tile_id, palette_index)]} ∪ used_primary_tiles_with_palettes u
     ∧ used_secondary_tiles u' = used_secondary_tiles u
     ∧ used_secondary_tiles_with_palettes u'
         = used_secondary_tiles_with_palettes u)
  ∧ (tileset_name_for_tile ≠ primary_tileset → tile_id <= 511 →
     used_primary_tiles u' = {[tile_id]} ∪ used_primary_tiles u
     ∧ used_primary_tiles_with_palettes u'
         = {[(tile_id, palette_index)]} ∪ used_primary_tiles_with_palettes u
     ∧ used_secondary_tiles u' = used_secondary_tiles u
     ∧ used_secondary_tiles_with_palettes u'
         = used_secondary_tiles_with_palettes u)
  ∧ (tileset_name_for_tile ≠ primary_tileset → 512 <= tile_id →
     used_secondary_tiles u' = {[tile_id - 512]} ∪ used_secondary_tiles u
     ∧ used_secondary_tiles_with_palettes u'
         = {[(tile_id - 512, palette_index)]}
           ∪ used_secondary_tiles_with_palettes u
     ∧ used_primary_tiles u' = used_primary_tiles u
     ∧ used_primary_tiles_with_palettes u'
         = used_primary_tiles_with_palettes u)
  ∧ used_secondary_tiles
      (add_used_tile_with_palette "General" 600 palette_index "Petalburg"
         no_used_tiles) = {[88]}.
Proof.
  intros Hrange u'. subst u'.
  unfold add_used_tile_with_palette, NUM_TILES_IN_PRIMARY_VRAM.
  split; [|split; [|split]].
  - intros ->. by rewrite decide_True.
  - intros Hne Hle. rewrite decide_False by done.
    destruct (tile_id <? 512) eqn:E; [done | lia].
  - intros Hne Hle. rewrite decide_False by done.
    destruct (tile_id <? 512) eqn:E; [lia | done].
  - by vm_compute.
Qed.

Lemma add_used_tile_routes_witness :
  0 <= 600 <= 1023
  ∧ used_secondary_tiles
      (add_used_tile_with_palette "General" 600 3 "Petalburg" no_used_tiles)
    = {[600 - 512]} ∪ used_secondary_tiles no_used_tiles.
Proof.
  assert (H : 0 <= 600 <= 1023) by lia.
  split; [exact H|].
  destruct (add_used_tile_routes "General" "Petalburg" 600 3 no_used_tiles H)
    as (_ & _ & Hsecondary & _).
  apply Hsecondary; [discriminate | lia].
Defined.

End TileRouting.

Section Validation.
Import Converter.

Lemma get_max_tile_id_nonneg (img : option (Z * Z)) (m : Z) :
  _get_max_tile_id img = Some m → 0 <= m.
Proof.
  unfold _get_max_tile_id. destruct img as [[w h]|]; [|done].
  destruct (_ >? 0) eqn:E; [|done]. intros [= <-]. lia.
Qed.

Lemma first_filter_elem (pmax : option Z) (P : gset Z) (tid : Z) :
  tid ∈ match pmax with
        | Some primary_max_tile =>
            filter (fun tid => 0 <= tid <= primary_max_tile) P
        | None => P
        end ↔ tid ∈ P ∧ within_bound pmax tid.
Proof.
  destruct pmax; cbn; [rewrite elem_of_filter|]; tauto.
Qed.

Lemma validate_used_tiles_elem (pmax : option Z) (smax : Z) (P S : gset Z) :
  let r := validate_used_tiles pmax (Some smax) P S in
  (∀ tid, tid ∈ r.1 ↔
     (tid ∈ P ∧ within_bound pmax tid) ∨ (tid ∈ S ∧ tid > smax ∧ tid < 512))
  ∧ (∀ tid, tid ∈ r.2 ↔
     tid ∈ S ∧ tid <= smax ∧ ((∃ t, t ∈ S ∧ t > smax) → 0 <= tid)).
Proof.
  unfold validate_used_tiles.
  set (P1 := match pmax with Some _ => _ | None => _ end).
  assert (HP1 : ∀ t, t ∈ P1 ↔ t ∈ P ∧ within_bound pmax t)
    by (intros; apply first_filter_elem).
  set (invalid := filter (λ tid, tid > smax) S).
  set (misrouted := filter (λ tid, tid < 512) invalid).
  assert (Hinv : ∀ t, t ∈ invalid ↔ t > smax ∧ t ∈ S)
    by (intros t; unfold invalid; by rewrite elem_of_filter).
  assert (Hmis : ∀ t, t ∈ misrouted ↔ t < 512 ∧ t > smax ∧ t ∈ S).
  { intros. unfold misrouted. by rewrite elem_of_filter, Hinv. }
  destruct (decide (invalid ≠ ∅)) as [Hne|He].
  - apply set_choose_L in Hne as [t0 Ht0]. apply Hinv in Ht0.
    destruct (decide (misrouted ≠ ∅)) as [Hm|Hm]; cbn [fst snd].
    + split; intros tid.
      * rewrite elem_of_union, HP1, Hmis. tauto.
      * rewrite !elem_of_filter, Hmis. intuition (eauto; lia).
    + assert (Hm' : misrouted = ∅) by (by destruct (decide (misrouted = ∅))).
      split; intros tid.
      * rewrite HP1. split; [tauto|].
        intros [?|(? & ? & ?)]; [done|].
        assert (tid ∈ misrouted) by (apply Hmis; done).
        rewrite Hm' in *. set_solver.
      * rewrite elem_of_filter. intuition (eauto; lia).
  - assert (He' : invalid = ∅) by (by destruct (decide (invalid = ∅))).
    assert (Hall : ∀ t, t ∈ S → t <= smax).
    { intros t Ht. destruct (decide (t <= smax)); [done|].
      assert (t ∈ invalid) by (apply Hinv; split; [lia|done]).
      rewrite He' in *. set_solver. }
    cbn [fst snd]. split; intros tid.
    + rewrite HP1. split; [tauto|].
      intros [?|(Ht & ? & ?)]; [done|]. apply Hall in Ht. lia.
    + split; [|tauto]. intros Ht. split; [done|].
      split; [by apply Hall|]. intros (t & Ht' & ?). apply Hall in Ht'. lia.
Qed.

(** C3 (fails on the code as stated): with a primary bank of 128 tiles and
    a secondary bank of 64 tiles, the secondary ID 200 is moved to the
    primary set by the first pass and removed from it by a second pass, so
    the step is not idempotent. *)
Lemma validate_used_tiles_second_pass_differs :
  let primary_max_tile := _get_max_tile_id (Some (128, 64)) in
  let secondary_max_tile := _get_max_tile_id (Some (128, 32)) in
  let r := validate_used_tiles primary_max_tile secondary_max_tile ∅ {[200]} in
  primary_max_tile = Some 127
  ∧ secondary_max_tile = Some 63
  ∧ r = ({[200]}, ∅)
  ∧ validate_used_tiles primary_max_tile secondary_max_tile r.1 r.2 = (∅, ∅)
  ∧ validate_used_tiles primary_max_tile secondary_max_tile r.1 r.2 ≠ r.
Proof.
  cbv zeta.
  assert (H1 : validate_used_tiles (_get_max_tile_id (Some (128, 64)))
                 (_get_max_tile_id (Some (128, 32))) ∅ {[200]}
               = ({[200]}, ∅)) by (by vm_compute).
  rewrite H1. cbn [fst snd].
  assert (H2 : validate_used_tiles (_get_max_tile_id (Some (128, 64)))
                 (_get_max_tile_id (Some (128, 32))) {[200]} ∅
               = (∅, ∅)) by (by vm_compute).
  rewrite H2. repeat split; done.
Qed.

(** C3, as the code has it: after the validation block, with the secondary
    maximum read from the bank image, every ID left in the secondary set is
    at most that maximum; an out-of-bound secondary ID below 512 is in the
    primary set and no longer in the secondary set; an out-of-bound ID of
    512 or more is gone from the secondary set and not added to the primary
    set; a second pass leaves the secondary set unchanged, and it leaves the
    primary set unchanged exactly when every moved ID is at most the primary
    maximum, which is the case when that maximum is unknown or at least
    511. *)
Theorem validate_used_tiles_spec
    (secondary_image : Z * Z) (primary_max_tile : option Z)
    (secondary_max_tile : Z) (P S : gset Z) :
  _get_max_tile_id (Some secondary_image) = Some secondary_max_tile →
  let r := validate_used_tiles primary_max_tile (Some secondary_max_tile) P S in
  let r' := validate_used_tiles primary_max_tile (Some secondary_max_tile)
              r.1 r.2 in
  (∀ tid, tid ∈ r.2 → tid <= secondary_max_tile)
  ∧ (∀ tid, tid ∈ S → tid > secondary_max_tile → tid < 512 →
       tid ∈ r.1 ∧ tid ∉ r.2)
  ∧ (∀ tid, tid ∈ S → tid > secondary_max_tile → 512 <= tid →
       (tid ∉ r.2) ∧ (tid ∈ r.1 → tid ∈ P))
  ∧ r'.2 = r.2
  ∧ (r' = r ↔
       ∀ pm tid, primary_max_tile = Some pm →
         tid ∈ S → tid > secondary_max_tile → tid < 512 → tid <= pm)
  ∧ ((∀ pm, primary_max_tile = Some pm → 511 <= pm) → r' = r).
Proof.
  intros Hmax r r'. apply get_max_tile_id_nonneg in Hmax.
  destruct (validate_used_tiles_elem primary_max_tile secondary_max_tile P S)
    as [Hr1 Hr2].
  destruct (validate_used_tiles_elem primary_max_tile secondary_max_tile
              r.1 r.2) as [Hr1' Hr2'].
  fold r in Hr1, Hr2. fold r' in Hr1', Hr2'.
  assert (Hsnd : r'.2 = r.2).
  { apply set_eq. intros tid. rewrite Hr2'. split; [tauto|].
    intros Ht. split; [done|]. apply Hr2 in Ht as Ht'.
    split; [tauto|]. intros (t & Ht2 & Hgt). apply Hr2 in Ht2. lia. }
  assert (Hfst : r'.1 = r.1 ↔
            ∀ pm tid, primary_max_tile = Some pm →
              tid ∈ S → tid > secondary_max_tile → tid < 512 → tid <= pm).
  { split.
    - intros Heq pm tid -> HS Hgt Hlt.
      assert (Hin : tid ∈ r'.1) by (rewrite Heq; apply Hr1; tauto).
      apply Hr1' in Hin as [[_ Hb]|[Hin _]]; [cbn in Hb; lia|].
      apply Hr2 in Hin. lia.
    - intros Hall. apply set_eq. intros tid. rewrite Hr1'. split.
      + intros [[? _]|[Hin ?]]; [done|]. apply Hr2 in Hin. lia.
      + intros Hin. left. split; [done|].
        apply Hr1 in Hin as [[_ ?]|(HS & Hgt & Hlt)]; [done|].
        destruct primary_max_tile as [pm|]; cbn; [|done].
        specialize (Hall pm tid eq_refl HS Hgt Hlt). lia. }
  assert (Hpair : r' = r ↔ r'.1 = r.1).
  { split; [by intros ->|]. intros H1.
    destruct r as [a b], r' as [a' b']. cbn in *. by subst. }
  repeat split.
  - intros tid Ht. apply Hr2 in Ht. tauto.
  - apply Hr1. tauto.
  - intros Ht. apply Hr2 in Ht. lia.
  - intros Ht. apply Hr2 in Ht. lia.
  - intros Ht. apply Hr1 in Ht as [[? _]|(_ & _ & ?)]; [done|lia].
  - done.
  - intros Heq. by apply Hfst, Hpair.
  - intros Hall. by apply Hpair, Hfst.
  - intros Hbig. apply Hpair, Hfst. intros pm tid Hpm _ _ Hlt.
    specialize (Hbig pm Hpm). lia.
Qed.

Lemma validate_used_tiles_spec_witness :
  _get_max_tile_id (Some (128, 32)) = Some 63
  ∧ (validate_used_tiles (Some 511) (Some 63) {[5]} {[7; 200; 700]}).2
      = (validate_used_tiles (Some 511) (Some 63)
           (validate_used_tiles (Some 511) (Some 63) {[5]} {[7; 200; 700]}).1
           (validate_used_tiles (Some 511) (Some 63) {[5]} {[7; 200; 700]}).2).2.
Proof.
  assert (H : _get_max_tile_id (Some (128, 32)) = Some 63) by reflexivity.
  split; [exact H|].
  destruct (validate_used_tiles_spec (128, 32) (Some 511) 63
              {[5]} {[7; 200; 700]} H) as (_ & _ & _ & Hsnd & _).
  symmetry. exact Hsnd.
Defined.

End Validation.

(** ** Binary decoding ([read_map_bin]) *)

Section Decoding.

Lemma list_pair_ind {A : Type} (P : list A → Prop) :
  P [] → (∀ x, P [x]) → (∀ x y l, P l → P (x :: y :: l)) → ∀ l, P l.
Proof.
  intros Hnil Hone Hstep.
  assert (H : ∀ l, P l ∧ ∀ x, P (x :: l)).
  { induction l as [|a l [IH1 IH2]]; [by split|].
    split; [apply IH2|]. intros x. by apply Hstep. }
  intros l. apply H.
Qed.

Lemma entries_of_short (data : list byte) :
  (length data <= 1)%nat → entries_of data = [].
Proof. destruct data as [|? [|? ?]]; cbn; [done..|lia]. Qed.

Lemma unpack_loop_entries (data : list byte) (m k : nat) (acc : list Z) :
  (length data <= 2 * (k + m))%nat →
  foldl (fun entries i =>
           if i + 1 <? len data
           then entries ++ [unpack_H (slice data i (i + 2))]
           else entries)
        acc ((fun k => 2 * Z.of_nat k) <$> seq k m)
  = acc ++ entries_of (drop (2 * k) data).
Proof.
  revert k acc. induction m as [|m IH]; intros k acc Hlen.
  - cbn. rewrite drop_ge by lia. cbn. by rewrite app_nil_r.
  - cbn [seq fmap list_fmap foldl].
    rewrite IH by lia. unfold len.
    destruct (2 * Z.of_nat k + 1 <? Z.of_nat (length data)) eqn:E.
    + apply Z.ltb_lt in E.
      destruct (drop (2 * k) data) as [|lo [|hi rest]] eqn:Hd.
      { apply (f_equal length) in Hd. rewrite length_drop in Hd. cbn in Hd. lia. }
      { apply (f_equal length) in Hd. rewrite length_drop in Hd. cbn in Hd. lia. }
      assert (Hd2 : drop (2 * S k) data = rest).
      { replace (2 * S k)%nat with (2 * k + 2)%nat by lia.
        rewrite <- drop_drop, Hd. done. }
      rewrite Hd2. unfold slice.
      replace (Z.to_nat (2 * Z.of_nat k + 2 - 2 * Z.of_nat k)) with 2%nat by lia.
      replace (Z.to_nat (2 * Z.of_nat k)) with (2 * k)%nat by lia.
      rewrite Hd. cbn [take entries_of]. by rewrite <- app_assoc.
    + apply Z.ltb_ge in E.
      rewrite (entries_of_short (drop (2 * k) data))
        by (rewrite length_drop; lia).
      rewrite (entries_of_short (drop (2 * S k) data))
        by (rewrite length_drop; lia).
      done.
Qed.

Lemma unpack_entries_rec (data : list byte) :
  unpack_entries data = entries_of data.
Proof.
  unfold unpack_entries, range_by_2.
  rewrite unpack_loop_entries.
  - by rewrite drop_0.
  - unfold len. 
    assert (Z.of_nat (length data) <= 2 * ((Z.of_nat (length data) + 1) `div` 2))
      by (pose proof (Z.div_mod (Z.of_nat (length data) + 1) 2);
          pose proof (Z.mod_pos_bound (Z.of_nat (length data) + 1) 2); lia).
    lia.
Qed.

Lemma entries_of_length (data : list byte) :
  len (entries_of data) = len data `div` 2.
Proof.
  unfold len. induction data as [| |x y l IH] using list_pair_ind.
  - done.
  - done.
  - cbn [entries_of length]. rewrite !Nat2Z.inj_succ, IH.
    replace (Z.succ (Z.succ (Z.of_nat (length l))))
      with (1 * 2 + Z.of_nat (length l)) by lia.
    rewrite Z.div_add_l by lia. lia.
Qed.

Lemma entries_of_trailing_byte (data : list byte) (b : byte) :
  Z.even (len data) = true → entries_of (data ++ [b]) = entries_of data.
Proof.
  unfold len. induction data as [| |x y l IH] using list_pair_ind.
  - done.
  - done.
  - cbn [length]. rewrite !Nat2Z.inj_succ, Z.even_succ_succ. intros He.
    cbn [app entries_of]. by rewrite IH.
Qed.

Lemma mapM_is_ok {A B : Type} (f : A → result B) (l : list A) :
  (∀ x, x ∈ l → is_ok (f x) = true) → is_ok (mapM f l) = true.
Proof.
  induction l as [|a l IH]; intros Hall; [done|].
  assert (Hl : is_ok (mapM f l) = true).
  { apply IH. intros x Hx. apply Hall. by right. }
  assert (Ha : is_ok (f a) = true) by (apply Hall; left).
  cbn. destruct (f a); [|done]. cbn. by destruct (mapM f l).
Qed.

Lemma elem_of_range (n x : Z) : x ∈ range n → 0 <= x < n.
Proof.
  unfold range. intros (k & -> & Hk)%list_elem_of_fmap.
  apply elem_of_seq in Hk. lia.
Qed.

Lemma getitem_in_range {A : Type} (l : list A) (i : Z) :
  0 <= i < len l → is_ok (getitem l i) = true.
Proof.
  unfold getitem, len. intros Hi.
  destruct (i <? 0) eqn:E; [lia|]. rewrite E.
  destruct (l !! Z.to_nat i) eqn:El; [done|].
  apply lookup_ge_None in El. lia.
Qed.

Section ReadMapBin.
Import Validators.

(** C7 (fails on the code as stated): a three-byte buffer read as a 1 x 1
    grid, that is [width * height * 2 + 1] bytes, decodes to the grid of its
    first record instead of raising. *)
Lemma read_map_bin_accepts_trailing_byte :
  MapReader.read_map_bin [x01; x00; xff] 1 1 = Ok [[1]]
  ∧ Metatile.read_map_bin [x01; x00; xff] 1 1 = Ok [[1]].
Proof. split; reflexivity. Qed.

(** C7, as the code has it: reading fails with [ValueError] whenever the
    number of complete two-byte records, [len(data) // 2], differs from
    [width * height]; when they are equal the read succeeds (for
    [MapReader.read_map_bin], with dimensions in 1..1000); a single trailing
    byte after the last complete record is ignored: the buffer of
    [width * height * 2 + 1] bytes reads as its first [width * height * 2]
    bytes do. *)
Theorem read_map_bin_record_count (data : list byte) (width height : Z) :
  (len data `div` 2 ≠ width * height →
     Metatile.read_map_bin data width height = Raise ValueError
     ∧ MapReader.read_map_bin data width height = Raise ValueError)
  ∧ (len data `div` 2 = width * height →
     is_ok (Metatile.read_map_bin data width height) = true
     ∧ (0 < width <= 1000 → 0 < height <= 1000 →
        is_ok (MapReader.read_map_bin data width height) = true))
  ∧ (∀ b : byte, len data = width * height * 2 →
     Metatile.read_map_bin (data ++ [b]) width height
       = Metatile.read_map_bin data width height
     ∧ MapReader.read_map_bin (data ++ [b]) width height
       = MapReader.read_map_bin data width height
     ∧ is_ok (Metatile.read_map_bin (data ++ [b]) width height) = true).
Proof.
  unfold Metatile.read_map_bin, MapReader.read_map_bin.
  split; [|split].
  - intros Hne. rewrite unpack_entries_rec, entries_of_length.
    rewrite decide_True by done. split; [done|].
    unfold validate_map_dimensions.
    repeat (match goal with |- context [if ?c then _ else _] =>
              destruct c; [done|] end).
    done.
  - intros Heq. rewrite unpack_entries_rec.
    pose proof (entries_of_length data) as Hlen.
    rewrite decide_False by lia. split; [done|].
    intros Hw Hh. unfold validate_map_dimensions.
    destruct (width <=? 0) eqn:E1; [lia|].
    destruct (height <=? 0) eqn:E2; [lia|].
    destruct (width >? 1000) eqn:E3; [lia|].
    destruct (height >? 1000) eqn:E4; [lia|].
    cbn. rewrite decide_False by lia.
    apply mapM_is_ok. intros y Hy%elem_of_range.
    apply mapM_is_ok. intros x Hx%elem_of_range.
    apply getitem_in_range. nia.
  - intros b Hlen.
    assert (Heven : Z.even (len data) = true).
    { rewrite Hlen, Z.mul_comm. apply Z.even_mul. }
    rewrite !unpack_entries_rec, entries_of_trailing_byte by done.
    repeat split.
    rewrite decide_False; [done|].
    rewrite entries_of_length, Hlen, Z.div_mul by lia. lia.
Qed.

Lemma read_map_bin_record_count_witness :
  len [x01; x00; x02; x00] `div` 2 ≠ 3 * 1
  ∧ Metatile.read_map_bin [x01; x00; x02; x00] 3 1 = Raise ValueError
  ∧ MapReader.read_map_bin [x01; x00; x02; x00] 3 1 = Raise ValueError.
Proof.
  assert (H : len [x01; x00; x02; x00] `div` 2 ≠ 3 * 1) by (by vm_compute).
  split; [exact H|].
  destruct (read_map_bin_record_count [x01; x00; x02; x00] 3 1) as (Hraise & _).
  exact (Hraise H).
Defined.

End ReadMapBin.
End Decoding.

(** ** GID allocation with deduplication *)

Section Allocator.
Import Converter.

(** C5: assigning a GID to an image whose bytes are already a key of
    [image_to_gid] returns the recorded GID and changes neither the
    dictionary nor the counter; for new bytes it returns [next_gid], records
    it under the bytes, increments the counter and the dictionary grows by
    one entry; assigning the same bytes a second time returns the same GID
    and changes nothing. *)
Theorem assign_gid_deduplicates
    (image_bytes : list byte) (image_to_gid : gmap (list byte) Z)
    (next_gid : Z) :
  (∀ gid, image_to_gid !! image_bytes = Some gid →
     assign_gid image_bytes image_to_gid next_gid
       = (gid, image_to_gid, next_gid))
  ∧ (image_to_gid !! image_bytes = None →
     assign_gid image_bytes image_to_gid next_gid
       = (next_gid, <[image_bytes := next_gid]> image_to_gid, next_gid + 1)
     ∧ (<[image_bytes := next_gid]> image_to_gid) !! image_bytes
         = Some next_gid
     ∧ size (<[image_bytes := next_gid]> image_to_gid)
         = S (size image_to_gid))
  ∧ (∀ gid image_to_gid' next_gid',
       assign_gid image_bytes image_to_gid next_gid
         = (gid, image_to_gid', next_gid') →
       assign_gid image_bytes image_to_gid' next_gid'
         = (gid, image_to_gid', next_gid')).
Proof.
  unfold assign_gid. split; [|split].
  - intros gid ->. done.
  - intros Hnone. rewrite Hnone. split; [done|].
    split; [apply lookup_insert_eq | by apply map_size_insert_None].
  - intros gid m' n'. destruct (image_to_gid !! image_bytes) as [g|] eqn:E.
    + intros [= <- <- <-]. by rewrite E.
    + intros [= <- <- <-]. by rewrite lookup_insert_eq.
Qed.
End Allocator.

Section AnimationProps.
Import Constants Converter.
Context {Image : Type}.
Context (paste : Image → Image → Z * Z → Image).
Context (flip_left_right flip_top_bottom : Image → Image).

Lemma bind_Ok {A B : Type} (a : A) (k : A → result B) : Ok a ≫= k = k a.
Proof. reflexivity. Qed.

Lemma getitem_mod_ok {A : Type} (l : list A) (i : Z) :
  l ≠ [] → is_ok (getitem l (i `mod` len l)) = true.
Proof.
  intros Hl. apply getitem_in_range. apply Z.mod_pos_bound.
  unfold len. destruct l; [done|]. cbn [length]. lia.
Qed.

Lemma actual_frame_default_ok (frames : list Image) (num_tiles frame_num : Z) :
  is_ok (if (num_tiles >? 0) && (len frames >? 0)
         then frames_per_cycle ← py_floordiv (len frames) num_tiles;
              if frames_per_cycle >? 0 then py_mod frame_num frames_per_cycle
              else Ok 0
         else Ok 0) = true.
Proof.
  destruct (_ && _) eqn:E; [|done].
  apply andb_prop in E as [E1%Z.gtb_lt E2%Z.gtb_lt].
  unfold py_floordiv. rewrite decide_False by lia. cbn.
  destruct (len frames `div` num_tiles >? 0) eqn:E3; [|done].
  apply Z.gtb_lt in E3.
  unfold py_mod. by rewrite decide_False by lia.
Qed.

Lemma actual_frame_ok (frame_seq : option (list Z)) (frames : list Image)
    (num_tiles frame_num : Z) :
  is_ok (actual_frame frame_seq frames num_tiles frame_num) = true.
Proof.
  unfold actual_frame. destruct frame_seq as [[|z s]|].
  - apply actual_frame_default_ok.
  - unfold py_mod.
    rewrite decide_False by (unfold len; cbn [length]; lia). cbn.
    by apply getitem_mod_ok.
  - apply actual_frame_default_ok.
Qed.

Lemma paste_animated_tile_ok (frame_num : Z) (composite : Image) (pos : Z)
    (t : strip_tile Image) :
  is_ok (paste_animated_tile paste flip_left_right flip_top_bottom
           frame_num composite pos t) = true.
Proof.
  unfold paste_animated_tile.
  pose proof (actual_frame_ok (st_frame_seq t) (st_frames t)
                (st_num_tiles t) frame_num) as Hf.
  destruct (actual_frame _ _ _ _) as [af|]; [|done]. cbn.
  destruct (_ && _) eqn:E; [|done].
  apply andb_prop in E as [E1%Z.leb_le E2%Z.ltb_lt].
  pose proof (getitem_in_range (st_frames t)
                (af * st_num_tiles t + (st_tile_id t - st_actual_base t))
                ltac:(lia)) as Hg.
  by destruct (getitem _ _).
Qed.

Lemma composite_half_ok (frame_num : Z) (tiles : list (Z * strip_tile Image))
    (composite : Image) :
  ∃ img, composite_half paste flip_left_right flip_top_bottom
           frame_num composite tiles = Ok img.
Proof.
  revert composite. induction tiles as [|[pos t] tiles IH]; intros composite.
  - by eexists.
  - cbn. pose proof (paste_animated_tile_ok frame_num composite pos t) as H.
    destruct (paste_animated_tile _ _ _ _ _ _ _) as [img|]; [|done].
    cbn. apply IH.
Qed.

Lemma add_frame_ok (cols : Z) (img : Image) (ts : tileset_state Image) :
  cols ≠ 0 →
  ∃ ts', add_frame cols img ts = Ok (next_gid ts - 1, ts')
         ∧ next_gid ts' = next_gid ts + 1
         ∧ length (tileset_pastes ts') = S (length (tileset_pastes ts)).
Proof.
  intros Hc. unfold add_frame, py_mod, py_floordiv.
  rewrite !decide_False by done. cbn. eexists. split; [done|].
  cbn. split; [done|]. rewrite length_app. cbn. lia.
Qed.

Lemma frames_added_step (k n : nat) (next tile : Z) (old new : gmap Z Z) :
  tile = next - 1 →
  frames_added (S k) n (next + 1) (<[Z.of_nat k := tile]> old) new →
  frames_added k (S n) next old new.
Proof.
  intros -> H z. rewrite H. repeat case_decide; try lia.
  - f_equal. lia.
  - assert (z = Z.of_nat k) as -> by lia. rewrite lookup_insert_eq.
    f_equal. lia.
  - rewrite lookup_insert_ne by lia. done.
Qed.

Lemma composite_bottom_frames_ok (cols : Z) (base_bottom base_top : Image)
    (c : strip_tiles Image) (n k : nat) (m : gmap Z Z)
    (ts : tileset_state Image) :
  cols ≠ 0 →
  ∃ m' ts',
    composite_bottom_frames paste flip_left_right flip_top_bottom cols
      base_bottom base_top c (Z.of_nat <$> seq k n) m ts = Ok (m', ts')
    ∧ next_gid ts' = next_gid ts + Z.of_nat n
    ∧ length (tileset_pastes ts') = (length (tileset_pastes ts) + n)%nat
    ∧ frames_added k n (next_gid ts) m m'.
Proof.
  intros Hc. revert k m ts. induction n as [|n IH]; intros k m ts.
  - exists m, ts. cbn. repeat split; [lia..|].
    intros z. by rewrite decide_False by lia.
  - cbn [seq fmap list_fmap composite_bottom_frames].
    destruct (composite_half_ok (Z.of_nat k) (all_bottom_tiles c) base_bottom)
      as [cb ->].
    rewrite bind_Ok.
    destruct (composite_half_ok (Z.of_nat k) (all_top_tiles c) base_top)
      as [ct ->].
    rewrite bind_Ok.
    destruct (add_frame_ok cols cb ts Hc) as (ts1 & -> & Hn1 & Hl1).
    rewrite bind_Ok.
    destruct (IH (S k) (<[Z.of_nat k := next_gid ts - 1]> m) ts1)
      as (m' & ts' & -> & Hn & Hl & Hm).
    exists m', ts'. repeat split; [lia..|].
    apply (frames_added_step _ _ _ (next_gid ts - 1)); [done|].
    by rewrite <- Hn1.
Qed.

Lemma composite_top_frames_ok (cols : Z) (base_top : Image)
    (c : strip_tiles Image) (n k : nat) (m : gmap Z Z)
    (ts : tileset_state Image) :
  cols ≠ 0 →
  ∃ m' ts',
    composite_top_frames paste flip_left_right flip_top_bottom cols
      base_top c (Z.of_nat <$> seq k n) m ts = Ok (m', ts')
    ∧ next_gid ts' = next_gid ts + Z.of_nat n
    ∧ length (tileset_pastes ts') = (length (tileset_pastes ts) + n)%nat
    ∧ frames_added k n (next_gid ts) m m'.
Proof.
  intros Hc. revert k m ts. induction n as [|n IH]; intros k m ts.
  - exists m, ts. cbn. repeat split; [lia..|].
    intros z. by rewrite decide_False by lia.
  - cbn [seq fmap list_fmap composite_top_frames].
    destruct (composite_half_ok (Z.of_nat k) (all_top_tiles c) base_top)
      as [ct ->].
    rewrite bind_Ok.
    destruct (add_frame_ok cols ct ts Hc) as (ts1 & -> & Hn1 & Hl1).
    rewrite bind_Ok.
    destruct (IH (S k) (<[Z.of_nat k := next_gid ts - 1]> m) ts1)
      as (m' & ts' & -> & Hn & Hl & Hm).
    exists m', ts'. repeat split; [lia..|].
    apply (frames_added_step _ _ _ (next_gid ts - 1)); [done|].
    by rewrite <- Hn1.
Qed.

Lemma add_metatile_frames_ok (cols : Z) (frames : list Image) (k : nat)
    (m : gmap Z Z) (ts : tileset_state Image) :
  cols ≠ 0 →
  ∃ m' ts',
    add_metatile_frames cols frames (Z.of_nat k) m ts = Ok (m', ts')
    ∧ next_gid ts' = next_gid ts + len frames
    ∧ length (tileset_pastes ts')
        = (length (tileset_pastes ts) + length frames)%nat
    ∧ frames_added k (length frames) (next_gid ts) m m'.
Proof.
  intros Hc. revert k m ts. induction frames as [|f frames IH]; intros k m ts.
  - exists m, ts. cbn. repeat split; [unfold len; cbn; lia | lia |].
    intros z. by rewrite decide_False by lia.
  - cbn [add_metatile_frames].
    destruct (add_frame_ok cols f ts Hc) as (ts1 & -> & Hn1 & Hl1).
    rewrite bind_Ok. replace (Z.of_nat k + 1) with (Z.of_nat (S k)) by lia.
    destruct (IH (S k) (<[Z.of_nat k := next_gid ts - 1]> m) ts1)
      as (m' & ts' & -> & Hn & Hl & Hm).
    exists m', ts'. repeat split.
    + unfold len in *. cbn [length]. lia.
    + cbn [length]. lia.
    + apply (frames_added_step _ _ _ (next_gid ts - 1)); [done|].
      by rewrite <- Hn1.
Qed.

Lemma frame_gids_added (next b : Z) (m : gmap Z Z) :
  frames_added 0 8 next ∅ m → b = next - 1 →
  frame_gids m 8 200 = (fun i => (b + i, 200)) <$> range 8.
Proof.
  intros H ->. unfold frame_gids.
  change (range 8) with [0; 1; 2; 3; 4; 5; 6; 7].
  cbn [omap list_omap fmap list_fmap].
  rewrite !H. cbn. repeat f_equal; lia.
Qed.

Lemma strip_timelines_ok (cols : Z) (base_bottom base_top : Image)
    (c : strip_tiles Image) (ts : tileset_state Image) :
  cols ≠ 0 →
  ∃ ts',
    strip_timelines paste flip_left_right flip_top_bottom cols
      base_bottom base_top c ts
    = Ok (strip_bottom_timeline (next_gid ts),
          if bool_decide (all_top_tiles c ≠ [])
          then strip_top_timeline (next_gid ts) else [],
          ts')
    ∧ next_gid ts'
      = next_gid ts + (if bool_decide (all_top_tiles c ≠ []) then 16 else 8)
    ∧ length (tileset_pastes ts')
      = (length (tileset_pastes ts)
         + if bool_decide (all_top_tiles c ≠ []) then 16 else 8)%nat.
Proof.
  intros Hc. unfold strip_timelines.
  change (range 8) with (Z.of_nat <$> seq 0 8).
  destruct (composite_bottom_frames_ok cols base_bottom base_top c 8 0 ∅ ts Hc)
    as (m1 & ts1 & -> & Hn1 & Hl1 & Hm1).
  rewrite bind_Ok. cbv iota beta.
  change (Z.of_nat <$> seq 0 8) with (range 8).
  rewrite (frame_gids_added (next_gid ts) (next_gid ts - 1) m1 Hm1 eq_refl).
  fold (strip_bottom_timeline (next_gid ts)).
  destruct (bool_decide (all_top_tiles c ≠ [])).
  - change (range 8) with (Z.of_nat <$> seq 0 8).
    destruct (composite_top_frames_ok cols base_top c 8 0 ∅ ts1 Hc)
      as (m2 & ts2 & -> & Hn2 & Hl2 & Hm2).
    rewrite bind_Ok. cbv iota beta.
    rewrite (frame_gids_added (next_gid ts1) (next_gid ts + 7) m2 Hm2)
      by lia.
    exists ts2. repeat split; lia.
  - rewrite bind_Ok. cbv iota beta. exists ts1. repeat split; lia.
Qed.

Lemma dict_set_not_nil {V : Type} (d : list (Z * V)) (k : Z) (v : V) :
  dict_set d k v ≠ [].
Proof. destruct d as [|[k' v'] d]; cbn; [done|]. by case_decide. Qed.

Lemma collect_strip_tiles_sources (metatile_tiles : list (Z * Z * Z))
    (l : list (anim_info Image)) (c c' : strip_tiles Image) :
  collect_strip_tiles metatile_tiles c l = Ok c' →
  (∀ gid, gid ∈ bottom_layer_gids c' →
     gid ∈ bottom_layer_gids c ∨ bottom_source metatile_tiles l gid)
  ∧ (∀ gid, gid ∈ top_layer_gids c' →
     gid ∈ top_layer_gids c ∨ top_source metatile_tiles l gid)
  ∧ (all_bottom_tiles c' ≠ [] →
     all_bottom_tiles c ≠ [] ∨ ∃ gid, bottom_source metatile_tiles l gid)
  ∧ (all_top_tiles c' ≠ [] →
     all_top_tiles c ≠ [] ∨ ∃ gid, top_source metatile_tiles l gid).
Proof.
  revert c. induction l as [|info l IH]; intros c.
  - intros [= ->]. repeat split; auto.
  - cbn [collect_strip_tiles].
    destruct (collect_strip_tile metatile_tiles c info) as [c1|] eqn:E1;
      [|done].
    rewrite bind_Ok. intros H. apply IH in H as (Hb & Ht & Hbn & Htn).
    assert (Hweak_b : ∀ gid, bottom_source metatile_tiles l gid →
                             bottom_source metatile_tiles (info :: l) gid).
    { intros gid (i & ? & ?). exists i. split; [by right|done]. }
    assert (Hweak_t : ∀ gid, top_source metatile_tiles l gid →
                             top_source metatile_tiles (info :: l) gid).
    { intros gid (i & ? & ?). exists i. split; [by right|done]. }
    unfold collect_strip_tile in E1.
    destruct (orig_tile_position info <? 4) eqn:Epos.
    + apply Z.ltb_lt in Epos.
      destruct (getitem metatile_tiles (orig_tile_position info))
        as [[[tile_id flip_flags] palette]|] eqn:Eg; [|done].
      rewrite bind_Ok in E1.
      destruct (decide (tile_id ∈ animated_tile_range info)) as [Hin|Hin].
      * assert (Hsrc : bottom_source metatile_tiles (info :: l)
                         (anim_layer_gid info)).
        { exists info. split; [by left|]. split; [done|]. split; [done|].
          by exists tile_id, flip_flags, palette. }
        injection E1 as <-. cbn in *. repeat split.
        -- intros gid Hg. apply Hb in Hg as [Hg|Hg]; [|auto].
           apply elem_of_union in Hg as [->%elem_of_singleton|Hg]; auto.
        -- intros gid Hg. apply Ht in Hg as [Hg|Hg]; auto.
        -- intros _. right. eauto.
        -- intros Hn. apply Htn in Hn as [Hn|[gid Hn]]; eauto.
      * injection E1 as <-. repeat split.
        -- intros gid Hg. apply Hb in Hg as [Hg|Hg]; auto.
        -- intros gid Hg. apply Ht in Hg as [Hg|Hg]; auto.
        -- intros Hn. apply Hbn in Hn as [Hn|[gid Hn]]; eauto.
        -- intros Hn. apply Htn in Hn as [Hn|[gid Hn]]; eauto.
    + apply Z.ltb_ge in Epos.
      destruct (getitem metatile_tiles (orig_tile_position info))
        as [[[tile_id flip_flags] palette]|] eqn:Eg; [|done].
      rewrite bind_Ok in E1.
      destruct (decide (tile_id ∈ animated_tile_range info)) as [Hin|Hin].
      * assert (Hsrc : top_source metatile_tiles (info :: l)
                         (anim_layer_gid info)).
        { exists info. split; [by left|]. split; [done|]. split; [done|].
          by exists tile_id, flip_flags, palette. }
        injection E1 as <-. cbn in *. repeat split.
        -- intros gid Hg. apply Hb in Hg as [Hg|Hg]; auto.
        -- intros gid Hg. apply Ht in Hg as [Hg|Hg]; [|auto].
           apply elem_of_union in Hg as [->%elem_of_singleton|Hg]; auto.
        -- intros Hn. apply Hbn in Hn as [Hn|[gid Hn]]; eauto.
        -- intros _. right. eauto.
      * injection E1 as <-. repeat split.
        -- intros gid Hg. apply Hb in Hg as [Hg|Hg]; auto.
        -- intros gid Hg. apply Ht in Hg as [Hg|Hg]; auto.
        -- intros Hn. apply Hbn in Hn as [Hn|[gid Hn]]; eauto.
        -- intros Hn. apply Htn in Hn as [Hn|[gid Hn]]; eauto.
Qed.

Lemma elem_of_attach_bottom (c : strip_tiles Image) (used_gids : gset Z)
    (tl : list (Z * Z)) (a : animation) :
  a ∈ attach_bottom c used_gids tl →
  a.2 = tl ∧ a.1 + 1 ∈ used_gids ∧ a.1 + 1 ∈ bottom_layer_gids c
  ∧ all_bottom_tiles c ≠ [].
Proof.
  unfold attach_bottom.
  destruct (bool_decide (tl ≠ [])); cbn [andb]; [|by intros ?%elem_of_nil].
  destruct (bool_decide (all_bottom_tiles c ≠ [])) eqn:E;
    [|by intros ?%elem_of_nil].
  apply bool_decide_eq_true in E.
  intros (gid & -> & Hg)%list_elem_of_fmap.
  apply list_elem_of_filter in Hg as [Hu Hg]. apply elem_of_elements in Hg.
  cbn. replace (gid - 1 + 1) with gid by lia. done.
Qed.

Lemma elem_of_attach_top (c : strip_tiles Image) (used_gids : gset Z)
    (tl : list (Z * Z)) (a : animation) :
  a ∈ attach_top c used_gids tl →
  a.2 = tl ∧ a.1 + 1 ∈ used_gids ∧ a.1 + 1 ∈ top_layer_gids c
  ∧ all_top_tiles c ≠ [].
Proof.
  unfold attach_top.
  destruct (bool_decide (tl ≠ [])); cbn [andb]; [|by intros ?%elem_of_nil].
  destruct (bool_decide (all_top_tiles c ≠ [])) eqn:E;
    [|by intros ?%elem_of_nil].
  apply bool_decide_eq_true in E.
  intros (gid & -> & Hg)%list_elem_of_fmap.
  apply list_elem_of_filter in Hg as [Hu Hg]. apply elem_of_elements in Hg.
  cbn. replace (gid - 1 + 1) with gid by lia. done.
Qed.

(** The tile-strip branch for one metatile: every animation it appends is
    the bottom timeline on the GID of an animated occurrence at 0..3 or the
    top timeline on the GID of an animated occurrence at 4..7. *)
Lemma build_strip_animations_spec (cols : Z) (used_gids : gset Z)
    (base_bottom base_top : Image) (metatile_tiles : list (Z * Z * Z))
    (l : list (anim_info Image)) (ts ts' : tileset_state Image)
    (anims : list animation) :
  cols ≠ 0 →
  build_strip_animations paste flip_left_right flip_top_bottom cols used_gids
    base_bottom base_top metatile_tiles l ts = Ok (anims, ts') →
  next_gid ts <= next_gid ts'
  ∧ ∀ a, a ∈ anims →
      a.1 + 1 ∈ used_gids
      ∧ ((a.2 = strip_bottom_timeline (next_gid ts)
          ∧ bottom_source metatile_tiles l (a.1 + 1))
         ∨ (a.2 = strip_top_timeline (next_gid ts)
            ∧ top_source metatile_tiles l (a.1 + 1)
            ∧ next_gid ts' = next_gid ts + 16)).
Proof.
  intros Hc. unfold build_strip_animations.
  destruct (collect_strip_tiles metatile_tiles no_strip_tiles l) as [c|] eqn:Ec;
    [|done].
  rewrite bind_Ok.
  apply collect_strip_tiles_sources in Ec as (Hb & Ht & _ & _).
  destruct (_ && _).
  { intros [= <- <-]. split; [lia|]. by intros a ?%elem_of_nil. }
  destruct (strip_timelines_ok cols base_bottom base_top c ts Hc)
    as (ts1 & -> & Hn & _).
  rewrite bind_Ok. cbv iota beta. intros [= <- <-].
  split; [destruct (bool_decide _); lia|].
  intros a [Ha|Ha]%elem_of_app.
  - apply elem_of_attach_bottom in Ha as (Htl & Hu & Hg & _).
    split; [done|]. left. split; [done|].
    apply Hb in Hg as [Hg|Hg]; [|done]. by apply not_elem_of_empty in Hg.
  - apply elem_of_attach_top in Ha as (Htl & Hu & Hg & Hne).
    rewrite bool_decide_eq_true_2 in Htl, Hn by done.
    split; [done|]. right. split; [done|]. split; [|done].
    apply Ht in Hg as [Hg|Hg]; [|done]. by apply not_elem_of_empty in Hg.
Qed.

Lemma elem_of_strip_bottom_timeline (n : Z) (e : Z * Z) :
  e ∈ strip_bottom_timeline n → n - 1 <= e.1 < n + 7 ∧ e.2 = 200.
Proof.
  unfold strip_bottom_timeline.
  intros (i & -> & Hi%elem_of_range)%list_elem_of_fmap. cbn. lia.
Qed.

Lemma elem_of_strip_top_timeline (n : Z) (e : Z * Z) :
  e ∈ strip_top_timeline n → n + 7 <= e.1 < n + 15 ∧ e.2 = 200.
Proof.
  unfold strip_top_timeline.
  intros (i & -> & Hi%elem_of_range)%list_elem_of_fmap. cbn. lia.
Qed.

Lemma strip_bottom_timeline_first (n : Z) :
  (n - 1, 200) ∈ strip_bottom_timeline n.
Proof.
  unfold strip_bottom_timeline. apply list_elem_of_fmap. exists 0.
  split; [f_equal; lia|]. change (range 8) with [0; 1; 2; 3; 4; 5; 6; 7].
  by left.
Qed.

Lemma strip_top_timeline_first (n : Z) :
  (n + 7, 200) ∈ strip_top_timeline n.
Proof.
  unfold strip_top_timeline. apply list_elem_of_fmap. exists 0.
  split; [f_equal; lia|]. change (range 8) with [0; 1; 2; 3; 4; 5; 6; 7].
  by left.
Qed.

Lemma strip_timelines_apart (n m : Z) :
  n <= m →
  (∀ e, e ∈ strip_bottom_timeline n → e ∉ strip_top_timeline m)
  ∧ strip_bottom_timeline n ≠ strip_top_timeline m
  ∧ strip_top_timeline m ≠ strip_bottom_timeline n.
Proof.
  intros Hnm.
  assert (H : ∀ e, e ∈ strip_bottom_timeline n → e ∉ strip_top_timeline m).
  { intros e H1%elem_of_strip_bottom_timeline H2%elem_of_strip_top_timeline.
    lia. }
  split; [done|].
  pose proof (strip_bottom_timeline_first n) as Hf.
  split; intros Heq; apply (H _ Hf); [by rewrite <- Heq | by rewrite Heq].
Qed.

Lemma strip_timelines_apart_later (n m : Z) :
  n + 16 <= m →
  (∀ e, e ∈ strip_top_timeline n → e ∉ strip_bottom_timeline m)
  ∧ strip_top_timeline n ≠ strip_bottom_timeline m.
Proof.
  intros Hnm.
  assert (H : ∀ e, e ∈ strip_top_timeline n → e ∉ strip_bottom_timeline m).
  { intros e H1%elem_of_strip_top_timeline H2%elem_of_strip_bottom_timeline.
    lia. }
  split; [done|].
  pose proof (strip_top_timeline_first n) as Hf.
  intros Heq. apply (H _ Hf). by rewrite <- Heq.
Qed.

Lemma deduplicate_animations_subseteq (l : list animation) (a : animation) :
  a ∈ deduplicate_animations l → a ∈ l.
Proof.
  unfold deduplicate_animations.
  assert (H : ∀ (acc : gset Z * list animation),
            a ∈ (foldl (fun '(seen_ids, deduplicated_animations) anim =>
                    let anim_id := anim.1 in
                    if decide (anim_id ∈ (seen_ids : gset Z))
                    then (seen_ids, deduplicated_animations)
                    else ({[anim_id]} ∪ seen_ids,
                          deduplicated_animations ++ [anim]))
                  acc l).2 → a ∈ acc.2 ∨ a ∈ l).
  { induction l as [|x l IH]; intros [seen acc]; cbn [foldl]; [auto|].
    intros H. apply IH in H as [H|H]; [|right; by right].
    cbv zeta in H. destruct (decide (x.1 ∈ seen)); cbn in H; [auto|].
    apply elem_of_app in H as [H|H]; [auto|].
    apply list_elem_of_singleton in H as ->. right. by left. }
  intros Ha. apply H in Ha as [Ha|Ha]; [|done]. by apply elem_of_nil in Ha.
Qed.

(** C4: in the tile-strip branch every animation appended for a metatile is
    either the bottom timeline, on the GID recorded for an animated
    occurrence at positions 0..3, or the top timeline, on the GID recorded
    for an animated occurrence at positions 4..7; a metatile animated only
    in its top half gets no bottom timeline and one animated only in its
    bottom half no top timeline; for two metatiles with the same base images
    processed one after the other, one animated only in the top half and the
    other only in the bottom half, the timelines differ and share no frame;
    the final pass by tile ID adds nothing to what was appended. *)
Theorem strip_timelines_target_their_half
    (cols : Z) (used_gids : gset Z) (base_bottom base_top : Image)
    (tiles_a tiles_b : list (Z * Z * Z)) (la lb : list (anim_info Image))
    (ts ts_a ts_b : tileset_state Image) (anims_a anims_b : list animation) :
  cols ≠ 0 →
  build_strip_animations paste flip_left_right flip_top_bottom cols used_gids
    base_bottom base_top tiles_a la ts = Ok (anims_a, ts_a) →
  build_strip_animations paste flip_left_right flip_top_bottom cols used_gids
    base_bottom base_top tiles_b lb ts_a = Ok (anims_b, ts_b) →
  let top_only tiles (l : list (anim_info Image)) :=
    ∀ info, info ∈ l → animated_at tiles info → 4 <= orig_tile_position info in
  let bottom_only tiles (l : list (anim_info Image)) :=
    ∀ info, info ∈ l → animated_at tiles info → orig_tile_position info < 4 in
  (∀ a, a ∈ anims_a →
     (a.2 = strip_bottom_timeline (next_gid ts)
      ∧ bottom_source tiles_a la (a.1 + 1))
     ∨ (a.2 = strip_top_timeline (next_gid ts)
        ∧ top_source tiles_a la (a.1 + 1)))
  ∧ (top_only tiles_a la →
     ∀ a, a ∈ anims_a →
       a.2 = strip_top_timeline (next_gid ts)
       ∧ a.2 ≠ strip_bottom_timeline (next_gid ts))
  ∧ (bottom_only tiles_a la →
     ∀ a, a ∈ anims_a →
       a.2 = strip_bottom_timeline (next_gid ts)
       ∧ a.2 ≠ strip_top_timeline (next_gid ts))
  ∧ (top_only tiles_a la → bottom_only tiles_b lb →
     ∀ a b, a ∈ anims_a → b ∈ anims_b →
       a.2 = strip_top_timeline (next_gid ts)
       ∧ b.2 = strip_bottom_timeline (next_gid ts_a)
       ∧ a.2 ≠ b.2 ∧ ∀ e, e ∈ a.2 → e ∉ b.2)
  ∧ (bottom_only tiles_a la → top_only tiles_b lb →
     ∀ a b, a ∈ anims_a → b ∈ anims_b →
       a.2 = strip_bottom_timeline (next_gid ts)
       ∧ b.2 = strip_top_timeline (next_gid ts_a)
       ∧ a.2 ≠ b.2 ∧ ∀ e, e ∈ a.2 → e ∉ b.2)
  ∧ (∀ x, x ∈ deduplicate_animations (anims_a ++ anims_b) →
       x ∈ anims_a ∨ x ∈ anims_b).
Proof.
  intros Hc Ha Hb top_only bottom_only.
  apply build_strip_animations_spec in Ha as [Hna Ha]; [|done].
  apply build_strip_animations_spec in Hb as [Hnb Hb]; [|done].
  assert (Htop : ∀ tiles l n (ts' : tileset_state Image)
                    (anims : list animation),
            (∀ a, a ∈ anims → a.1 + 1 ∈ used_gids
               ∧ ((a.2 = strip_bottom_timeline n ∧ bottom_source tiles l (a.1 + 1))
                  ∨ (a.2 = strip_top_timeline n ∧ top_source tiles l (a.1 + 1)
                     ∧ next_gid ts' = n + 16))) →
            top_only tiles l → ∀ a, a ∈ anims →
            a.2 = strip_top_timeline n ∧ next_gid ts' = n + 16).
  { intros tiles l n ts' anims H Honly a Hin.
    destruct (H a Hin) as [_ [[_ (i & Hi & _ & Hlt & Hanim)]|(? & _ & ?)]];
      [|done].
    specialize (Honly i Hi Hanim). lia. }
  assert (Hbot : ∀ tiles l n (ts' : tileset_state Image)
                    (anims : list animation),
            (∀ a, a ∈ anims → a.1 + 1 ∈ used_gids
               ∧ ((a.2 = strip_bottom_timeline n ∧ bottom_source tiles l (a.1 + 1))
                  ∨ (a.2 = strip_top_timeline n ∧ top_source tiles l (a.1 + 1)
                     ∧ next_gid ts' = n + 16))) →
            bottom_only tiles l → ∀ a, a ∈ anims →
            a.2 = strip_bottom_timeline n).
  { intros tiles l n ts' anims H Honly a Hin.
    destruct (H a Hin) as [_ [[? _]|(_ & (i & Hi & _ & Hge & Hanim) & _)]];
      [done|].
    specialize (Honly i Hi Hanim). lia. }
  split; [|split; [|split; [|split; [|split]]]].
  - intros a Hin. destruct (Ha a Hin) as [_ [?|(? & ? & _)]]; auto.
  - intros Honly a Hin.
    destruct (Htop _ _ _ _ _ Ha Honly a Hin) as [-> _].
    split; [done|]. by apply (strip_timelines_apart (next_gid ts) (next_gid ts)).
  - intros Honly a Hin. rewrite (Hbot _ _ _ _ _ Ha Honly a Hin).
    split; [done|]. by apply (strip_timelines_apart (next_gid ts) (next_gid ts)).
  - intros Hoa Hob a b Hina Hinb.
    destruct (Htop _ _ _ _ _ Ha Hoa a Hina) as [-> Hn].
    rewrite (Hbot _ _ _ _ _ Hb Hob b Hinb).
    destruct (strip_timelines_apart_later (next_gid ts) (next_gid ts_a))
      as [Hd Hne]; [lia|]. done.
  - intros Hoa Hob a b Hina Hinb.
    rewrite (Hbot _ _ _ _ _ Ha Hoa a Hina).
    destruct (Htop _ _ _ _ _ Hb Hob b Hinb) as [-> _].
    destruct (strip_timelines_apart (next_gid ts) (next_gid ts_a))
      as (Hd & Hne & _); [lia|]. done.
  - intros x Hx%deduplicate_animations_subseteq. by apply elem_of_app.
Qed.

(** C8: for a tile-strip animation the substitution of the animated tile
    raises for no step, position or tile; each of the 8 steps adds one frame
    and the timeline has the 8 entries, each of 200 ms; with no frame
    sequence and no complete frame ([num_tiles] or [len(frames)] not
    positive, or their quotient zero) the frame index is 0 for every
    step. *)
Theorem strip_animation_eight_steps
    (cols : Z) (base_bottom base_top : Image) (c : strip_tiles Image)
    (ts : tileset_state Image) :
  cols ≠ 0 →
  (∀ frame_num composite pos t,
     is_ok (paste_animated_tile paste flip_left_right flip_top_bottom
              frame_num composite pos t) = true)
  ∧ (∀ frame_seq (frames : list Image) num_tiles frame_num,
       is_ok (actual_frame frame_seq frames num_tiles frame_num) = true)
  ∧ (∀ (frames : list Image) frame_seq num_tiles frame_num,
       frame_seq = None ∨ frame_seq = Some [] →
       num_tiles <= 0 ∨ len frames <= 0 ∨ len frames `div` num_tiles = 0 →
       actual_frame frame_seq frames num_tiles frame_num = Ok 0)
  ∧ (∃ ts',
       strip_timelines paste flip_left_right flip_top_bottom cols
         base_bottom base_top c ts
       = Ok (strip_bottom_timeline (next_gid ts),
             if bool_decide (all_top_tiles c ≠ [])
             then strip_top_timeline (next_gid ts) else [],
             ts'))
  ∧ (∀ n, length (strip_bottom_timeline n) = 8%nat
          ∧ length (strip_top_timeline n) = 8%nat
          ∧ Forall (fun e => e.2 = 200)
              (strip_bottom_timeline n ++ strip_top_timeline n)).
Proof.
  intros Hc. split; [|split; [|split; [|split]]].
  - apply paste_animated_tile_ok.
  - intros. apply actual_frame_ok.
  - intros frames frame_seq num_tiles frame_num Hseq Hdeg.
    unfold actual_frame.
    assert (Hdefault :
      (if (num_tiles >? 0) && (len frames >? 0)
       then frames_per_cycle ← py_floordiv (len frames) num_tiles;
            if frames_per_cycle >? 0 then py_mod frame_num frames_per_cycle
            else Ok 0
       else Ok 0) = Ok 0).
    { destruct (num_tiles >? 0) eqn:E1; [|done].
      destruct (len frames >? 0) eqn:E2; [|done]. cbn [andb].
      apply Z.gtb_lt in E1, E2. unfold py_floordiv.
      rewrite decide_False by lia. rewrite bind_Ok.
      destruct (len frames `div` num_tiles >? 0) eqn:E3; [|done].
      apply Z.gtb_lt in E3. lia. }
    by destruct Hseq as [-> | ->].
  - destruct (strip_timelines_ok cols base_bottom base_top c ts Hc)
      as (ts' & H & _). eauto.
  - intros n. split; [done|]. split; [done|].
    apply Forall_forall. intros e [H|H]%elem_of_app.
    + by apply elem_of_strip_bottom_timeline in H as [_ ?].
    + by apply elem_of_strip_top_timeline in H as [_ ?].
Qed.

(** C6, as the code has it: every frame image produced for an animation,
    a metatile-style frame as well as a composited bottom or top frame, is
    added to the tileset on the next tile index, [next_gid - 1] and
    onwards, one paste per frame whatever the content, and the image
    dictionary of the allocator is not consulted: frame [i] of a
    metatile-style animation is on tile [next_gid - 1 + i], the 8 bottom
    frames on [next_gid - 1 ..  next_gid + 6] and the 8 top frames on
    [next_gid + 7 .. next_gid + 14]. *)
Theorem animation_frames_take_next_tiles
    (cols : Z) (frames : list Image) (base_bottom base_top : Image)
    (c : strip_tiles Image) (ts : tileset_state Image) :
  cols ≠ 0 →
  (∃ frame_gid_map ts',
     add_metatile_frames cols frames 0 ∅ ts = Ok (frame_gid_map, ts')
     ∧ (∀ i, 0 <= i < len frames →
          frame_gid_map !! i = Some (next_gid ts - 1 + i))
     ∧ (∀ i j, 0 <= i < len frames → 0 <= j < len frames → i ≠ j →
          frame_gid_map !! i ≠ frame_gid_map !! j)
     ∧ next_gid ts' = next_gid ts + len frames
     ∧ length (tileset_pastes ts')
         = (length (tileset_pastes ts) + length frames)%nat)
  ∧ (∃ ts',
       strip_timelines paste flip_left_right flip_top_bottom cols
         base_bottom base_top c ts
       = Ok (strip_bottom_timeline (next_gid ts),
             if bool_decide (all_top_tiles c ≠ [])
             then strip_top_timeline (next_gid ts) else [],
             ts')
       ∧ next_gid ts'
         = next_gid ts + (if bool_decide (all_top_tiles c ≠ []) then 16 else 8)
       ∧ length (tileset_pastes ts')
         = (length (tileset_pastes ts)
            + if bool_decide (all_top_tiles c ≠ []) then 16 else 8)%nat).
Proof.
  intros Hc. split.
  - destruct (add_metatile_frames_ok cols frames 0 ∅ ts Hc)
      as (m & ts' & Heq & Hn & Hl & Hm).
    exists m, ts'. split; [done|].
    assert (Hlook : ∀ i, 0 <= i < len frames →
              m !! i = Some (next_gid ts - 1 + i)).
    { intros i Hi. rewrite Hm. unfold len in Hi.
      rewrite decide_True by lia. f_equal. lia. }
    split; [done|]. split; [|done].
    intros i j Hi Hj Hne. rewrite !Hlook by done. intros [= ?]. lia.
  - apply strip_timelines_ok. done.
Qed.

End AnimationProps.

(** ** The animation properties on the example inputs *)

Section AnimationExamples.
Import Converter.

Lemma strip_timelines_target_their_half_witness :
  (16 : Z) ≠ 0
  ∧ build_strip_animations px_paste id id 16 {[1; 2]} [x00] [x00]
      tiles_a [info_a] (TilesetState [] 3) = Ok (anims_a, ts_a)
  ∧ build_strip_animations px_paste id id 16 {[1; 2]} [x00] [x00]
      tiles_b [info_b] ts_a = Ok (anims_b, ts_b)
  ∧ ∀ a b, a ∈ anims_a → b ∈ anims_b →
      a.2 = strip_top_timeline 3
      ∧ b.2 = strip_bottom_timeline 19
      ∧ a.2 ≠ b.2 ∧ ∀ e, e ∈ a.2 → e ∉ b.2.
Proof.
  assert (Hc : (16 : Z) ≠ 0) by done.
  assert (Ha : build_strip_animations px_paste id id 16 {[1; 2]} [x00] [x00]
                 tiles_a [info_a] (TilesetState [] 3) = Ok (anims_a, ts_a))
    by (vm_compute; reflexivity).
  assert (Hb : build_strip_animations px_paste id id 16 {[1; 2]} [x00] [x00]
                 tiles_b [info_b] ts_a = Ok (anims_b, ts_b))
    by (vm_compute; reflexivity).
  split; [exact Hc|]. split; [exact Ha|]. split; [exact Hb|].
  destruct (strip_timelines_target_their_half px_paste id id 16 {[1; 2]}
              [x00] [x00] tiles_a tiles_b [info_a] [info_b]
              (TilesetState [] 3) ts_a ts_b anims_a anims_b Hc Ha Hb)
    as (_ & _ & _ & Htwo & _).
  apply Htwo.
  - intros info ->%list_elem_of_singleton _. cbn. lia.
  - intros info ->%list_elem_of_singleton _. cbn. lia.
Defined.

Lemma strip_animation_eight_steps_witness :
  (16 : Z) ≠ 0
  ∧ ∃ ts',
      strip_timelines px_paste id id 16 [x00] [x00] water_tiles
        (TilesetState [] 3)
      = Ok (strip_bottom_timeline 3,
            if bool_decide (all_top_tiles water_tiles ≠ [])
            then strip_top_timeline 3 else [],
            ts').
Proof.
  assert (Hc : (16 : Z) ≠ 0) by done.
  split; [exact Hc|].
  destruct (strip_animation_eight_steps px_paste id id 16 [x00] [x00]
              water_tiles (TilesetState [] 3) Hc)
    as (_ & _ & _ & Hrun & _).
  exact Hrun.
Defined.

(** C6 (fails on the code as stated): two byte-identical frames of a
    metatile-style animation are put on the tiles 4 and 5, and the eight
    bottom frames of a metatile animated in its top half only, all equal to
    the base image, on eight tiles: no frame is looked up by content. *)
Lemma identical_frames_take_separate_tiles :
  build_metatile_animation 16 {[1]}
    (AnimInfo "flower" [[x07]; [x07]] 200 None 0 4 ∅ true 1 0)
    (TilesetState [] 5)
  = Ok ([(0, [(4, 200); (5, 200)])],
        TilesetState [(64, 0, [x07]); (80, 0, [x07])] 7)
  ∧ build_strip_animations px_paste id id 16 {[1; 2]} [x00] [x00]
      tiles_a [info_a] (TilesetState [] 3) = Ok (anims_a, ts_a)
  ∧ take 8 (tileset_pastes ts_a)
    = [(32, 0, [x00]); (48, 0, [x00]); (64, 0, [x00]); (80, 0, [x00]);
       (96, 0, [x00]); (112, 0, [x00]); (128, 0, [x00]); (144, 0, [x00])].
Proof. repeat split; vm_compute; reflexivity. Qed.

Lemma animation_frames_take_next_tiles_witness :
  (16 : Z) ≠ 0
  ∧ ∃ frame_gid_map ts',
      add_metatile_frames 16 [[x07]; [x07]] 0 ∅ (TilesetState [] 5)
        = Ok (frame_gid_map, ts')
      ∧ (∀ i, 0 <= i < len [[x07]; [x07]] →
           frame_gid_map !! i = Some (5 - 1 + i))
      ∧ (∀ i j, 0 <= i < len [[x07]; [x07]] → 0 <= j < len [[x07]; [x07]] →
           i ≠ j → frame_gid_map !! i ≠ frame_gid_map !! j)
      ∧ next_gid ts' = 5 + len [[x07]; [x07]]
      ∧ length (tileset_pastes ts') = (0 + length [[x07]; [x07]])%nat.
Proof.
  assert (Hc : (16 : Z) ≠ 0) by done.
  split; [exact Hc|].
  destruct (animation_frames_take_next_tiles px_paste id id 16
              [[x07]; [x07]] [x00] [x00] water_tiles (TilesetState [] 5) Hc)
    as [Hframes _].
  exact Hframes.
Defined.

End AnimationExamples.

(** * Further properties of the code *)

(** ** Bit fields of the 16-bit records *)

Section BitFields.
Import Constants Metatile MapReader.

Lemma byte_to_Z_range (b : byte) : 0 <= byte_to_Z b < 256.
Proof. unfold byte_to_Z. pose proof (Byte.to_N_bounded b). lia. Qed.

Lemma land_low_bits (e : Z) : Z.land e 0x3FF = e `mod` 1024.
Proof. change 0x3FF with (Z.ones 10). by rewrite Z.land_ones. Qed.

Lemma shiftr_land_bits (e n k : Z) :
  0 <= n → 0 <= k →
  Z.land (Z.shiftr e n) (Z.ones k) = (e `div` 2 ^ n) `mod` 2 ^ k.
Proof.
  intros Hn Hk. by rewrite Z.land_ones, Z.shiftr_div_pow2.
Qed.

Lemma land_shiftr_bits (e mask n k : Z) :
  0 <= n → 0 <= k → Z.shiftr mask n = Z.ones k →
  Z.shiftr (Z.land e mask) n = (e `div` 2 ^ n) `mod` 2 ^ k.
Proof.
  intros Hn Hk Hm. rewrite Z.shiftr_land, Hm. by apply shiftr_land_bits.
Qed.

Lemma entries_of_lookup (data : list byte) (k : nat) :
  entries_of data !! k
  = match data !! (2 * k)%nat, data !! (2 * k + 1)%nat with
    | Some lo, Some hi => Some (byte_to_Z lo + 256 * byte_to_Z hi)
    | _, _ => None
    end.
Proof.
  revert k. induction data as [| |x y l IH] using list_pair_ind; intros k.
  - done.
  - by destruct k as [|[|k]].
  - destruct k as [|k]; [done|].
    cbn [entries_of]. rewrite lookup_cons. rewrite IH.
    replace (2 * S k)%nat with (S (S (2 * k))) by lia.
    replace (S (S (2 * k)) + 1)%nat with (S (S (2 * k + 1))) by lia.
    done.
Qed.

Lemma entries_of_range (data : list byte) (k : nat) (e : Z) :
  entries_of data !! k = Some e → 0 <= e < 65536.
Proof.
  rewrite entries_of_lookup.
  destruct (data !! (2 * k)%nat) as [lo|]; [|done].
  destruct (data !! (2 * k + 1)%nat) as [hi|]; [|done].
  intros [= <-].
  pose proof (byte_to_Z_range lo). pose proof (byte_to_Z_range hi). lia.
Qed.

(** The reading loop of every binary reader, as a fold over the records. *)
Lemma decode_loop {B : Type} (g : B → Z → Z → B) (data : list byte)
    (m k : nat) (acc : B) :
  (length data <= 2 * (k + m))%nat →
  foldl (fun acc i =>
           if i + 1 <? len data
           then g acc i (unpack_H (slice data i (i + 2)))
           else acc)
        acc ((fun k => 2 * Z.of_nat k) <$> seq k m)
  = foldl (fun acc '(j, e) => g acc (2 * Z.of_nat j) e) acc
      (zip (seq k (length (entries_of (drop (2 * k) data))))
           (entries_of (drop (2 * k) data))).
Proof.
  revert k acc. induction m as [|m IH]; intros k acc Hlen.
  - cbn. by rewrite drop_ge by lia.
  - cbn [seq fmap list_fmap foldl].
    rewrite IH by lia. unfold len.
    destruct (2 * Z.of_nat k + 1 <? Z.of_nat (length data)) eqn:E.
    + apply Z.ltb_lt in E.
      destruct (drop (2 * k) data) as [|lo [|hi rest]] eqn:Hd.
      { apply (f_equal length) in Hd. rewrite length_drop in Hd. cbn in Hd. lia. }
      { apply (f_equal length) in Hd. rewrite length_drop in Hd. cbn in Hd. lia. }
      assert (Hd2 : drop (2 * S k) data = rest).
      { replace (2 * S k)%nat with (2 * k + 2)%nat by lia.
        rewrite <- drop_drop, Hd. done. }
      rewrite Hd2. unfold slice.
      replace (Z.to_nat (2 * Z.of_nat k + 2 - 2 * Z.of_nat k)) with 2%nat by lia.
      replace (Z.to_nat (2 * Z.of_nat k)) with (2 * k)%nat by lia.
      rewrite Hd. cbn [take entries_of length seq zip zip_with foldl]. done.
    + apply Z.ltb_ge in E.
      rewrite (entries_of_short (drop (2 * k) data))
        by (rewrite length_drop; lia).
      rewrite (entries_of_short (drop (2 * S k) data))
        by (rewrite length_drop; lia).
      done.
Qed.

Lemma decode_loop_all {B : Type} (g : B → Z → Z → B) (data : list byte)
    (acc : B) :
  foldl (fun acc i =>
           if i + 1 <? len data
           then g acc i (unpack_H (slice data i (i + 2)))
           else acc)
        acc (range_by_2 (len data))
  = foldl (fun acc '(j, e) => g acc (2 * Z.of_nat j) e) acc
      (zip (seq 0 (length (entries_of data))) (entries_of data)).
Proof.
  unfold range_by_2. rewrite decode_loop.
  - by rewrite drop_0.
  - unfold len.
    assert (Z.of_nat (length data) <= 2 * ((Z.of_nat (length data) + 1) `div` 2))
      by (pose proof (Z.div_mod (Z.of_nat (length data) + 1) 2);
          pose proof (Z.mod_pos_bound (Z.of_nat (length data) + 1) 2); lia).
    lia.
Qed.

Lemma foldl_append_records {A : Type} (f : Z → A) (es : list Z) (k : nat)
    (acc : list A) :
  foldl (fun acc '(j, e) => acc ++ [f e]) acc (zip (seq k (length es)) es)
  = acc ++ (f <$> es).
Proof.
  revert k acc. induction es as [|e es IH]; intros k acc.
  - cbn. by rewrite app_nil_r.
  - cbn. rewrite IH. by rewrite <- app_assoc.
Qed.

Lemma read_metatiles_records (data : list byte) :
  read_metatiles data = (fun e => Z.land e 0x3FF) <$> entries_of data.
Proof.
  unfold read_metatiles.
  rewrite (decode_loop_all (fun acc _ e => acc ++ [Z.land e 0x3FF])).
  apply (foldl_append_records (fun e => Z.land e 0x3FF)).
Qed.

Lemma read_metatiles_with_attributes_records (data : list byte) :
  read_metatiles_with_attributes data
  = (fun e => (Z.land e 0x3FF, Z.land (Z.shiftr e 10) 0x3,
               Z.land (Z.shiftr e 12) 0xF)) <$> entries_of data.
Proof.
  unfold read_metatiles_with_attributes.
  rewrite (decode_loop_all
             (fun acc _ e => acc ++ [(Z.land e 0x3FF, Z.land (Z.shiftr e 10) 0x3,
                                      Z.land (Z.shiftr e 12) 0xF)])).
  apply (foldl_append_records
           (fun e => (Z.land e 0x3FF, Z.land (Z.shiftr e 10) 0x3,
                      Z.land (Z.shiftr e 12) 0xF))).
Qed.

Lemma foldl_insert_records (f : Z → Z) (es : list Z) (k : nat)
    (acc : gmap Z Z) (z : Z) :
  foldl (fun acc '(j, e) => <[(2 * Z.of_nat j) `div` 2 := f e]> acc) acc
        (zip (seq k (length es)) es) !! z
  = match (if decide (Z.of_nat k <= z)
           then es !! Z.to_nat (z - Z.of_nat k) else None) with
    | Some e => Some (f e)
    | None => acc !! z
    end.
Proof.
  revert k acc. induction es as [|e es IH]; intros k acc.
  - cbn. by case_decide.
  - cbn [length seq zip zip_with foldl]. rewrite IH.
    replace ((2 * Z.of_nat k) `div` 2) with (Z.of_nat k)
      by (rewrite Z.mul_comm, Z.div_mul; lia).
    destruct (decide (Z.of_nat (S k) <= z)) as [H1|H1].
    + rewrite decide_True by lia.
      replace (Z.to_nat (z - Z.of_nat k)) with (S (Z.to_nat (z - Z.of_nat (S k))))
        by lia.
      rewrite lookup_cons.
      destruct (es !! _); [done|]. rewrite lookup_insert_ne by lia. done.
    + destruct (decide (Z.of_nat k <= z)) as [H2|H2].
      * assert (z = Z.of_nat k) as -> by lia.
        rewrite Z.sub_diag. cbn. by rewrite lookup_insert_eq.
      * by rewrite lookup_insert_ne by lia.
Qed.

Lemma read_metatile_attributes_lookup (data : list byte) (z : Z) :
  read_metatile_attributes data !! z
  = if decide (0 <= z)
    then (fun e => Z.land (Z.shiftr e 12) 0x0F) <$> entries_of data !! Z.to_nat z
    else None.
Proof.
  unfold read_metatile_attributes.
  rewrite (decode_loop_all
             (fun acc i e => <[i `div` 2 := Z.land (Z.shiftr e 12) 0x0F]> acc)).
  rewrite (foldl_insert_records (fun e => Z.land (Z.shiftr e 12) 0x0F)).
  change (Z.of_nat 0) with 0. rewrite Z.sub_0_r.
  case_decide; [|done]. by destruct (entries_of data !! Z.to_nat z).
Qed.

Lemma u16_split (e : Z) :
  0 <= e < 65536 →
  0 <= e `mod` 1024 <= 1023
  ∧ 0 <= (e `div` 1024) `mod` 4 <= 3
  ∧ 0 <= (e `div` 4096) `mod` 16 <= 15
  ∧ e = e `mod` 1024 + 1024 * ((e `div` 1024) `mod` 4)
        + 4096 * ((e `div` 4096) `mod` 16).
Proof.
  intros He.
  replace (e `div` 4096) with ((e `div` 1024) `div` 4)
    by (rewrite Z.div_div by lia; done).
  pose proof (Z.div_mod e 1024 ltac:(lia)) as H1.
  pose proof (Z.mod_pos_bound e 1024 ltac:(lia)) as H2.
  pose proof (Z.div_mod (e `div` 1024) 4 ltac:(lia)) as H3.
  pose proof (Z.mod_pos_bound (e `div` 1024) 4 ltac:(lia)) as H4.
  assert (H5 : 0 <= (e `div` 1024) `div` 4 < 16).
  { split; [apply Z.div_pos; [apply Z.div_pos|]; lia|].
    apply Z.div_lt_upper_bound; [lia|]. apply Z.div_lt_upper_bound; lia. }
  rewrite (Z.mod_small _ 16) by done.
  lia.
Qed.

Lemma unpack_entries_length (data : list byte) :
  len (unpack_entries data) = len data `div` 2.
Proof. rewrite unpack_entries_rec. apply entries_of_length. Qed.

(** X1: Every binary reader decodes the buffer as little-endian 16-bit
    records: there are [len(data) // 2] of them, record [k] is
    [data[2k] + 256 * data[2k+1]] and lies in 0..65535. *)
Theorem unpack_entries_little_endian (data : list byte) :
  len (unpack_entries data) = len data `div` 2
  ∧ ∀ (k : nat) (e : Z), unpack_entries data !! k = Some e →
      0 <= e < 65536
      ∧ ∃ lo hi, data !! (2 * k)%nat = Some lo
          ∧ data !! (2 * k + 1)%nat = Some hi
          ∧ e = byte_to_Z lo + 256 * byte_to_Z hi.
Proof.
  rewrite unpack_entries_rec. split; [apply entries_of_length|].
  intros k e He. split; [by apply entries_of_range in He|].
  rewrite entries_of_lookup in He.
  destruct (data !! (2 * k)%nat) as [lo|]; [|done].
  destruct (data !! (2 * k + 1)%nat) as [hi|]; [|done].
  injection He as <-. by exists lo, hi.
Qed.

(** X2: The three fields of a map grid record partition its 16 bits: the
    metatile ID is in 0..1023, the collision in 0..3, the elevation in
    0..15, and the record is [id + 1024 * collision + 4096 * elevation]. *)
Theorem map_entry_fields (data : list byte) (k : nat) (entry : Z) :
  unpack_entries data !! k = Some entry →
  0 <= extract_metatile_id entry <= 1023
  ∧ 0 <= extract_collision entry <= 3
  ∧ 0 <= extract_elevation entry <= 15
  ∧ entry = extract_metatile_id entry + 1024 * extract_collision entry
            + 4096 * extract_elevation entry.
Proof.
  rewrite unpack_entries_rec. intros He%entries_of_range.
  unfold extract_metatile_id, extract_collision, extract_elevation,
    METATILE_ID_MASK, COLLISION_MASK, ELEVATION_MASK.
  rewrite land_low_bits.
  rewrite (land_shiftr_bits entry 0x0C00 10 2) by done.
  rewrite (land_shiftr_bits entry 0xF000 12 4) by done.
  change (2 ^ 10) with 1024. change (2 ^ 2) with 4.
  change (2 ^ 12) with 4096. change (2 ^ 4) with 16.
  by apply u16_split.
Qed.

Lemma map_entry_fields_witness :
  unpack_entries [x01; x34] !! 0%nat = Some 0x3401
  ∧ 0x3401 = extract_metatile_id 0x3401 + 1024 * extract_collision 0x3401
             + 4096 * extract_elevation 0x3401.
Proof.
  assert (H : unpack_entries [x01; x34] !! 0%nat = Some 0x3401)
    by reflexivity.
  split; [exact H|].
  destruct (map_entry_fields [x01; x34] 0 0x3401 H) as (_ & _ & _ & Heq).
  exact Heq.
Defined.

(** X3: The two metatile readers decode the same records: entry [k] of
    [read_metatiles_with_attributes] is (tile, flip, palette) with the tile
    in 0..1023, the flip flags in 0..3 and the palette in 0..15, the record
    is [tile + 1024 * flip + 4096 * palette], and entry [k] of
    [read_metatiles] is that tile. *)
Theorem tile_reference_fields (data : list byte) (k : nat)
    (tile_id flip_flags palette_index : Z) :
  read_metatiles_with_attributes data !! k
    = Some (tile_id, flip_flags, palette_index) →
  0 <= tile_id <= 1023 ∧ 0 <= flip_flags <= 3 ∧ 0 <= palette_index <= 15
  ∧ unpack_entries data !! k
      = Some (tile_id + 1024 * flip_flags + 4096 * palette_index)
  ∧ read_metatiles data !! k = Some tile_id
  ∧ length (read_metatiles data) = length (read_metatiles_with_attributes data).
Proof.
  rewrite read_metatiles_with_attributes_records, read_metatiles_records,
    unpack_entries_rec, !list_lookup_fmap, !length_fmap.
  destruct (entries_of data !! k) as [e|] eqn:He; [|done].
  cbn. intros [= <- <- <-]. apply entries_of_range in He.
  rewrite land_low_bits.
  change 0x3 with (Z.ones 2). change 0xF with (Z.ones 4).
  rewrite !shiftr_land_bits by done.
  change (2 ^ 10) with 1024. change (2 ^ 2) with 4.
  change (2 ^ 12) with 4096. change (2 ^ 4) with 16.
  destruct (u16_split e He) as (? & ? & ? & Heq).
  split; [done|]. split; [done|]. split; [done|].
  split; [by rewrite <- Heq|done].
Qed.

Lemma tile_reference_fields_witness :
  read_metatiles_with_attributes [x58; x76] !! 0%nat = Some (600, 1, 7)
  ∧ read_metatiles [x58; x76] !! 0%nat = Some 600.
Proof.
  assert (H : read_metatiles_with_attributes [x58; x76] !! 0%nat
              = Some (600, 1, 7)) by reflexivity.
  split; [exact H|].
  destruct (tile_reference_fields [x58; x76] 0 600 1 7 H)
    as (_ & _ & _ & _ & Ht & _).
  exact Ht.
Defined.

(** X4: [read_metatile_attributes] gives metatile [k] the four bits 12..15 of
    record [k], for exactly the metatiles that have a record; for every
    other ID the lookup [attributes.get(id, 0)] of the converters yields
    0, the NORMAL layer type. *)
Theorem read_metatile_attributes_layer_types (data : list byte) :
  (∀ id layer_type, read_metatile_attributes data !! id = Some layer_type →
     0 <= id < len data `div` 2 ∧ 0 <= layer_type <= 15
     ∧ ∃ attr, unpack_entries data !! Z.to_nat id = Some attr
         ∧ layer_type = (attr `div` 4096) `mod` 16)
  ∧ (∀ id, 0 <= id < len data `div` 2 →
       is_Some (read_metatile_attributes data !! id))
  ∧ (∀ id, ¬ 0 <= id < len data `div` 2 →
       default 0 (read_metatile_attributes data !! id) = NORMAL).
Proof.
  assert (Hlen : ∀ id, 0 <= id →
            (is_Some (entries_of data !! Z.to_nat id)
             ↔ id < len data `div` 2)).
  { intros id Hid. rewrite lookup_lt_is_Some.
    pose proof (entries_of_length data) as H. unfold len in *. lia. }
  split; [|split].
  - intros id lt. rewrite read_metatile_attributes_lookup, unpack_entries_rec.
    case_decide as Hid; [|done].
    destruct (entries_of data !! Z.to_nat id) as [e|] eqn:He; [|done].
    cbn. intros [= <-].
    assert (id < len data `div` 2) by (apply Hlen; [done|by rewrite He]).
    change 0x0F with (Z.ones 4). rewrite shiftr_land_bits by done.
    change (2 ^ 12) with 4096. change (2 ^ 4) with 16.
    change (Z.ones 4) with 15.
    pose proof (Z.mod_pos_bound (e `div` 4096) 16 ltac:(lia)).
    split; [lia|]. split; [lia|]. by exists e.
  - intros id [Hid Hlt]. rewrite read_metatile_attributes_lookup.
    rewrite decide_True by done.
    apply Hlen in Hlt as [e ->]; [|done]. by eexists.
  - intros id Hid. rewrite read_metatile_attributes_lookup.
    case_decide as H0; [|done].
    destruct (entries_of data !! Z.to_nat id) as [e|] eqn:He; [|done].
    exfalso. apply Hid. split; [done|]. apply Hlen; [done|by rewrite He].
Qed.

End BitFields.

(** ** The map grid and the metatile tables *)

Section Grids.
Import Constants Metatile Validators.

Lemma mapM_Ok {A B : Type} (f : A → result B) (g : A → B) (l : list A) :
  (∀ x, x ∈ l → f x = Ok (g x)) → mapM f l = Ok (g <$> l).
Proof.
  induction l as [|a l IH]; intros Hall; [done|].
  cbn. rewrite (Hall a) by left. rewrite bind_Ok.
  rewrite IH by (intros x Hx; apply Hall; by right). done.
Qed.

Lemma getitem_Ok {A : Type} (l : list A) (i : Z) (x : A) :
  0 <= i → l !! Z.to_nat i = Some x → getitem l i = Ok x.
Proof.
  intros Hi Hl. unfold getitem.
  destruct (i <? 0) eqn:E; [lia|]. rewrite E. by rewrite Hl.
Qed.

Lemma range_lookup (n : Z) (i : nat) :
  range n !! i = if decide (Z.of_nat i < n) then Some (Z.of_nat i) else None.
Proof.
  unfold range. rewrite list_lookup_fmap.
  case_decide.
  - rewrite lookup_seq_lt by lia. done.
  - rewrite lookup_seq_ge by lia. done.
Qed.

Lemma slice_lookup {A : Type} (l : list A) (a b : Z) (i : nat) :
  0 <= a →
  slice l a b !! i
  = if decide (Z.of_nat i < b - a) then l !! (Z.to_nat a + i)%nat else None.
Proof.
  intros Ha. unfold slice. case_decide.
  - rewrite lookup_take_lt by lia. by rewrite lookup_drop.
  - by rewrite lookup_take_ge by lia.
Qed.

Lemma grid_row (entries : list Z) (y width : Z) :
  0 <= y → 0 <= width → (y + 1) * width <= len entries →
  (fun x => default 0 (entries !! Z.to_nat (y * width + x))) <$> range width
  = slice entries (y * width) ((y + 1) * width).
Proof.
  intros Hy Hw Hlen. apply list_eq. intros i.
  rewrite list_lookup_fmap, range_lookup, slice_lookup by nia.
  replace ((y + 1) * width - y * width) with width by lia.
  case_decide; [|done]. cbn.
  replace (Z.to_nat (y * width) + i)%nat
    with (Z.to_nat (y * width + Z.of_nat i)) by nia.
  destruct (entries !! _) eqn:E; [done|].
  apply lookup_ge_None in E. unfold len in Hlen. nia.
Qed.

(** X5: A successful [MapReader.read_map_bin] returns the grid in row-major
    order: the dimensions are in 1..1000, the buffer holds exactly
    [width * height] records, there are [height] rows of [width] cells, cell
    [(x, y)] is record [y * width + x], and [metatile.read_map_bin] returns
    the same grid. *)
Theorem read_map_bin_row_major (data : list byte) (width height : Z)
    (grid : list (list Z)) :
  MapReader.read_map_bin data width height = Ok grid →
  0 < width <= 1000 ∧ 0 < height <= 1000
  ∧ len data `div` 2 = width * height
  ∧ len grid = height
  ∧ (∀ x y : nat, Z.of_nat x < width → Z.of_nat y < height →
       ∃ row, grid !! y = Some row ∧ len row = width
         ∧ row !! x = unpack_entries data !! Z.to_nat (Z.of_nat y * width + Z.of_nat x)
         ∧ is_Some (row !! x))
  ∧ Metatile.read_map_bin data width height = Ok grid.
Proof.
  unfold MapReader.read_map_bin, Metatile.read_map_bin, validate_map_dimensions.
  destruct (width <=? 0) eqn:E1; [done|].
  destruct (height <=? 0) eqn:E2; [done|].
  destruct (width >? 1000) eqn:E3; [done|].
  destruct (height >? 1000) eqn:E4; [done|].
  rewrite bind_Ok.
  pose proof (unpack_entries_length data) as Hlen.
  set (entries := unpack_entries data) in *.
  case_decide as Hne; [done|].
  assert (Hcount : len entries = width * height)
    by (destruct (decide (len entries = width * height)); [done|by destruct Hne]).
  rewrite (mapM_Ok _ (fun y => slice entries (y * width) ((y + 1) * width))).
  2:{ intros y Hy%elem_of_range.
      rewrite (mapM_Ok _ (fun x => default 0 (entries !! Z.to_nat (y * width + x)))).
      - f_equal. apply grid_row; nia.
      - intros x Hx%elem_of_range.
        destruct (entries !! Z.to_nat (y * width + x)) as [e|] eqn:E.
        + apply getitem_Ok; [nia|done].
        + apply lookup_ge_None in E. unfold len in Hcount. nia. }
  intros [= <-].
  split; [lia|]. split; [lia|]. split; [lia|].
  split.
  { unfold len, range. rewrite !length_fmap, length_seq. lia. }
  split; [|done].
  intros x y Hx Hy.
  exists (slice entries (Z.of_nat y * width) ((Z.of_nat y + 1) * width)).
  split.
  { rewrite list_lookup_fmap, range_lookup. by rewrite decide_True by lia. }
  assert (Hrow : ∀ i : nat, Z.of_nat i < width →
            slice entries (Z.of_nat y * width) ((Z.of_nat y + 1) * width) !! i
            = entries !! Z.to_nat (Z.of_nat y * width + Z.of_nat i)).
  { intros i Hi. rewrite slice_lookup by nia.
    rewrite decide_True by lia. f_equal. nia. }
  split.
  { unfold len, slice. rewrite length_take, length_drop.
    unfold len in Hcount. nia. }
  split; [by apply Hrow|].
  rewrite Hrow by done. apply lookup_lt_is_Some. unfold len in Hcount. nia.
Qed.

Lemma read_map_bin_row_major_witness :
  MapReader.read_map_bin [x01; x00; x02; x00] 2 1 = Ok [[1; 2]]
  ∧ Metatile.read_map_bin [x01; x00; x02; x00] 2 1 = Ok [[1; 2]].
Proof.
  assert (H : MapReader.read_map_bin [x01; x00; x02; x00] 2 1 = Ok [[1; 2]])
    by reflexivity.
  split; [exact H|].
  destruct (read_map_bin_row_major [x01; x00; x02; x00] 2 1 [[1; 2]] H)
    as (_ & _ & _ & _ & _ & Hm).
  exact Hm.
Defined.

(** X6: [metatile.read_map_bin] does not check the dimensions: with a height
    that is not positive and a matching product (two negative dimensions,
    or an empty buffer) it returns the empty grid and the records are
    lost, where [MapReader.read_map_bin] raises [ValueError]. *)
Theorem read_map_bin_unchecked_dimensions (data : list byte)
    (width height : Z) :
  height <= 0 →
  len data `div` 2 = width * height →
  Metatile.read_map_bin data width height = Ok []
  ∧ MapReader.read_map_bin data width height = Raise ValueError.
Proof.
  intros Hh Hcount.
  unfold MapReader.read_map_bin, Metatile.read_map_bin, validate_map_dimensions.
  pose proof (unpack_entries_length data) as Hlen.
  split.
  - rewrite decide_False by lia. unfold range.
    replace (Z.to_nat height) with 0%nat by lia. done.
  - destruct (width <=? 0); [done|].
    destruct (height <=? 0) eqn:E; [done|]. lia.
Qed.

Lemma read_map_bin_unchecked_dimensions_witness :
  -2 <= 0
  ∧ len [x01; x00; x02; x00] `div` 2 = -1 * -2
  ∧ Metatile.read_map_bin [x01; x00; x02; x00] (-1) (-2) = Ok []
  ∧ MapReader.read_map_bin [x01; x00; x02; x00] (-1) (-2) = Raise ValueError.
Proof.
  assert (H1 : -2 <= 0) by lia.
  assert (H2 : len [x01; x00; x02; x00] `div` 2 = -1 * -2) by reflexivity.
  split; [exact H1|]. split; [exact H2|].
  exact (read_map_bin_unchecked_dimensions [x01; x00; x02; x00] (-1) (-2) H1 H2).
Defined.

End Grids.

(** ** Metatile unpacking and conversion to tile layers *)

Section MetatileLayers.
Import Constants Metatile.

Lemma unpack_metatile_data_slice {A : Type} (metatile_id : Z) (data : list A)
    (i : nat) :
  0 <= metatile_id →
  slice data (metatile_id * 8) (metatile_id * 8 + 8) !! i
  = if decide (i < 8)%nat then data !! (Z.to_nat (metatile_id * 8) + i)%nat
    else None.
Proof.
  intros Hid. rewrite slice_lookup by lia.
  replace (metatile_id * 8 + 8 - metatile_id * 8) with 8 by lia.
  repeat case_decide; try lia; done.
Qed.

(** X7: For a metatile that the table holds in full, both unpacking functions
    return its eight entries, entry [i] being entry [8 * metatile_id + i]
    of the table; in every case they return at most eight entries. *)
Theorem unpack_metatile_in_range (metatile_id : Z) (metatile_data : list Z)
    (metatile_data_with_attrs : list (Z * Z * Z)) :
  (length (unpack_metatile_data metatile_id metatile_data) <= 8)%nat
  ∧ (length (unpack_metatile_data_with_attrs metatile_id
               metatile_data_with_attrs) <= 8)%nat
  ∧ (0 <= metatile_id → metatile_id * 8 + 8 <= len metatile_data →
     length (unpack_metatile_data metatile_id metatile_data) = 8%nat
     ∧ ∀ i, (i < 8)%nat →
         unpack_metatile_data metatile_id metatile_data !! i
         = metatile_data !! (Z.to_nat metatile_id * 8 + i)%nat)
  ∧ (0 <= metatile_id →
     metatile_id * 8 + 8 <= len metatile_data_with_attrs →
     length (unpack_metatile_data_with_attrs metatile_id
               metatile_data_with_attrs) = 8%nat
     ∧ ∀ i, (i < 8)%nat →
         unpack_metatile_data_with_attrs metatile_id metatile_data_with_attrs
           !! i
         = metatile_data_with_attrs !! (Z.to_nat metatile_id * 8 + i)%nat).
Proof.
  unfold unpack_metatile_data, unpack_metatile_data_with_attrs,
    NUM_TILES_PER_METATILE, len.
  split; [|split; [|split]].
  - destruct (_ || _); [done|]. unfold slice. rewrite length_take. lia.
  - destruct (_ || _); [done|]. unfold slice. rewrite length_take. lia.
  - intros Hid Hlen.
    destruct (metatile_id <? 0) eqn:E1; [lia|].
    destruct (metatile_id * 8 >=? Z.of_nat (length metatile_data)) eqn:E2;
      [lia|]. cbn [orb].
    split.
    + unfold slice. rewrite length_take, length_drop. lia.
    + intros i Hi. rewrite unpack_metatile_data_slice by lia.
      rewrite decide_True by done. f_equal. lia.
  - intros Hid Hlen.
    destruct (metatile_id <? 0) eqn:E1; [lia|].
    destruct (metatile_id * 8 >=? Z.of_nat (length metatile_data_with_attrs))
      eqn:E2; [lia|]. cbn [orb].
    split.
    + unfold slice. rewrite length_take, length_drop. lia.
    + intros i Hi. rewrite unpack_metatile_data_slice by lia.
      rewrite decide_True by done. f_equal. lia.
Qed.

Lemma unpack_metatile_in_range_witness :
  unpack_metatile_data 1 [10; 11; 12; 13; 14; 15; 16; 17;
                          20; 21; 22; 23; 24; 25; 26; 27] !! 2%nat
  = Some 22.
Proof.
  destruct (unpack_metatile_in_range 1
              [10; 11; 12; 13; 14; 15; 16; 17; 20; 21; 22; 23; 24; 25; 26; 27]
              []) as (_ & _ & Hfull & _).
  destruct Hfull as [_ Hlook]; [lia|vm_compute; discriminate|].
  rewrite (Hlook 2%nat) by lia. reflexivity.
Defined.

Lemma length_unpack_truncated (metatile_id : Z) (data : list Z) :
  0 <= metatile_id * 8 < len data → len data < metatile_id * 8 + 8 →
  (0 < length (unpack_metatile_data metatile_id data) < 8)%nat.
Proof.
  intros H1 H2. unfold unpack_metatile_data, NUM_TILES_PER_METATILE, len in *.
  destruct (metatile_id <? 0) eqn:E1; [lia|].
  destruct (metatile_id * 8 >=? Z.of_nat (length data)) eqn:E2; [lia|].
  cbn [orb]. unfold slice. rewrite length_take, length_drop. lia.
Qed.

Lemma length_unpack_complete (metatile_id : Z) (data : list Z) :
  ¬ (0 <= metatile_id * 8 < len data ∧ len data < metatile_id * 8 + 8) →
  length (unpack_metatile_data metatile_id data) = 8%nat.
Proof.
  intros H. unfold unpack_metatile_data, NUM_TILES_PER_METATILE, len in *.
  destruct (metatile_id <? 0) eqn:E1; [done|].
  destruct (metatile_id * 8 >=? Z.of_nat (length data)) eqn:E2; [done|].
  cbn [orb]. unfold slice. rewrite length_take, length_drop. lia.
Qed.

Lemma convert_metatile_to_tile_layers_truncated
    (metatile_id : Z) (metatile_data : list Z) (layer_type x y map_width : Z) :
  0 <= metatile_id * 8 < len metatile_data →
  len metatile_data < metatile_id * 8 + 8 →
  convert_metatile_to_tile_layers metatile_id metatile_data layer_type
    x y map_width = Raise IndexError.
Proof.
  intros H1 H2.
  pose proof (length_unpack_truncated metatile_id metatile_data H1 H2) as Hl.
  unfold convert_metatile_to_tile_layers, split_metatile_to_layers.
  destruct (unpack_metatile_data metatile_id metatile_data)
    as [|a [|b [|c [|d [|e [|f [|g [|h l]]]]]]]]; cbn in Hl; try lia;
    repeat case_decide; reflexivity.
Qed.

(** X8: [convert_metatile_to_tile_layers] raises [IndexError] exactly when the
    table ends inside the metatile (its length is not a multiple of 8 and
    the metatile is the last, partial one); for every other metatile ID,
    in or out of range, and every layer type it returns the three
    dictionaries. *)
Theorem convert_metatile_to_tile_layers_partial_metatile
    (metatile_id : Z) (metatile_data : list Z) (layer_type x y map_width : Z) :
  (0 <= metatile_id * 8 < len metatile_data
   ∧ len metatile_data < metatile_id * 8 + 8 →
   convert_metatile_to_tile_layers metatile_id metatile_data layer_type
     x y map_width = Raise IndexError)
  ∧ (¬ (0 <= metatile_id * 8 < len metatile_data
        ∧ len metatile_data < metatile_id * 8 + 8) →
     is_ok (convert_metatile_to_tile_layers metatile_id metatile_data
              layer_type x y map_width) = true).
Proof.
  split.
  - intros [H1 H2]. by apply convert_metatile_to_tile_layers_truncated.
  - intros H.
    pose proof (length_unpack_complete metatile_id metatile_data H) as Hl.
    unfold convert_metatile_to_tile_layers, split_metatile_to_layers.
    destruct (unpack_metatile_data metatile_id metatile_data)
      as [|a [|b [|c [|d [|e [|f [|g [|h [|? ?]]]]]]]]]; cbn in Hl; try lia;
      repeat case_decide; reflexivity.
Qed.

Lemma convert_metatile_to_tile_layers_partial_metatile_witness :
  (0 <= 1 * 8 < len [1; 2; 3; 4; 5; 6; 7; 8; 9; 10; 11; 12]
   ∧ len [1; 2; 3; 4; 5; 6; 7; 8; 9; 10; 11; 12] < 1 * 8 + 8)
  ∧ convert_metatile_to_tile_layers 1 [1; 2; 3; 4; 5; 6; 7; 8; 9; 10; 11; 12]
      NORMAL 0 0 1 = Raise IndexError.
Proof.
  assert (H : 0 <= 1 * 8 < len [1; 2; 3; 4; 5; 6; 7; 8; 9; 10; 11; 12]
              ∧ len [1; 2; 3; 4; 5; 6; 7; 8; 9; 10; 11; 12] < 1 * 8 + 8)
    by (vm_compute; repeat split; discriminate).
  split; [exact H|].
  destruct (convert_metatile_to_tile_layers_partial_metatile 1
              [1; 2; 3; 4; 5; 6; 7; 8; 9; 10; 11; 12] NORMAL 0 0 1)
    as [Hraise _].
  exact (Hraise H).
Defined.

End MetatileLayers.

Section MetatileLayersWithAttrs.
Import Constants Metatile.

Lemma tile_dict_cells (bx by_ : Z) (tiles : list (Z * Z * Z))
    (cells : list (nat * (Z * Z))) (acc : gmap (Z * Z) (Z * Z))
    (k : Z * Z) (v : Z * Z) :
  foldl (fun result '(tile_idx, (tx, ty)) =>
           let tile_x := bx + tx in
           let tile_y := by_ + ty in
           match tiles !! tile_idx with
           | Some (tile_id, flip_flags, palette_idx) =>
               if decide (tile_id ≠ 0)
               then <[(tile_x, tile_y) := (tile_id, palette_idx)]> result
               else result
           | None => result
           end) acc cells !! k = Some v →
  acc !! k = Some v
  ∨ ∃ idx tx ty flip, (idx, (tx, ty)) ∈ cells
      ∧ tiles !! idx = Some (v.1, flip, v.2) ∧ v.1 ≠ 0
      ∧ k = (bx + tx, by_ + ty).
Proof.
  revert acc. induction cells as [|[idx [tx ty]] cells IH]; intros acc.
  - cbn. auto.
  - cbn [foldl]. intros H. apply IH in H as [H|H].
    + cbv zeta in H.
      destruct (tiles !! idx) as [[[tile_id flip] pal]|] eqn:Et; [|auto].
      destruct (decide (tile_id ≠ 0)) as [Hne|]; [|auto].
      destruct (decide (k = (bx + tx, by_ + ty))) as [->|Hk].
      * rewrite lookup_insert_eq in H. injection H as <-.
        right. exists idx, tx, ty, flip. split; [by left|]. done.
      * rewrite lookup_insert_ne in H by done. auto.
    + right. destruct H as (i & tx' & ty' & flip & Hin & ?).
      exists i, tx', ty', flip. split; [by right|done].
Qed.

Lemma elem_of_slice {A : Type} (l : list A) (a b : Z) (x : A) :
  x ∈ slice l a b → x ∈ l.
Proof.
  unfold slice. intros (i & H & _)%elem_of_take.
  apply list_elem_of_lookup_2 in H. by apply (subseteq_drop (Z.to_nat a) l).
Qed.

(** X9: [convert_metatile_to_tile_layers_with_attrs] never raises and places a
    metatile inside its own 2 x 2 block of the tile grid: every entry of the
    three dictionaries has its key in [2x .. 2x+1] x [2y .. 2y+1] and holds a
    non-zero tile of the unpacked metatile with that tile's palette; the
    layer that the layer type leaves out is the empty dictionary, and an
    out-of-range metatile ID gives three empty dictionaries. *)
Theorem convert_with_attrs_stays_in_block
    (metatile_id : Z) (metatile_data : list (Z * Z * Z))
    (layer_type x y map_width : Z)
    (bg3 bg2 bg1 : gmap (Z * Z) (Z * Z)) :
  convert_metatile_to_tile_layers_with_attrs metatile_id metatile_data
    layer_type x y map_width = (bg3, bg2, bg1) →
  (∀ d, d ∈ [bg3; bg2; bg1] → ∀ tx ty tile_id palette,
     d !! (tx, ty) = Some (tile_id, palette) →
     2 * x <= tx <= 2 * x + 1 ∧ 2 * y <= ty <= 2 * y + 1 ∧ tile_id ≠ 0
     ∧ ∃ flip, (tile_id, flip, palette)
         ∈ unpack_metatile_data_with_attrs metatile_id metatile_data)
  ∧ (layer_type = COVERED → bg1 = ∅)
  ∧ (layer_type = SPLIT → bg2 = ∅)
  ∧ (layer_type ≠ COVERED → layer_type ≠ SPLIT → bg3 = ∅)
  ∧ (metatile_id < 0 ∨ metatile_id * 8 >= len metatile_data →
     bg3 = ∅ ∧ bg2 = ∅ ∧ bg1 = ∅).
Proof.
  unfold convert_metatile_to_tile_layers_with_attrs.
  set (tiles := unpack_metatile_data_with_attrs metatile_id metatile_data).
  intros Heq.
  assert (Hcell : ∀ (part : list (Z * Z * Z)) tx ty tile_id palette,
            (∀ t, t ∈ part → t ∈ tiles) →
            foldl (fun (result : gmap (Z * Z) (Z * Z)) '(tile_idx, (tx, ty)) =>
                     let tile_x := x * 2 + tx in
                     let tile_y := y * 2 + ty in
                     match part !! tile_idx with
                     | Some (tile_id, flip_flags, palette_idx) =>
                         if decide (tile_id ≠ 0)
                         then <[(tile_x, tile_y) := (tile_id, palette_idx)]> result
                         else result
                     | None => result
                     end) ∅
                  [(0%nat, (0, 0)); (1%nat, (1, 0)); (2%nat, (0, 1));
                   (3%nat, (1, 1))] !! (tx, ty) = Some (tile_id, palette) →
            2 * x <= tx <= 2 * x + 1 ∧ 2 * y <= ty <= 2 * y + 1 ∧ tile_id ≠ 0
            ∧ ∃ flip, (tile_id, flip, palette) ∈ tiles).
  { intros part tx ty tile_id palette Hsub H.
    apply tile_dict_cells in H as [H|H]; [by rewrite lookup_empty in H|].
    destruct H as (idx & cx & cy & flip & Hin & Hl & Hne & Hk).
    cbn in Hl, Hne. injection Hk as -> ->.
    assert (Hc : 0 <= cx <= 1 ∧ 0 <= cy <= 1).
    { repeat (apply elem_of_cons in Hin as [[= -> -> ->]|Hin]; [lia|]).
      by apply elem_of_nil in Hin. }
    split; [lia|]. split; [lia|]. split; [done|].
    exists flip. apply Hsub. by apply list_elem_of_lookup_2 in Hl. }
  assert (Hb : ∀ t, t ∈ slice tiles 0 4 → t ∈ tiles)
    by (intros t; apply elem_of_slice).
  assert (Ht : ∀ t, t ∈ slice tiles 4 8 → t ∈ tiles)
    by (intros t; apply elem_of_slice).
  assert (Hn : ∀ t, t ∈ ([] : list (Z * Z * Z)) → t ∈ tiles)
    by (intros t ?%elem_of_nil; done).
  assert (Hproj : ∀ (p q : gmap (Z * Z) (Z * Z) * gmap (Z * Z) (Z * Z)
                           * gmap (Z * Z) (Z * Z)),
            p = q → q.1.1 = p.1.1 ∧ q.1.2 = p.1.2 ∧ q.2 = p.2)
    by (by intros p q ->).
  split; [|split; [|split; [|split]]].
  - intros d Hd tx ty tile_id palette Hlook.
    repeat case_decide; apply Hproj in Heq as (Hg3 & Hg2 & Hg1);
      cbn [fst snd] in Hg3, Hg2, Hg1; subst bg3 bg2 bg1;
      repeat (apply elem_of_cons in Hd as [->|Hd];
              [first [ exact (Hcell [] _ _ _ _ Hn Hlook)
                     | exact (Hcell (slice tiles 0 4) _ _ _ _ Hb Hlook)
                     | exact (Hcell (slice tiles 4 8) _ _ _ _ Ht Hlook) ]|]);
      by apply elem_of_nil in Hd.
  - intros ->. unfold NORMAL, COVERED, SPLIT in Heq.
    rewrite decide_False, decide_True in Heq by done.
    apply Hproj in Heq as (_ & _ & Hg1). cbn [fst snd] in Hg1. by subst bg1.
  - intros ->. unfold NORMAL, COVERED, SPLIT in Heq.
    rewrite decide_False, decide_False, decide_True in Heq by done.
    apply Hproj in Heq as (_ & Hg2 & _). cbn [fst snd] in Hg2. by subst bg2.
  - intros Hc Hs.
    repeat case_decide; try done; apply Hproj in Heq as (Hg3 & _ & _);
      cbn [fst snd] in Hg3; by subst bg3.
  - intros Hout.
    assert (Hz : tiles = replicate 8 (0, 0, 0)).
    { unfold tiles, unpack_metatile_data_with_attrs, NUM_TILES_PER_METATILE.
      destruct (metatile_id <? 0) eqn:E1; [done|].
      destruct (metatile_id * 8 >=? len metatile_data) eqn:E2; [done|]. lia. }
    rewrite Hz in Heq.
    repeat case_decide; apply Hproj in Heq as (Hg3 & Hg2 & Hg1);
      cbn [fst snd] in Hg3, Hg2, Hg1; by subst bg3 bg2 bg1.
Qed.

Lemma convert_with_attrs_stays_in_block_witness :
  convert_metatile_to_tile_layers_with_attrs 0
    [(5, 0, 1); (0, 0, 0); (7, 0, 1); (8, 0, 2);
     (500, 0, 3); (501, 0, 3); (0, 0, 0); (503, 0, 3)] SPLIT 3 2 10
  = ({[(6, 4) := (5, 1); (6, 5) := (7, 1); (7, 5) := (8, 2)]}, ∅,
     {[(6, 4) := (500, 3); (7, 4) := (501, 3); (7, 5) := (503, 3)]})
  ∧ (SPLIT = SPLIT → (∅ : gmap (Z * Z) (Z * Z)) = ∅).
Proof.
  assert (H : convert_metatile_to_tile_layers_with_attrs 0
                [(5, 0, 1); (0, 0, 0); (7, 0, 1); (8, 0, 2);
                 (500, 0, 3); (501, 0, 3); (0, 0, 0); (503, 0, 3)] SPLIT 3 2 10
              = ({[(6, 4) := (5, 1); (6, 5) := (7, 1); (7, 5) := (8, 2)]}, ∅,
                 {[(6, 4) := (500, 3); (7, 4) := (501, 3);
                   (7, 5) := (503, 3)]}))
    by (vm_compute; reflexivity).
  split; [exact H|].
  destruct (convert_with_attrs_stays_in_block _ _ _ _ _ _ _ _ _ H)
    as (_ & _ & Hsplit & _).
  exact Hsplit.
Defined.

End MetatileLayersWithAttrs.

Section ReadAndValidate.
Import Constants Metatile Validators Converter.

Lemma MapReader_read_map_bin_outcome (data : list byte) (width height : Z) :
  (0 < width <= 1000 ∧ 0 < height <= 1000
   ∧ len data `div` 2 = width * height
   ∧ ∃ grid, MapReader.read_map_bin data width height = Ok grid)
  ∨ (¬ (0 < width <= 1000 ∧ 0 < height <= 1000
        ∧ len data `div` 2 = width * height)
     ∧ MapReader.read_map_bin data width height = Raise ValueError).
Proof.
  pose proof (unpack_entries_length data) as Hlen.
  unfold MapReader.read_map_bin, validate_map_dimensions.
  destruct (width <=? 0) eqn:E1; [right; split; [lia|done]|].
  destruct (height <=? 0) eqn:E2; [right; split; [lia|done]|].
  destruct (width >? 1000) eqn:E3; [right; split; [lia|done]|].
  destruct (height >? 1000) eqn:E4; [right; split; [lia|done]|].
  rewrite bind_Ok. case_decide as Hne; [right; split; [lia|done]|].
  left. split; [lia|]. split; [lia|].
  assert (Hcount : len (unpack_entries data) = width * height)
    by (destruct (decide (len (unpack_entries data) = width * height));
        [done|by destruct Hne]).
  split; [lia|].
  match goal with |- ∃ grid, ?r = Ok grid =>
    assert (Hok : is_ok r = true); [|destruct r; [by eexists|done]] end.
  apply mapM_is_ok. intros y Hy%elem_of_range.
  apply mapM_is_ok. intros x Hx%elem_of_range.
  apply getitem_in_range. nia.
Qed.

(** X10: [_read_and_validate_map_data] returns a grid with the layout's
    dimensions, or, when the record count does not match them, with both
    dimensions halved; the grid is the one [MapReader.read_map_bin] reads at
    the returned dimensions.  It returns [None] exactly when the count
    matches neither the dimensions nor the positive halved ones.  It lets
    [ValueError] escape when the count matches dimensions outside 1..1000,
    or matches halved dimensions above 1000. *)
Theorem read_and_validate_map_data_cases (data : list byte)
    (width height : Z) :
  let r := _read_and_validate_map_data data width height in
  let count := len data `div` 2 in
  let half_width := width `div` 2 in
  let half_height := height `div` 2 in
  (∀ grid w h, r = Ok (Some (grid, w, h)) →
     MapReader.read_map_bin data w h = Ok grid
     ∧ count = w * h ∧ 0 < w <= 1000 ∧ 0 < h <= 1000
     ∧ ((w = width ∧ h = height)
        ∨ (w = half_width ∧ h = half_height ∧ count ≠ width * height)))
  ∧ (r = Ok None ↔
       count ≠ width * height
       ∧ ¬ (0 < half_width ∧ 0 < half_height
            ∧ count = half_width * half_height))
  ∧ (∀ e, r = Raise e ↔
       e = ValueError
       ∧ ((count = width * height
           ∧ ¬ (0 < width <= 1000 ∧ 0 < height <= 1000))
          ∨ (count ≠ width * height
             ∧ 0 < half_width ∧ 0 < half_height
             ∧ count = half_width * half_height
             ∧ (1000 < half_width ∨ 1000 < half_height)))).
Proof.
  cbn zeta. unfold _read_and_validate_map_data.
  destruct (MapReader_read_map_bin_outcome data width height)
    as [(Hw & Hh & Hc & grid0 & Hr) | (Hbad & Hr)]; rewrite Hr.
  { split; [|split].
    - intros grid w h [= <- <- <-]. tauto.
    - split; [done|]. intros [Hne _]. done.
    - intros e. split; [done|]. intros (_ & [(_ & Hn) | (Hn & _)]); tauto. }
  case_decide as Hne.
  2:{ assert (Hc : len data `div` 2 = width * height)
        by (destruct (decide (len data `div` 2 = width * height)); tauto).
      split; [|split].
      - done.
      - split; [done|]. tauto.
      - intros e. split.
        + intros [= <-]. split; [done|]. left. tauto.
        + intros (-> & _). done. }
  destruct (width `div` 2 >? 0) eqn:E1; cbn [andb].
  2:{ split; [done|]. split; [split; [intros _; split; [done|lia]|done]|].
      intros e. split; [done|]. intros (_ & [(? & _) | (_ & ? & _)]); [done|lia]. }
  destruct (height `div` 2 >? 0) eqn:E2; cbn [andb].
  2:{ split; [done|]. split; [split; [intros _; split; [done|lia]|done]|].
      intros e. split; [done|]. intros (_ & [(? & _) | (_ & _ & ? & _)]); [done|lia]. }
  case_bool_decide as Hhalf; cbn.
  2:{ split; [done|]. split; [split; [intros _; split; [done|tauto]|done]|].
      intros e. split; [done|]. intros (_ & [(? & _) | (_ & _ & _ & ? & _)]); done. }
  destruct (MapReader_read_map_bin_outcome data (width `div` 2) (height `div` 2))
    as [(Hw & Hh & Hc & grid0 & Hr2) | (Hbad2 & Hr2)]; rewrite Hr2; cbn.
  - split; [|split].
    + intros grid w h [= <- <- <-].
      split; [done|]. split; [done|]. split; [lia|]. split; [lia|].
      right. done.
    + split; [done|]. intros (_ & Hn). destruct Hn. lia.
    + intros e. split; [done|]. intros (_ & [(? & _) | (_ & _ & _ & _ & ?)]); [done|lia].
  - split; [done|]. split.
    + split; [done|]. intros (_ & Hn). destruct Hn. lia.
    + intros e. split.
      * intros [= <-]. split; [done|]. right.
        split; [done|]. split; [lia|]. split; [lia|]. split; [done|].
        destruct (decide (1000 < width `div` 2)); [by left|].
        destruct (decide (1000 < height `div` 2)); [by right|].
        destruct Hbad2. lia.
      * intros (-> & _). done.
Qed.

Lemma read_and_validate_map_data_cases_witness :
  _read_and_validate_map_data [x01; x00; x02; x00] 4 2 = Ok (Some ([[1; 2]], 2, 1))
  ∧ MapReader.read_map_bin [x01; x00; x02; x00] 2 1 = Ok [[1; 2]].
Proof.
  assert (H : _read_and_validate_map_data [x01; x00; x02; x00] 4 2
              = Ok (Some ([[1; 2]], 2, 1))) by reflexivity.
  split; [exact H|].
  destruct (read_and_validate_map_data_cases [x01; x00; x02; x00] 4 2)
    as (Hsome & _).
  exact (proj1 (Hsome [[1; 2]] 2 1 H)).
Defined.

End ReadAndValidate.

Section UsedTileRouting.
Import Constants Converter.

Lemma add_used_tiles_from (primary_tileset : string)
    (calls : list (Z * Z * string)) (u : used_tiles) :
  let u' := add_used_tiles primary_tileset calls u in
  (∀ tid p, (tid, p) ∈ used_primary_tiles_with_palettes u' ↔
     (tid, p) ∈ used_primary_tiles_with_palettes u
     ∨ ∃ n, (tid, p, n) ∈ calls ∧ (n = primary_tileset ∨ tid < 512))
  ∧ (∀ tid p, (tid, p) ∈ used_secondary_tiles_with_palettes u' ↔
     (tid, p) ∈ used_secondary_tiles_with_palettes u
     ∨ ∃ t n, (t, p, n) ∈ calls ∧ n ≠ primary_tileset ∧ 512 <= t
              ∧ tid = t - 512)
  ∧ (∀ tid, tid ∈ used_primary_tiles u' ↔
     tid ∈ used_primary_tiles u
     ∨ ∃ p n, (tid, p, n) ∈ calls ∧ (n = primary_tileset ∨ tid < 512))
  ∧ (∀ tid, tid ∈ used_secondary_tiles u' ↔
     tid ∈ used_secondary_tiles u
     ∨ ∃ t p n, (t, p, n) ∈ calls ∧ n ≠ primary_tileset ∧ 512 <= t
                ∧ tid = t - 512).
Proof.
  revert u. induction calls as [|[[t p] n] calls IH]; intros u; cbn zeta.
  { unfold add_used_tiles. cbn [foldl].
    split; [|split; [|split]]; intros; (split; [by left|]);
      (intros [?|H]; [done|]);
      repeat (match type of H with ex _ => destruct H as [? H] end);
      destruct H as [H _]; by apply elem_of_nil in H. }
  unfold add_used_tiles. cbn [foldl].
  specialize (IH (add_used_tile_with_palette primary_tileset t p n u)).
  cbn zeta in IH. unfold add_used_tiles in IH.
  destruct IH as (IH1 & IH2 & IH3 & IH4).
  assert (Hstep :
    (∀ tid q, (tid, q) ∈ used_primary_tiles_with_palettes
                (add_used_tile_with_palette primary_tileset t p n u) ↔
       (tid, q) ∈ used_primary_tiles_with_palettes u
       ∨ (tid = t ∧ q = p ∧ (n = primary_tileset ∨ t < 512)))
    ∧ (∀ tid q, (tid, q) ∈ used_secondary_tiles_with_palettes
                (add_used_tile_with_palette primary_tileset t p n u) ↔
       (tid, q) ∈ used_secondary_tiles_with_palettes u
       ∨ (tid = t - 512 ∧ q = p ∧ n ≠ primary_tileset ∧ 512 <= t))
    ∧ (∀ tid, tid ∈ used_primary_tiles
                (add_used_tile_with_palette primary_tileset t p n u) ↔
       tid ∈ used_primary_tiles u
       ∨ (tid = t ∧ (n = primary_tileset ∨ t < 512)))
    ∧ (∀ tid, tid ∈ used_secondary_tiles
                (add_used_tile_with_palette primary_tileset t p n u) ↔
       tid ∈ used_secondary_tiles u
       ∨ (tid = t - 512 ∧ n ≠ primary_tileset ∧ 512 <= t))).
  { unfold add_used_tile_with_palette, NUM_TILES_IN_PRIMARY_VRAM.
    destruct (decide (n = primary_tileset)) as [Hn|Hn];
      [|destruct (t <? 512) eqn:Ht]; cbn;
      repeat split; intros; set_unfold;
      try (intuition (try congruence; try lia); fail);
      intuition (try congruence; try lia);
      match goal with H : (_, _) = (_, _) |- _ => injection H as -> -> end;
      intuition (try congruence; try lia). }
  destruct Hstep as (S1 & S2 & S3 & S4).
  split; [|split; [|split]].
  - intros tid q. rewrite IH1, S1. split.
    + intros [[?|(-> & -> & Hc)]|(n' & Hin & Hc)].
      * by left.
      * right. exists n. split; [left|done].
      * right. exists n'. split; [by right|done].
    + intros [?|(n' & Hin & Hc)]; [by left; left|].
      apply elem_of_cons in Hin as [[= -> -> ->]|Hin].
      * left. right. done.
      * right. by exists n'.
  - intros tid q. rewrite IH2, S2. split.
    + intros [[?|(-> & -> & Hc)]|(t' & n' & Hin & Hc)].
      * by left.
      * right. exists t, n. split; [left|]. tauto.
      * right. exists t', n'. split; [by right|done].
    + intros [?|(t' & n' & Hin & Hc)]; [by left; left|].
      apply elem_of_cons in Hin as [[= -> -> ->]|Hin].
      * left. right. tauto.
      * right. by exists t', n'.
  - intros tid. rewrite IH3, S3. split.
    + intros [[?|(-> & Hc)]|(p' & n' & Hin & Hc)].
      * by left.
      * right. exists p, n. split; [left|done].
      * right. exists p', n'. split; [by right|done].
    + intros [?|(p' & n' & Hin & Hc)]; [by left; left|].
      apply elem_of_cons in Hin as [[= -> -> ->]|Hin].
      * left. right. done.
      * right. by exists p', n'.
  - intros tid. rewrite IH4, S4. split.
    + intros [[?|(-> & Hc)]|(t' & p' & n' & Hin & Hc)].
      * by left.
      * right. exists t, p, n. split; [left|]. tauto.
      * right. exists t', p', n'. split; [by right|done].
    + intros [?|(t' & p' & n' & Hin & Hc)]; [by left; left|].
      apply elem_of_cons in Hin as [[= -> -> ->]|Hin].
      * left. right. tauto.
      * right. by exists t', p', n'.
Qed.

(** X11: After any run of calls of [add_used_tile_with_palette] on empty
    accumulators, the primary set holds exactly the tile IDs passed with the
    primary tileset's name or below 512, the secondary set exactly the IDs
    [t - 512] of the other calls, so no secondary ID is negative; each plain
    set is the set of first components of its set of (ID, palette) pairs,
    which holds exactly the pairs of those calls. *)
Theorem add_used_tiles_partition (primary_tileset : string)
    (calls : list (Z * Z * string)) :
  let u := add_used_tiles primary_tileset calls no_used_tiles in
  (∀ tid, tid ∈ used_primary_tiles u ↔
     ∃ p n, (tid, p, n) ∈ calls ∧ (n = primary_tileset ∨ tid < 512))
  ∧ (∀ tid, tid ∈ used_secondary_tiles u ↔
     ∃ t p n, (t, p, n) ∈ calls ∧ n ≠ primary_tileset ∧ 512 <= t
              ∧ tid = t - 512)
  ∧ (∀ tid p, (tid, p) ∈ used_primary_tiles_with_palettes u ↔
     ∃ n, (tid, p, n) ∈ calls ∧ (n = primary_tileset ∨ tid < 512))
  ∧ (∀ tid p, (tid, p) ∈ used_secondary_tiles_with_palettes u ↔
     ∃ t n, (t, p, n) ∈ calls ∧ n ≠ primary_tileset ∧ 512 <= t
            ∧ tid = t - 512)
  ∧ (∀ tid, tid ∈ used_primary_tiles u ↔
     ∃ p, (tid, p) ∈ used_primary_tiles_with_palettes u)
  ∧ (∀ tid, tid ∈ used_secondary_tiles u ↔
     ∃ p, (tid, p) ∈ used_secondary_tiles_with_palettes u)
  ∧ (∀ tid, tid ∈ used_secondary_tiles u → 0 <= tid).
Proof.
  intros u.
  destruct (add_used_tiles_from primary_tileset calls no_used_tiles)
    as (H1 & H2 & H3 & H4).
  fold u in H1, H2, H3, H4.
  assert (P : ∀ tid, tid ∈ used_primary_tiles u ↔
     ∃ p n, (tid, p, n) ∈ calls ∧ (n = primary_tileset ∨ tid < 512)).
  { intros tid. rewrite H3. cbn. rewrite elem_of_empty. tauto. }
  assert (S : ∀ tid, tid ∈ used_secondary_tiles u ↔
     ∃ t p n, (t, p, n) ∈ calls ∧ n ≠ primary_tileset ∧ 512 <= t
              ∧ tid = t - 512).
  { intros tid. rewrite H4. cbn. rewrite elem_of_empty. tauto. }
  assert (PP : ∀ tid p, (tid, p) ∈ used_primary_tiles_with_palettes u ↔
     ∃ n, (tid, p, n) ∈ calls ∧ (n = primary_tileset ∨ tid < 512)).
  { intros tid p. rewrite H1. cbn. rewrite elem_of_empty. tauto. }
  assert (SP : ∀ tid p, (tid, p) ∈ used_secondary_tiles_with_palettes u ↔
     ∃ t n, (t, p, n) ∈ calls ∧ n ≠ primary_tileset ∧ 512 <= t
            ∧ tid = t - 512).
  { intros tid p. rewrite H2. cbn. rewrite elem_of_empty. tauto. }
  split; [exact P|]. split; [exact S|]. split; [exact PP|].
  split; [exact SP|]. split; [|split].
  - intros tid. rewrite P. split.
    + intros (p & n & H). exists p. apply PP. by exists n.
    + intros (p & (n & H)%PP). by exists p, n.
  - intros tid. rewrite S. split.
    + intros (t & p & n & H). exists p. apply SP. by exists t, n.
    + intros (p & (t & n & H)%SP). by exists t, p, n.
  - intros tid (t & p & n & _ & _ & Ht & ->)%S. lia.
Qed.

End UsedTileRouting.

Section GidTable.
Import Converter.

Lemma assign_gid_table (image_bytes : list byte)
    (image_to_gid : gmap (list byte) Z) (next_gid : Z) :
  gid_table_ok image_to_gid next_gid →
  ∃ gid image_to_gid' next_gid',
    assign_gid image_bytes image_to_gid next_gid
    = (gid, image_to_gid', next_gid')
    ∧ gid_table_ok image_to_gid' next_gid'
    ∧ image_to_gid' !! image_bytes = Some gid
    ∧ image_to_gid ⊆ image_to_gid'
    ∧ (∀ k, k ≠ image_bytes → image_to_gid' !! k = image_to_gid !! k)
    ∧ next_gid' - next_gid
      = Z.of_nat (size image_to_gid') - Z.of_nat (size image_to_gid)
    ∧ next_gid <= next_gid' <= next_gid + 1.
Proof.
  intros (Hone & Hr & Hi). unfold assign_gid.
  destruct (image_to_gid !! image_bytes) as [g|] eqn:E.
  - exists g, image_to_gid, next_gid.
    split; [done|]. split; [done|]. split; [done|]. split; [done|].
    split; [done|]. lia.
  - exists next_gid, (<[image_bytes := next_gid]> image_to_gid), (next_gid + 1).
    split; [done|]. split; [split; [lia|split]|].
    + intros k g. rewrite lookup_insert_Some.
      intros [[_ <-]|[_ Hk]]; [lia|].
      apply Hr in Hk. lia.
    + intros k1 k2 g. rewrite !lookup_insert_Some.
      intros [[<- <-]|[Hn1 H1]] [[<- Hg]|[Hn2 H2]]; try done.
      * apply Hr in H2. lia.
      * apply Hr in H1. lia.
      * by apply (Hi k1 k2 g).
    + split; [by rewrite lookup_insert_eq|].
      split; [by apply insert_subseteq|].
      split; [intros k Hk; by rewrite lookup_insert_ne|].
      rewrite map_size_insert_None by done. lia.
Qed.

(** X12: [_process_border_metatiles] keeps the image dictionary consistent: when
    every recorded GID is in [1, next_gid) and no two images share a GID,
    the same holds after both assignments; the two images are then recorded
    with the returned GIDs, which are equal exactly when the images are;
    earlier entries are unchanged, and the counter has advanced by the
    number of entries added (0, 1 or 2). *)
Theorem assign_border_gids_keeps_table
    (border_bottom_bytes border_top_bytes : list byte)
    (image_to_gid : gmap (list byte) Z) (next_gid : Z) :
  gid_table_ok image_to_gid next_gid →
  ∃ border_bottom_gid border_top_gid image_to_gid' next_gid',
    assign_border_gids border_bottom_bytes border_top_bytes image_to_gid
      next_gid
    = (border_bottom_gid, border_top_gid, image_to_gid', next_gid')
    ∧ gid_table_ok image_to_gid' next_gid'
    ∧ image_to_gid' !! border_bottom_bytes = Some border_bottom_gid
    ∧ image_to_gid' !! border_top_bytes = Some border_top_gid
    ∧ (border_bottom_gid = border_top_gid
       ↔ border_bottom_bytes = border_top_bytes)
    ∧ image_to_gid ⊆ image_to_gid'
    ∧ next_gid' - next_gid
      = Z.of_nat (size image_to_gid') - Z.of_nat (size image_to_gid)
    ∧ next_gid <= next_gid' <= next_gid + 2.
Proof.
  intros Hok. unfold assign_border_gids.
  destruct (assign_gid_table border_bottom_bytes image_to_gid next_gid Hok)
    as (g1 & m1 & n1 & -> & Hok1 & Hl1 & Hsub1 & Hoth1 & Hsz1 & Hle1).
  destruct (assign_gid_table border_top_bytes m1 n1 Hok1)
    as (g2 & m2 & n2 & -> & Hok2 & Hl2 & Hsub2 & Hoth2 & Hsz2 & Hle2).
  exists g1, g2, m2, n2.
  assert (Hb : m2 !! border_bottom_bytes = Some g1)
    by (eapply lookup_weaken; eauto).
  split; [done|]. split; [done|]. split; [done|]. split; [done|].
  split.
  { split.
    - intros <-. destruct Hok2 as (_ & _ & Hinj). by apply (Hinj _ _ g1).
    - intros <-. congruence. }
  split; [by etrans|]. split; [lia|].
  lia.
Qed.

Lemma assign_border_gids_keeps_table_witness :
  gid_table_ok ∅ 1
  ∧ ∃ border_bottom_gid border_top_gid image_to_gid' next_gid',
      assign_border_gids [x01] [x01] ∅ 1
      = (border_bottom_gid, border_top_gid, image_to_gid', next_gid')
      ∧ gid_table_ok image_to_gid' next_gid'
      ∧ border_bottom_gid = border_top_gid.
Proof.
  assert (H : gid_table_ok ∅ 1).
  { split; [lia|]. split; intros *; by rewrite lookup_empty. }
  split; [exact H|].
  destruct (assign_border_gids_keeps_table [x01] [x01] ∅ 1 H)
    as (g1 & g2 & m & n & Heq & Hok & _ & _ & Hsame & _).
  exists g1, g2, m, n. split; [exact Heq|]. split; [exact Hok|].
  apply Hsame. reflexivity.
Defined.

End GidTable.

Section LayerCells.
Import Constants Metatile Converter.

Lemma setitem_Ok {A : Type} (l l' : list A) (i : Z) (v : A) :
  setitem l i v = Ok l' →
  length l' = length l
  ∧ ∀ x, x ∈ l' → x = v ∨ x ∈ l.
Proof.
  unfold setitem. destruct (_ || _); [done|]. intros [= <-].
  split; [by rewrite length_insert|].
  intros x (j & Hj)%list_elem_of_lookup.
  apply list_lookup_insert_Some in Hj as [(_ & -> & _)|(_ & Hj)]; [by left|].
  right. by eapply list_elem_of_lookup_2.
Qed.

Lemma elem_of_add_used_gid (gid g : Z) (used : gset Z) :
  g ∈ add_used_gid gid used ↔ g ∈ used ∨ (g = gid ∧ gid > 0).
Proof.
  unfold add_used_gid. destruct (gid >? 0) eqn:E.
  - rewrite elem_of_union, elem_of_singleton. intuition lia.
  - intuition lia.
Qed.

(** X13: A cell step of [_build_map_layers] that returns keeps the three layers
    at their lengths, only adds to [used_gids], and only positive GIDs
    recorded in [metatile_to_gid]; when every positive GID of the layers is
    in [used_gids] before the step, the same holds after it. *)
Theorem build_map_layers_cell_tracks_gids
    (attributes : gmap Z Z) (metatile_to_gid : gmap (Z * string * Z * bool) Z)
    (actual_metatile_id : Z) (tileset_name : string) (idx : Z)
    (st st' : map_layers) :
  build_map_layers_cell attributes metatile_to_gid actual_metatile_id
    tileset_name idx st = Ok st' →
  length (layer_data_bg3 st') = length (layer_data_bg3 st)
  ∧ length (layer_data_bg2 st') = length (layer_data_bg2 st)
  ∧ length (layer_data_bg1 st') = length (layer_data_bg1 st)
  ∧ used_gids st ⊆ used_gids st'
  ∧ (∀ gid, gid ∈ used_gids st' → gid ∈ used_gids st
       ∨ (gid > 0 ∧ ∃ key, metatile_to_gid !! key = Some gid))
  ∧ (layers_tracked st → layers_tracked st').
Proof.
  unfold build_map_layers_cell.
  set (v := default 0 (attributes !! actual_metatile_id)).
  set (kb := (actual_metatile_id, tileset_name, v, false)).
  set (kt := (actual_metatile_id, tileset_name, v, true)).
  assert (Hkey : ∀ k g, g > 0 → g = default 0 (metatile_to_gid !! k) →
            ∃ key, metatile_to_gid !! key = Some g).
  { intros k g Hg Hd. destruct (metatile_to_gid !! k) as [g'|] eqn:E;
      cbn in Hd; [exists k; congruence|lia]. }
  set (bottom_gid := default 0 (metatile_to_gid !! kb)) in *.
  set (top_gid := default 0 (metatile_to_gid !! kt)) in *.
  assert (Hused : ∀ g, g ∈ add_used_gid top_gid
                          (add_used_gid bottom_gid (used_gids st)) →
            g ∈ used_gids st
            ∨ (g > 0 ∧ ∃ key, metatile_to_gid !! key = Some g)).
  { intros g. rewrite !elem_of_add_used_gid.
    intros [[?|[-> Hg]]|[-> Hg]]; [by left| |]; right; (split; [done|]).
    - by apply (Hkey kb).
    - by apply (Hkey kt). }
  assert (Hsub : used_gids st ⊆ add_used_gid top_gid
                          (add_used_gid bottom_gid (used_gids st))).
  { intros g Hg. rewrite !elem_of_add_used_gid. tauto. }
  assert (Ht : ∀ la lb lc la' lb' : list Z,
            setitem la idx bottom_gid = Ok la' →
            setitem lb idx top_gid = Ok lb' →
            (∀ gid, gid > 0 → gid ∈ la ∨ gid ∈ lb ∨ gid ∈ lc →
               gid ∈ used_gids st) →
            ∀ gid, gid > 0 → gid ∈ la' ∨ gid ∈ lb' ∨ gid ∈ lc →
              gid ∈ add_used_gid top_gid
                      (add_used_gid bottom_gid (used_gids st))).
  { intros la lb lc la' lb' (_ & Ha)%setitem_Ok (_ & Hb)%setitem_Ok Htr gid Hg.
    rewrite !elem_of_add_used_gid.
    intros [Hin%Ha|[Hin%Hb|Hin]].
    - destruct Hin as [->|Hin]; [tauto|]. left. left. apply Htr; tauto.
    - destruct Hin as [->|Hin]; [tauto|]. left. left. apply Htr; tauto.
    - left. left. apply Htr; tauto. }
  destruct (MetatileLayerType v) as [layer_type|e]; [|done].
  rewrite bind_Ok.
  destruct (decide (layer_type = NORMAL)) as [_|_].
  { destruct (setitem (layer_data_bg2 st) idx bottom_gid) as [bg2|] eqn:E2;
      [|done]. rewrite bind_Ok.
    destruct (setitem (layer_data_bg1 st) idx top_gid) as [bg1|] eqn:E1;
      [|done]. rewrite bind_Ok.
    intros [= <-]. cbn.
    split; [done|]. split; [by apply setitem_Ok in E2 as [? _]|].
    split; [by apply setitem_Ok in E1 as [? _]|].
    split; [done|]. split; [done|].
    intros Htr gid Hg Hin. cbn in *.
    apply (Ht _ _ (layer_data_bg3 st) _ _ E2 E1); [|done|tauto].
    intros g' Hg' Hin'. apply Htr; tauto. }
  destruct (decide (layer_type = COVERED)) as [_|_].
  { destruct (setitem (layer_data_bg3 st) idx bottom_gid) as [bg3|] eqn:E3;
      [|done]. rewrite bind_Ok.
    destruct (setitem (layer_data_bg2 st) idx top_gid) as [bg2|] eqn:E2;
      [|done]. rewrite bind_Ok.
    intros [= <-]. cbn.
    split; [by apply setitem_Ok in E3 as [? _]|].
    split; [by apply setitem_Ok in E2 as [? _]|].
    split; [done|].
    split; [done|]. split; [done|].
    intros Htr gid Hg Hin. cbn in *.
    apply (Ht _ _ (layer_data_bg1 st) _ _ E3 E2); [|done|tauto].
    intros g' Hg' Hin'. apply Htr; tauto. }
  destruct (decide (layer_type = SPLIT)) as [_|_].
  { destruct (setitem (layer_data_bg3 st) idx bottom_gid) as [bg3|] eqn:E3;
      [|done]. rewrite bind_Ok.
    destruct (setitem (layer_data_bg1 st) idx top_gid) as [bg1|] eqn:E1;
      [|done]. rewrite bind_Ok.
    intros [= <-]. cbn.
    split; [by apply setitem_Ok in E3 as [? _]|].
    split; [done|].
    split; [by apply setitem_Ok in E1 as [? _]|].
    split; [done|]. split; [done|].
    intros Htr gid Hg Hin. cbn in *.
    apply (Ht _ _ (layer_data_bg2 st) _ _ E3 E1); [|done|tauto].
    intros g' Hg' Hin'. apply Htr; tauto. }
  intros [= <-]. split; [done|]. split; [done|]. split; [done|].
  split; [done|]. split; [by left|done].
Qed.

Lemma build_map_layers_cell_tracks_gids_witness :
  build_map_layers_cell {[0 := 1]}
    {[ (0, "General", 1, false) := 5; (0, "General", 1, true) := 6 ]}
    0 "General" 1 (MapLayers [0; 0] [0; 0] [0; 0] ∅)
  = Ok (MapLayers [0; 5] [0; 6] [0; 0] {[5; 6]})
  ∧ (layers_tracked (MapLayers [0; 0] [0; 0] [0; 0] ∅) →
     layers_tracked (MapLayers [0; 5] [0; 6] [0; 0] {[5; 6]})).
Proof.
  assert (H : build_map_layers_cell {[0 := 1]}
    {[ (0, "General", 1, false) := 5; (0, "General", 1, true) := 6 ]}
    0 "General" 1 (MapLayers [0; 0] [0; 0] [0; 0] ∅)
  = Ok (MapLayers [0; 5] [0; 6] [0; 0] {[5; 6]})).
  { vm_compute. reflexivity. }
  split; [exact H|].
  exact (proj2 (proj2 (proj2 (proj2 (proj2
    (build_map_layers_cell_tracks_gids _ _ _ _ _ _ _ H)))))).
Defined.

End LayerCells.

Section Deduplication.
Import Converter.

Lemma deduplicate_animations_snoc (l : list animation) (a : animation) :
  deduplicate_animations (l ++ [a])
  = if decide (a.1 ∈ (list_to_set (l.*1) : gset Z))
    then deduplicate_animations l
    else deduplicate_animations l ++ [a].
Proof.
  unfold deduplicate_animations. rewrite foldl_app. cbn [foldl].
  assert (Hseen : ∀ l : list animation,
    (foldl (fun '(seen_ids, deduplicated_animations) anim =>
              let anim_id := anim.1 in
              if decide (anim_id ∈ (seen_ids : gset Z))
              then (seen_ids, deduplicated_animations)
              else ({[anim_id]} ∪ seen_ids,
                    deduplicated_animations ++ [anim]))
           (∅, []) l).1 = list_to_set (l.*1)).
  { clear. intros l. induction l as [|x l IH] using rev_ind; [done|].
    rewrite foldl_app. cbn [foldl].
    destruct (foldl _ _ l) as [seen acc]. cbn in IH. subst seen.
    rewrite fmap_app, list_to_set_app_L. cbn.
    destruct (decide (x.1 ∈ _)) as [Hin|Hin]; cbn;
      apply set_eq; intros z;
      rewrite ?elem_of_union, ?elem_of_singleton, ?elem_of_empty;
      intuition (subst; auto). }
  specialize (Hseen l). destruct (foldl _ _ l) as [seen acc].
  cbn in Hseen. subst seen. cbv zeta.
  destruct (decide (a.1 ∈ _)); done.
Qed.

Lemma deduplicate_animations_ids (l : list animation) (id : Z) :
  id ∈ (deduplicate_animations l).*1 ↔ id ∈ l.*1.
Proof.
  induction l as [|a l IH] using rev_ind; [done|].
  rewrite deduplicate_animations_snoc, fmap_app, elem_of_app.
  destruct (decide (a.1 ∈ _)) as [Hin|Hin].
  - rewrite IH. apply elem_of_list_to_set in Hin. cbn.
    rewrite list_elem_of_singleton. split; [tauto|].
    intros [?| ->]; done.
  - rewrite fmap_app, elem_of_app, IH. done.
Qed.

Lemma deduplicate_animations_fixed (l : list animation) :
  NoDup (l.*1) → deduplicate_animations l = l.
Proof.
  induction l as [|a l IH] using rev_ind; [done|].
  rewrite fmap_app. intros (Hl & Hdisj & _)%NoDup_app.
  rewrite deduplicate_animations_snoc, IH by done.
  rewrite decide_False; [done|].
  rewrite elem_of_list_to_set. intros Hin. apply (Hdisj _ Hin). cbn. left.
Qed.

(** X14: The final pass of [_build_metatile_animations] keeps, for every tile ID
    that has an animation, exactly the first animation of the list with that
    ID, in the order of the list: no ID occurs twice in the result, every ID
    of the input is still there, an entry is kept exactly when no earlier
    entry has its ID, and a second pass changes nothing. *)
Theorem deduplicate_animations_first_wins (animations : list animation) :
  let d := deduplicate_animations animations in
  NoDup (d.*1)
  ∧ d `sublist_of` animations
  ∧ (∀ id, id ∈ d.*1 ↔ id ∈ animations.*1)
  ∧ (∀ id timeline, (id, timeline) ∈ d ↔
       ∃ i : nat, animations !! i = Some (id, timeline)
         ∧ ∀ (j : nat) a, (j < i)%nat → animations !! j = Some a → a.1 ≠ id)
  ∧ deduplicate_animations d = d.
Proof.
  cbn zeta.
  assert (Hnd : NoDup ((deduplicate_animations animations).*1)).
  { induction animations as [|a l IH] using rev_ind; [constructor|].
    rewrite deduplicate_animations_snoc.
    destruct (decide (a.1 ∈ _)) as [Hin|Hin]; [done|].
    rewrite fmap_app. apply NoDup_app. split; [done|]. split.
    - intros x Hx Hx'.
      apply (proj1 (deduplicate_animations_ids _ _)) in Hx.
      apply list_elem_of_singleton in Hx'. subst x.
      rewrite elem_of_list_to_set in Hin. done.
    - cbn. apply NoDup_singleton. }
  split; [done|]. split; [|split; [|split]].
  - clear Hnd. induction animations as [|a l IH] using rev_ind; [done|].
    rewrite deduplicate_animations_snoc.
    destruct (decide (a.1 ∈ _)).
    + by apply sublist_inserts_r.
    + by apply sublist_app.
  - apply deduplicate_animations_ids.
  - clear Hnd.
    induction animations as [|a l IH] using rev_ind.
    { intros id tl. split; [by intros ?%elem_of_nil|]. by intros (i & ? & _). }
    intros id tl. rewrite deduplicate_animations_snoc.
    assert (Hfirst : (∃ i : nat, (l ++ [a]) !! i = Some (id, tl)
               ∧ ∀ (j : nat) b, (j < i)%nat → (l ++ [a]) !! j = Some b →
                   b.1 ≠ id)
             ↔ (id, tl) ∈ deduplicate_animations l
               ∨ (a = (id, tl) ∧ a.1 ∉ (list_to_set (l.*1) : gset Z))).
    { rewrite IH. split.
      - intros (i & Hi & Hbefore).
        destruct (l !! i) as [x|] eqn:Hli.
        + left. exists i.
          rewrite (lookup_app_l_Some _ _ _ _ Hli) in Hi.
          split; [etrans; [exact Hli|exact Hi]|]. intros j b Hj Hb. apply (Hbefore j b Hj).
          by apply lookup_app_l_Some.
        + right. apply lookup_ge_None in Hli.
          rewrite lookup_app_r in Hi by done.
          apply list_lookup_singleton_Some in Hi as [Hi0 ->].
          split; [done|]. cbn. rewrite elem_of_list_to_set.
          intros (b & Hb1 & (j & Hj)%list_elem_of_lookup)%list_elem_of_fmap.
          pose proof (lookup_lt_Some _ _ _ Hj) as Hjl.
          apply (Hbefore j b); [|by apply lookup_app_l_Some|done].
          eapply Nat.lt_le_trans; [exact Hjl|].
          etrans; [exact Hli|]. apply Nat.eq_le_incl.
          apply Nat.sub_0_le in Hi0.
          by apply Nat.le_antisymm.
      - intros [(i & Hi & Hbefore)|[-> Hnot]].
        + exists i. split; [by apply lookup_app_l_Some|].
          intros j b Hj Hb. apply (Hbefore j b Hj).
          pose proof (lookup_lt_Some _ _ _ Hi) as Hil.
          rewrite lookup_app_l in Hb; [done|]. by etrans.
        + exists (length l). split.
          * rewrite lookup_app_r by done. by rewrite Nat.sub_diag.
          * intros j b Hj Hb Heq. rewrite lookup_app_l in Hb by done.
            apply Hnot. cbn. rewrite elem_of_list_to_set.
            apply list_elem_of_fmap. exists b. split; [done|].
            by eapply list_elem_of_lookup_2. }
    rewrite Hfirst.
    destruct (decide (a.1 ∈ _)) as [Hin|Hin].
    + split; [by left|]. intros [?|[_ ?]]; done.
    + rewrite elem_of_app, list_elem_of_singleton. split.
      * intros [?| ->]; [by left|by right].
      * intros [?|[-> _]]; [by left|by right].
  - by apply deduplicate_animations_fixed.
Qed.

End Deduplication.

Section MaxTileId.
Import Converter.

(** X15: For a bank image of size [width] x [height], [_get_max_tile_id] returns
    a maximum exactly when both sides are at least 8 pixels; the maximum is
    then [(width // 8) * (height // 8) - 1], and every tile ID from 0 to it
    names a complete 8 x 8 cell of the image in row-major order,
    [width // 8] cells per row. *)
Theorem get_max_tile_id_cells (width height : Z) :
  0 <= width → 0 <= height →
  (is_Some (_get_max_tile_id (Some (width, height)))
   ↔ 8 <= width ∧ 8 <= height)
  ∧ ∀ max_tile, _get_max_tile_id (Some (width, height)) = Some max_tile →
      max_tile = (width `div` 8) * (height `div` 8) - 1
      ∧ ∀ tid, 0 <= tid <= max_tile →
          let x := (tid `mod` (width `div` 8)) * 8 in
          let y := (tid `div` (width `div` 8)) * 8 in
          0 <= x ∧ x + 8 <= width ∧ 0 <= y ∧ y + 8 <= height.
Proof.
  intros Hw Hh. unfold _get_max_tile_id.
  assert (Hwd : 0 <= width `div` 8) by (apply Z.div_pos; lia).
  assert (Hhd : 0 <= height `div` 8) by (apply Z.div_pos; lia).
  assert (Hw8 : 8 * (width `div` 8) <= width)
    by (apply Z.mul_div_le; lia).
  assert (Hh8 : 8 * (height `div` 8) <= height)
    by (apply Z.mul_div_le; lia).
  split.
  - destruct (_ >? 0) eqn:E.
    + split; [|by eexists]. intros _.
      assert (0 < width `div` 8 ∧ 0 < height `div` 8) as [H1 H2] by nia.
      split.
      * destruct (decide (8 <= width)); [done|].
        rewrite Z.div_small in H1 by lia. lia.
      * destruct (decide (8 <= height)); [done|].
        rewrite Z.div_small in H2 by lia. lia.
    + split; [by intros [? ?]|]. intros [H1 H2].
      assert (1 <= width `div` 8) by (apply Z.div_le_lower_bound; lia).
      assert (1 <= height `div` 8) by (apply Z.div_le_lower_bound; lia).
      nia.
  - intros max_tile. destruct (_ >? 0) eqn:E; [|done].
    intros [= <-]. split; [done|]. intros tid Ht. cbn zeta.
    assert (Hc : 0 < width `div` 8) by nia.
    pose proof (Z.mod_pos_bound tid (width `div` 8) Hc) as Hm.
    assert (Hq : 0 <= tid `div` (width `div` 8)) by (apply Z.div_pos; lia).
    assert (Hr : tid `div` (width `div` 8) < height `div` 8).
    { apply Z.div_lt_upper_bound; [done|]. lia. }
    lia.
Qed.

Lemma get_max_tile_id_cells_witness :
  0 <= 128 ∧ 0 <= 64
  ∧ (is_Some (_get_max_tile_id (Some (128, 64))) ↔ 8 <= 128 ∧ 8 <= 64).
Proof.
  assert (H1 : 0 <= 128) by lia. assert (H2 : 0 <= 64) by lia.
  split; [exact H1|]. split; [exact H2|].
  exact (proj1 (get_max_tile_id_cells 128 64 H1 H2)).
Defined.

End MaxTileId.

Section MetatileFrames.
Import Constants Converter.
Context {Image : Type}.

Lemma add_frame_paste (cols : Z) (img : Image) (ts : tileset_state Image) :
  cols ≠ 0 →
  add_frame cols img ts
  = Ok (next_gid ts - 1,
        {| tileset_pastes :=
             tileset_pastes ts
             ++ [(((next_gid ts - 1) `mod` cols) * 16,
                  ((next_gid ts - 1) `div` cols) * 16, img)];
           next_gid := next_gid ts + 1 |}).
Proof.
  intros Hc. unfold add_frame, py_mod, py_floordiv.
  by rewrite !decide_False by done.
Qed.

Lemma add_metatile_frames_pastes (cols : Z) (frames : list Image) (k : Z)
    (m : gmap Z Z) (ts : tileset_state Image) :
  cols ≠ 0 →
  ∃ m' ts',
    add_metatile_frames cols frames k m ts = Ok (m', ts')
    ∧ tileset_pastes ts'
      = tileset_pastes ts
        ++ imap (fun i img =>
                   (((next_gid ts - 1 + Z.of_nat i) `mod` cols) * 16,
                    ((next_gid ts - 1 + Z.of_nat i) `div` cols) * 16, img))
             frames.
Proof.
  intros Hc. revert k m ts.
  induction frames as [|f frames IH]; intros k m ts.
  - exists m, ts. cbn. by rewrite app_nil_r.
  - cbn [add_metatile_frames]. rewrite add_frame_paste by done.
    rewrite bind_Ok.
    destruct (IH (k + 1) (<[k := next_gid ts - 1]> m)
                {| tileset_pastes :=
                     tileset_pastes ts
                     ++ [(((next_gid ts - 1) `mod` cols) * 16,
                          ((next_gid ts - 1) `div` cols) * 16, f)];
                   next_gid := next_gid ts + 1 |})
      as (m' & ts' & -> & Hp).
    exists m', ts'. split; [done|]. rewrite Hp. cbn [tileset_pastes next_gid].
    rewrite <- app_assoc. f_equal. cbn [imap app]. f_equal.
    + by rewrite Z.add_0_r.
    + apply imap_ext. intros i x _. cbn.
      by replace (next_gid ts + 1 - 1 + Z.of_nat i)
        with (next_gid ts - 1 + Z.of_nat (S i)) by lia.
Qed.

Lemma atlas_cell_inj (cols a b : Z) :
  cols ≠ 0 →
  (a `mod` cols) * 16 = (b `mod` cols) * 16 →
  (a `div` cols) * 16 = (b `div` cols) * 16 → a = b.
Proof.
  intros Hc Hm Hd.
  rewrite (Z.div_mod a cols Hc), (Z.div_mod b cols Hc). nia.
Qed.

(** X16: The frames of a metatile-style animation are pasted on the tileset
    image one per cell of 16 x 16 pixels, frame [i] on the cell of tile
    [next_gid - 1 + i] in rows of [cols] cells: inside the row width, on
    pairwise different cells, after the pastes made before; with
    [cols = 0] and a frame to add the run raises [ZeroDivisionError]. *)
Theorem add_metatile_frames_atlas (cols : Z) (frames : list Image)
    (ts : tileset_state Image) :
  (0 < cols →
   ∃ frame_gid_map ts',
     add_metatile_frames cols frames 0 ∅ ts = Ok (frame_gid_map, ts')
     ∧ ∃ added,
         tileset_pastes ts' = tileset_pastes ts ++ added
         ∧ length added = length frames
         ∧ (∀ (i : nat) x y img, added !! i = Some (x, y, img) →
              frames !! i = Some img
              ∧ x = ((next_gid ts - 1 + Z.of_nat i) `mod` cols) * 16
              ∧ y = ((next_gid ts - 1 + Z.of_nat i) `div` cols) * 16
              ∧ 0 <= x ∧ x + 16 <= cols * 16
              ∧ (1 <= next_gid ts → 0 <= y))
         ∧ (∀ (i j : nat) x y img_i img_j,
              added !! i = Some (x, y, img_i) →
              added !! j = Some (x, y, img_j) → i = j))
  ∧ (cols = 0 → frames ≠ [] →
     add_metatile_frames cols frames 0 ∅ ts = Raise ZeroDivisionError).
Proof.
  split.
  - intros Hc.
    destruct (add_metatile_frames_pastes cols frames 0 ∅ ts ltac:(lia))
      as (m' & ts' & Heq & Hp).
    exists m', ts'. split; [done|]. eexists. split; [exact Hp|].
    split; [by rewrite length_imap|].
    assert (Hl : ∀ (i : nat) x y img,
              imap (fun i img =>
                   (((next_gid ts - 1 + Z.of_nat i) `mod` cols) * 16,
                    ((next_gid ts - 1 + Z.of_nat i) `div` cols) * 16, img))
                frames !! i = Some (x, y, img) →
              frames !! i = Some img
              ∧ x = ((next_gid ts - 1 + Z.of_nat i) `mod` cols) * 16
              ∧ y = ((next_gid ts - 1 + Z.of_nat i) `div` cols) * 16).
    { intros i x y img. rewrite list_lookup_imap.
      destruct (frames !! i) as [f|]; [|done]. cbn. by intros [= <- <- <-]. }
    split.
    + intros i x y img (Hf & -> & ->)%Hl.
      pose proof (Z.mod_pos_bound (next_gid ts - 1 + Z.of_nat i) cols Hc).
      split; [done|]. split; [done|]. split; [done|].
      split; [lia|]. split; [lia|].
      intros Hn.
      assert (0 <= (next_gid ts - 1 + Z.of_nat i) `div` cols)
        by (apply Z.div_pos; lia).
      lia.
    + intros i j x y img_i img_j (_ & Hx & Hy)%Hl (_ & Hx' & Hy')%Hl.
      assert (next_gid ts - 1 + Z.of_nat i = next_gid ts - 1 + Z.of_nat j);
        [|lia].
      apply (atlas_cell_inj cols); [lia|congruence|congruence].
  - intros -> Hne. destruct frames as [|f frames]; [done|]. reflexivity.
Qed.

Lemma omap_ext_elem {A B : Type} (f g : A → option B) (l : list A) :
  (∀ x, x ∈ l → f x = g x) → omap f l = omap g l.
Proof.
  induction l as [|a l IH]; intros H; [done|].
  cbn. rewrite (H a) by left. rewrite IH; [done|].
  intros x Hx. apply H. by right.
Qed.

Lemma omap_fmap_total {A B : Type} (f : A → option B) (g : A → B)
    (l : list A) :
  (∀ x, x ∈ l → f x = Some (g x)) → omap f l = g <$> l.
Proof.
  induction l as [|a l IH]; intros H; [done|].
  cbn. rewrite (H a) by left. rewrite IH; [done|].
  intros x Hx. apply H. by right.
Qed.

Lemma frames_added_lookup (n : nat) (next : Z) (m : gmap Z Z) (z : Z) :
  frames_added 0 n next ∅ m →
  m !! z = if bool_decide (0 <= z < Z.of_nat n)
           then Some (next - 1 + z) else None.
Proof.
  intros H. rewrite (H z). cbn.
  case_bool_decide; [rewrite decide_True by lia|rewrite decide_False by lia].
  - f_equal. lia.
  - done.
Qed.

(** X17: The metatile-frame branch adds every frame of the animation to the
    tileset, whether or not the layer GID is used on the map.  Its timeline
    plays the frames in the order of the frame sequence, skipping the
    indices outside [0, len(frames)), or in their own order when there is no
    sequence; step [s] shows tile [next_gid - 1 + s] for [duration_ms].  The
    animation is attached to tile [anim_layer_gid - 1], and only when the
    GID is used and the timeline is not empty. *)
Theorem build_metatile_animation_timeline (cols : Z) (used_gids : gset Z)
    (info : anim_info Image) (ts : tileset_state Image) :
  cols ≠ 0 →
  let playback_order :=
    match frame_sequence info with
    | Some ((_ :: _) as s) => s
    | _ => range (len (frames info))
    end in
  let timeline :=
    omap (fun s => if bool_decide (0 <= s < len (frames info))
                   then Some (next_gid ts - 1 + s, duration_ms info)
                   else None) playback_order in
  ∃ ts',
    build_metatile_animation cols used_gids info ts
    = Ok (if bool_decide (anim_layer_gid info ∈ used_gids)
             && bool_decide (timeline ≠ [])
          then [(anim_layer_gid info - 1, timeline)] else [],
          ts')
    ∧ next_gid ts' = next_gid ts + len (frames info)
    ∧ length (tileset_pastes ts')
      = (length (tileset_pastes ts) + length (frames info))%nat
    ∧ (frame_sequence info = None ∨ frame_sequence info = Some [] →
       timeline
       = (fun i => (next_gid ts - 1 + i, duration_ms info))
           <$> range (len (frames info))).
Proof.
  intros Hc playback_order timeline. unfold build_metatile_animation.
  destruct (add_metatile_frames_ok cols (frames info) 0 ∅ ts Hc)
    as (m & ts' & Heq & Hn & Hl & Hm).
  change (Z.of_nat 0) with 0 in Heq. rewrite Heq, bind_Ok.
  fold playback_order.
  assert (Htl : omap (fun seq_idx =>
                  (fun tile_idx => (tile_idx, duration_ms info))
                    <$> m !! seq_idx) playback_order = timeline).
  { unfold timeline. apply omap_ext_elem. intros s _. rewrite (frames_added_lookup _ _ _ s Hm). unfold len.
    by case_bool_decide. }
  rewrite Htl. exists ts'. split.
  { by destruct (bool_decide _ && bool_decide _). }
  split; [done|]. split; [done|].
  intros Hseq. unfold timeline.
  assert (playback_order = range (len (frames info))) as ->.
  { unfold playback_order. by destruct Hseq as [-> | ->]. }
  apply omap_fmap_total. intros s Hs%elem_of_range.
  by rewrite bool_decide_eq_true_2.
Qed.

End MetatileFrames.

Section MetatileFramesExamples.
Import Converter.

Lemma add_metatile_frames_atlas_witness :
  ∃ frame_gid_map ts',
    add_metatile_frames (Image := list byte) 16 [[x01]; [x02]] 0 ∅ (TilesetState (Image := list byte) [] 16)
    = Ok (frame_gid_map, ts')
    ∧ tileset_pastes ts' = [(240, 0, [x01]); (0, 16, [x02])].
Proof.
  destruct (add_metatile_frames_atlas 16 [[x01]; [x02]] (TilesetState (Image := list byte) [] 16))
    as [Hok _].
  destruct (Hok ltac:(lia)) as (m & ts' & Heq & _).
  exists m, ts'. split; [exact Heq|].
  vm_compute in Heq. injection Heq as _ <-. reflexivity.
Defined.

Lemma build_metatile_animation_timeline_witness :
  16 ≠ 0
  ∧ ∃ ts',
      build_metatile_animation 16 {[7]}
        (AnimInfo "flower" [[x01]; [x02]] 150 (Some [0; 1; 0; 5]) 0 4 ∅ true
           7 0)
        (TilesetState [] 16)
      = Ok ([(6, [(15, 150); (16, 150); (15, 150)])], ts').
Proof.
  assert (H : 16 ≠ 0) by lia.
  split; [exact H|].
  destruct (build_metatile_animation_timeline 16 {[7]}
              (AnimInfo "flower" [[x01]; [x02]] 150 (Some [0; 1; 0; 5]) 0 4 ∅
                 true 7 0)
              (TilesetState (Image := list byte) [] 16) H)
    as (ts' & Heq & _).
  exists ts'. exact Heq.
Defined.

End MetatileFramesExamples.

Section StripTiles.
Import Constants Converter.
Context {Image : Type}.
Context (paste : Image → Image → Z * Z → Image).
Context (flip_left_right flip_top_bottom : Image → Image).

(** X18: A tile of a strip animation without a frame sequence is substituted at
    every step: when its ID lies in the [num_tiles] tiles of the animation
    and at least one complete frame is there, the tile index
    [(frame_num % (len(frames) // num_tiles)) * num_tiles + (tile_id - base)]
    is inside [frames], and the composite receives that tile, flipped
    horizontally for flag bit 0 and then vertically for flag bit 1, at
    [((pos % 2) * 8, (pos // 2) * 8)]. *)
Theorem paste_animated_tile_linear (frame_num : Z) (composite : Image)
    (pos : Z) (t : strip_tile Image) :
  st_frame_seq t = None ∨ st_frame_seq t = Some [] →
  0 < st_num_tiles t →
  st_actual_base t <= st_tile_id t < st_actual_base t + st_num_tiles t →
  st_num_tiles t <= len (st_frames t) →
  let frames_per_cycle := len (st_frames t) `div` st_num_tiles t in
  let frame_tile_idx :=
    (frame_num `mod` frames_per_cycle) * st_num_tiles t
    + (st_tile_id t - st_actual_base t) in
  0 <= frame_tile_idx < len (st_frames t)
  ∧ ∃ frame_tile,
      st_frames t !! Z.to_nat frame_tile_idx = Some frame_tile
      ∧ paste_animated_tile paste flip_left_right flip_top_bottom frame_num
          composite pos t
        = Ok (paste composite
                ((if decide (Z.land (st_flip_flags t) 2 ≠ 0)
                  then flip_top_bottom else id)
                   ((if decide (Z.land (st_flip_flags t) 1 ≠ 0)
                     then flip_left_right else id) frame_tile))
                ((pos `mod` 2) * 8, (pos `div` 2) * 8)).
Proof.
  intros Hseq Hn Hid Hlen frames_per_cycle frame_tile_idx.
  assert (Hq : 1 <= frames_per_cycle).
  { unfold frames_per_cycle. apply Z.div_le_lower_bound; lia. }
  assert (Hqn : frames_per_cycle * st_num_tiles t <= len (st_frames t)).
  { unfold frames_per_cycle. rewrite Z.mul_comm. apply Z.mul_div_le. lia. }
  pose proof (Z.mod_pos_bound frame_num frames_per_cycle ltac:(lia)) as Hm.
  assert (Hidx : 0 <= frame_tile_idx < len (st_frames t)).
  { unfold frame_tile_idx. nia. }
  split; [done|].
  destruct (st_frames t !! Z.to_nat frame_tile_idx) as [frame_tile|] eqn:El.
  2:{ apply lookup_ge_None in El. unfold len in Hidx. lia. }
  exists frame_tile. split; [done|].
  unfold paste_animated_tile.
  assert (Haf : actual_frame (st_frame_seq t) (st_frames t) (st_num_tiles t)
                  frame_num = Ok (frame_num `mod` frames_per_cycle)).
  { unfold actual_frame.
    assert (Hdef : (if (st_num_tiles t >? 0) && (len (st_frames t) >? 0)
                    then fpc ← py_floordiv (len (st_frames t)) (st_num_tiles t);
                         if fpc >? 0 then py_mod frame_num fpc else Ok 0
                    else Ok 0) = Ok (frame_num `mod` frames_per_cycle)).
    { destruct (st_num_tiles t >? 0) eqn:E1; [|lia].
      destruct (len (st_frames t) >? 0) eqn:E2; [|lia]. cbn [andb].
      unfold py_floordiv. rewrite decide_False by lia. rewrite bind_Ok.
      fold frames_per_cycle.
      destruct (frames_per_cycle >? 0) eqn:E3; [|lia].
      unfold py_mod. by rewrite decide_False by lia. }
    by destruct Hseq as [-> | ->]. }
  rewrite Haf, bind_Ok. fold frame_tile_idx.
  destruct (0 <=? frame_tile_idx) eqn:E1; [|lia].
  destruct (frame_tile_idx <? len (st_frames t)) eqn:E2; [|lia].
  cbn [andb]. unfold getitem.
  destruct (frame_tile_idx <? 0) eqn:E3; [lia|]. rewrite E3, El, bind_Ok.
  unfold FLIP_HORIZONTAL, FLIP_VERTICAL.
  by destruct (decide (Z.land (st_flip_flags t) 1 ≠ 0)),
              (decide (Z.land (st_flip_flags t) 2 ≠ 0)).
Qed.

Lemma dict_set_keys {V : Type} (d : list (Z * V)) (k : Z) (v : V) :
  (dict_set d k v).*1 = if decide (k ∈ d.*1) then d.*1 else d.*1 ++ [k].
Proof.
  induction d as [|[k' v'] d IH]; [done|].
  cbn [dict_set]. destruct (decide (k' = k)) as [->|Hne].
  - cbn. rewrite decide_True by left. done.
  - cbn. rewrite IH. destruct (decide (k ∈ d.*1)) as [Hin|Hin].
    + rewrite decide_True by (by right). done.
    + rewrite decide_False; [done|].
      intros [Heq|Hin']%elem_of_cons; [by destruct Hne|done].
Qed.

Lemma dict_set_NoDup {V : Type} (d : list (Z * V)) (k : Z) (v : V) :
  NoDup (d.*1) → NoDup ((dict_set d k v).*1).
Proof.
  intros Hd. rewrite dict_set_keys. destruct (decide (k ∈ d.*1)); [done|].
  apply NoDup_app. split; [done|]. split; [|apply NoDup_singleton].
  intros x Hx ->%list_elem_of_singleton. done.
Qed.

Lemma elem_of_dict_set {V : Type} (d : list (Z * V)) (k : Z) (v : V)
    (e : Z * V) :
  e ∈ dict_set d k v → e = (k, v) ∨ e ∈ d.
Proof.
  induction d as [|[k' v'] d IH]; cbn [dict_set].
  - intros ->%list_elem_of_singleton. by left.
  - destruct (decide (k' = k)).
    + intros [->|H]%elem_of_cons; [by left|right; by right].
    + intros [->|H]%elem_of_cons; [right; left|].
      destruct (IH H) as [->|?]; [by left|right; by right].
Qed.

Lemma is_ok_getitem {A : Type} (l : list A) (i : Z) :
  is_ok (getitem l i) = true ↔ - len l <= i < len l.
Proof.
  unfold getitem, len. destruct (i <? 0) eqn:E.
  - destruct (i + Z.of_nat (length l) <? 0) eqn:E2; [cbn; split; [done|lia]|].
    destruct (l !! Z.to_nat (i + Z.of_nat (length l))) eqn:El.
    + cbn. split; [lia|done].
    + apply lookup_ge_None in El. lia.
  - rewrite E. destruct (l !! Z.to_nat i) eqn:El.
    + apply lookup_lt_Some in El. cbn. split; [lia|done].
    + apply lookup_ge_None in El. cbn. split; [done|lia].
Qed.

(** What an entry of [all_bottom_tiles] (key [pos]) or of [all_top_tiles]
    (key [pos - 4]) records: the animation of an entry of the list at
    position [pos] whose tile there is in the animated range. *)
Lemma collect_strip_tiles_inv (metatile_tiles : list (Z * Z * Z))
    (l : list (anim_info Image)) (c c' : strip_tiles Image)
    (P : Z → strip_tile Image → Prop) :
  (∀ info flip palette tile_id, info ∈ l →
     getitem metatile_tiles (orig_tile_position info)
       = Ok (tile_id, flip, palette) →
     tile_id ∈ animated_tile_range info →
     P (orig_tile_position info)
       (StripTile tile_id flip (anim_name info) (frames info)
          (actual_base_tile_id info) (num_tiles info) (frame_sequence info)
          (duration_ms info))) →
  collect_strip_tiles metatile_tiles c l = Ok c' →
  NoDup (all_bottom_tiles c).*1 → NoDup (all_top_tiles c).*1 →
  (∀ k t, (k, t) ∈ all_bottom_tiles c → k < 4 ∧ P k t) →
  (∀ k t, (k, t) ∈ all_top_tiles c → 0 <= k ∧ P (k + 4) t) →
  NoDup (all_bottom_tiles c').*1 ∧ NoDup (all_top_tiles c').*1
  ∧ (∀ k t, (k, t) ∈ all_bottom_tiles c' → k < 4 ∧ P k t)
  ∧ (∀ k t, (k, t) ∈ all_top_tiles c' → 0 <= k ∧ P (k + 4) t).
Proof.
  revert c. induction l as [|info l IH]; intros c HP Heq Hnb Hnt Hb Ht.
  { cbn in Heq. injection Heq as <-. done. }
  cbn [collect_strip_tiles] in Heq.
  destruct (collect_strip_tile metatile_tiles c info) as [c1|] eqn:E1;
    [|done].
  rewrite bind_Ok in Heq.
  apply (IH c1);
    [intros i f p tid Hi Hgi Hri; apply (HP i f p tid); [by right|done|done]
    |done| | | |];
    unfold collect_strip_tile in E1;
    destruct (orig_tile_position info <? 4) eqn:Epos;
    destruct (getitem metatile_tiles (orig_tile_position info))
      as [[[tile_id flip] palette]|] eqn:Eg; try done;
    rewrite bind_Ok in E1;
    destruct (decide (tile_id ∈ animated_tile_range info)) as [Hin|Hin];
    injection E1 as <-; cbn; try done.
  - by apply dict_set_NoDup.
  - by apply dict_set_NoDup.
  - intros k t [[= -> ->]|H]%elem_of_dict_set; [|by apply Hb].
    split; [lia|]. apply (HP info flip palette tile_id); [left|done|done].
  - intros k t [[= -> ->]|H]%elem_of_dict_set; [|by apply Ht].
    split; [lia|]. replace (orig_tile_position info - 4 + 4)
      with (orig_tile_position info) by lia.
    apply (HP info flip palette tile_id); [left|done|done].
Qed.

Lemma collect_strip_tiles_is_ok (metatile_tiles : list (Z * Z * Z))
    (l : list (anim_info Image)) (c : strip_tiles Image) :
  is_ok (collect_strip_tiles metatile_tiles c l) = true
  ↔ ∀ info, info ∈ l →
      - len metatile_tiles <= orig_tile_position info < len metatile_tiles.
Proof.
  revert c. induction l as [|info l IH]; intros c.
  { cbn. split; [|done]. intros _ info H. by apply elem_of_nil in H. }
  cbn [collect_strip_tiles].
  pose proof (is_ok_getitem metatile_tiles (orig_tile_position info)) as Hg.
  assert (Hstep : ((∃ c1, collect_strip_tile metatile_tiles c info = Ok c1)
                   ∧ is_ok (getitem metatile_tiles
                              (orig_tile_position info)) = true)
                  ∨ (collect_strip_tile metatile_tiles c info
                       = Raise IndexError
                     ∧ is_ok (getitem metatile_tiles
                                (orig_tile_position info)) = false)).
  { unfold collect_strip_tile.
    assert (He : ∀ e, getitem metatile_tiles (orig_tile_position info)
                      = Raise e → e = IndexError).
    { unfold getitem. intros e.
      repeat (match goal with |- context [if ?b then _ else _] =>
                destruct b end); try (by intros [= <-]).
      all: destruct (_ !! _); by intros [= <-]. }
    destruct (getitem metatile_tiles (orig_tile_position info))
      as [[[tile_id flip] palette]|e] eqn:Eg.
    - left. split; [|done].
      destruct (orig_tile_position info <? 4); rewrite bind_Ok;
        destruct (decide (tile_id ∈ animated_tile_range info)); by eexists.
    - right. rewrite (He e eq_refl).
      by destruct (orig_tile_position info <? 4). }
  destruct Hstep as [((c1 & ->) & Hgood)|(-> & Hbad)].
  - rewrite bind_Ok, IH. split.
    + intros H x [->|Hx]%elem_of_cons; [|by apply H].
      by apply Hg.
    + intros H x Hx. apply H. by right.
  - cbn. split; [done|]. intros H.
    rewrite (proj2 Hg) in Hbad; [done|]. apply H. left.
Qed.

(** X19: The collection loop of the tile-strip branch raises [IndexError]
    exactly when an entry's position is outside the metatile's tile list
    (negative positions count from the end); otherwise each of the two
    dictionaries has one entry per key, a bottom key is the position (below
    4), a top key the position minus 4 (not negative), and every entry
    records the tile found at that position, which is in the animated range
    of the entry of the list that it was taken from. *)
Theorem collect_strip_tiles_positions (metatile_tiles : list (Z * Z * Z))
    (l : list (anim_info Image)) :
  let recorded (pos : Z) (t : strip_tile Image) :=
    ∃ info tile_id flip palette,
      info ∈ l ∧ orig_tile_position info = pos
      ∧ getitem metatile_tiles pos = Ok (tile_id, flip, palette)
      ∧ tile_id ∈ animated_tile_range info
      ∧ t = StripTile tile_id flip (anim_name info) (frames info)
              (actual_base_tile_id info) (num_tiles info)
              (frame_sequence info) (duration_ms info) in
  (is_ok (collect_strip_tiles metatile_tiles no_strip_tiles l) = true
   ↔ ∀ info, info ∈ l →
       - len metatile_tiles <= orig_tile_position info < len metatile_tiles)
  ∧ ∀ c', collect_strip_tiles metatile_tiles no_strip_tiles l = Ok c' →
      NoDup (all_bottom_tiles c').*1 ∧ NoDup (all_top_tiles c').*1
      ∧ (∀ pos t, (pos, t) ∈ all_bottom_tiles c' →
           - len metatile_tiles <= pos < 4 ∧ recorded pos t)
      ∧ (∀ k t, (k, t) ∈ all_top_tiles c' →
           0 <= k ∧ k + 4 < len metatile_tiles ∧ recorded (k + 4) t).
Proof.
  intros recorded. split; [apply collect_strip_tiles_is_ok|].
  intros c' Heq.
  assert (Hrange : ∀ pos t, recorded pos t →
            - len metatile_tiles <= pos < len metatile_tiles).
  { intros pos t (info & tile_id & flip & palette & _ & _ & Hg & _).
    apply is_ok_getitem. by rewrite Hg. }
  destruct (collect_strip_tiles_inv metatile_tiles l no_strip_tiles c'
              recorded) as (Hnb & Hnt & Hb & Ht).
  - intros info flip palette tile_id Hin Hg Hr.
    by exists info, tile_id, flip, palette.
  - done.
  - constructor.
  - constructor.
  - intros k t H. by apply elem_of_nil in H.
  - intros k t H. by apply elem_of_nil in H.
  - split; [done|]. split; [done|]. split.
    + intros pos t [Hlt Hrec]%Hb. pose proof (Hrange _ _ Hrec). split; [lia|done].
    + intros k t [Hge Hrec]%Ht. pose proof (Hrange _ _ Hrec).
      split; [done|]. split; [lia|done].
Qed.

End StripTiles.

Section StripTilesExamples.
Import Converter.

Lemma paste_animated_tile_linear_witness :
  paste_animated_tile px_paste (fun img => x0f :: img) (fun img => xf0 :: img)
    3 [x00] 1
    (StripTile 433 1 "water" [[x01]; [x02]; [x03]; [x04]] 432 2 None 200)
  = Ok [x0f; x04].
Proof.
  destruct (paste_animated_tile_linear px_paste
              (fun img => x0f :: img) (fun img => xf0 :: img) 3 [x00] 1
              (StripTile 433 1 "water" [[x01]; [x02]; [x03]; [x04]] 432 2
                 None 200))
    as (_ & frame_tile & Hf & Heq).
  - by left.
  - cbn. lia.
  - cbn. lia.
  - vm_compute. discriminate.
  - vm_compute in Hf. injection Hf as <-. exact Heq.
Defined.

Lemma collect_strip_tiles_positions_witness :
  collect_strip_tiles tiles_a no_strip_tiles [info_a]
  = Ok (StripTiles []
          [(0, StripTile 432 0 "water" [[x01]; [x02]] 432 1 (Some [0; 1]) 200)]
          ∅ {[2]})
  ∧ NoDup [0].
Proof.
  assert (H : collect_strip_tiles tiles_a no_strip_tiles [info_a]
    = Ok (StripTiles []
            [(0, StripTile 432 0 "water" [[x01]; [x02]] 432 1 (Some [0; 1])
                   200)]
            ∅ {[2]})) by (vm_compute; reflexivity).
  split; [exact H|].
  destruct (collect_strip_tiles_positions tiles_a [info_a]) as [_ Hc].
  destruct (Hc _ H) as (_ & Hnd & _). exact Hnd.
Defined.

End StripTilesExamples.

Section FrameTiles.
Import AnimationScanner.
Context {Image : Type}.
Context (crop : Image → Z * Z * Z * Z → Image) (new_tile : Image).

Lemma range_lookup_Z (n i : Z) :
  0 <= i < n → range n !! Z.to_nat i = Some i.
Proof.
  intros Hi. rewrite range_lookup, decide_True by lia. f_equal. lia.
Qed.

Lemma len_range (n : Z) : len (range n) = Z.max 0 n.
Proof. unfold len, range. rewrite length_fmap, length_seq. lia. Qed.

(** X20: [extract_tiles_from_frame] returns a 16 x 16 frame whole, and otherwise
    [num_tiles] tiles.  For a frame of at least 8 x 8 pixels, tile [i] is
    the 8 x 8 cell [i] of the frame in row-major order, [width // 8] cells
    per row, cropped inside the frame, as long as [i] is below the number of
    complete cells; the tiles from there on are blank. *)
Theorem extract_tiles_from_frame_layout (frame_img : Image)
    (width height num_tiles : Z) :
  let tiles :=
    extract_tiles_from_frame crop new_tile frame_img width height num_tiles in
  (width = 16 ∧ height = 16 → tiles = [frame_img])
  ∧ (¬ (width = 16 ∧ height = 16) → len tiles = Z.max 0 num_tiles)
  ∧ (¬ (width = 16 ∧ height = 16) → 8 <= width → 8 <= height →
     ∀ i, 0 <= i < num_tiles →
       let x := (i `mod` (width `div` 8)) * 8 in
       let y := (i `div` (width `div` 8)) * 8 in
       if i <? (width `div` 8) * (height `div` 8)
       then tiles !! Z.to_nat i = Some (crop frame_img (x, y, x + 8, y + 8))
            ∧ 0 <= x ∧ x + 8 <= width ∧ 0 <= y ∧ y + 8 <= height
       else tiles !! Z.to_nat i = Some new_tile).
Proof.
  cbn zeta. unfold extract_tiles_from_frame.
  split; [|split].
  - intros [-> ->]. done.
  - intros Hne.
    destruct (bool_decide (width = 16) && bool_decide (height = 16)) eqn:E.
    { apply andb_prop in E as [E1%bool_decide_eq_true E2%bool_decide_eq_true].
      tauto. }
    set (tpr := if width >=? 8 then width `div` 8 else 1).
    set (tpc := if height >=? 8 then height `div` 8 else 1).
    assert (Hlen : ∀ (f : Z → Image) n, len (f <$> range n) = Z.max 0 n).
    { intros f n. unfold len. rewrite length_fmap. apply len_range. }
    destruct (bool_decide (tpr = 1) && (tpc >=? num_tiles)); [apply Hlen|].
    destruct (bool_decide (tpc = 1) && (tpr >=? num_tiles)); [apply Hlen|].
    destruct (tpr * tpc >=? num_tiles) eqn:Eg.
    { rewrite orb_true_r. apply Hlen. }
    assert ((bool_decide (tpr = 2) && false) || false = false) as ->
      by (by destruct (bool_decide (tpr = 2))).
    rewrite Hlen. unfold len. rewrite length_app, length_replicate.
    fold (len ((fun i : Z =>
      crop frame_img ((i `mod` tpr) * 8, (i `div` tpr) * 8,
                      (i `mod` tpr) * 8 + 8, (i `div` tpr) * 8 + 8))
      <$> range (Z.min num_tiles (tpr * tpc)))).
    rewrite Nat2Z.inj_add.
    fold (len ((fun i : Z =>
      crop frame_img ((i `mod` tpr) * 8, (i `div` tpr) * 8,
                      (i `mod` tpr) * 8 + 8, (i `div` tpr) * 8 + 8))
      <$> range (Z.min num_tiles (tpr * tpc)))).
    rewrite Hlen. lia.
  - intros Hne Hw Hh i Hi.
    destruct (bool_decide (width = 16) && bool_decide (height = 16)) eqn:E.
    { apply andb_prop in E as [E1%bool_decide_eq_true E2%bool_decide_eq_true].
      tauto. }
    destruct (width >=? 8) eqn:Ew; [|lia].
    destruct (height >=? 8) eqn:Eh; [|lia].
    set (tpr := width `div` 8). set (tpc := height `div` 8).
    assert (Htpr : 1 <= tpr) by (apply Z.div_le_lower_bound; lia).
    assert (Htpc : 1 <= tpc) by (apply Z.div_le_lower_bound; lia).
    assert (Hw8 : 8 * tpr <= width) by (apply Z.mul_div_le; lia).
    assert (Hh8 : 8 * tpc <= height) by (apply Z.mul_div_le; lia).
    pose proof (Z.mod_pos_bound i tpr ltac:(lia)) as Hm.
    assert (Hq : 0 <= i `div` tpr) by (apply Z.div_pos; lia).
    assert (Hrow : i < tpr * tpc → i `div` tpr < tpc).
    { intros H. apply Z.div_lt_upper_bound; lia. }
    assert (Hlook : ∀ (f : Z → Image), (f <$> range num_tiles) !! Z.to_nat i
                                      = Some (f i)).
    { intros f. rewrite list_lookup_fmap, range_lookup_Z by done. done. }
    destruct (bool_decide (tpr = 1) && (tpc >=? num_tiles)) eqn:E1.
    { apply andb_prop in E1 as [E1%bool_decide_eq_true E1'].
      rewrite Hlook. rewrite E1 in *.
      destruct (i <? 1 * tpc) eqn:Ei; [|lia].
      rewrite Z.mod_1_r, Z.div_1_r.
      destruct (i * 8 + 8 <=? height) eqn:Ey; [|lia].
      split; [done|]. lia. }
    destruct (bool_decide (tpc = 1) && (tpr >=? num_tiles)) eqn:E2.
    { apply andb_prop in E2 as [E2%bool_decide_eq_true E2'].
      rewrite Hlook. rewrite E2 in *.
      destruct (i <? tpr * 1) eqn:Ei; [|lia].
      rewrite Z.mod_small, Z.div_small by lia.
      destruct (i * 8 + 8 <=? width) eqn:Ex; [|lia].
      split; [done|]. lia. }
    destruct (tpr * tpc >=? num_tiles) eqn:Eg.
    { rewrite orb_true_r, Hlook.
      destruct (i <? tpr * tpc) eqn:Ei; [|lia].
      specialize (Hrow ltac:(lia)).
      destruct ((i `mod` tpr) * 8 + 8 <=? width) eqn:Ex; [|lia].
      destruct ((i `div` tpr) * 8 + 8 <=? height) eqn:Ey; [|lia].
      split; [done|]. lia. }
    assert ((bool_decide (tpr = 2) && false) || false = false) as ->
      by (by destruct (bool_decide (tpr = 2))).
    assert (Hmin : Z.min num_tiles (tpr * tpc) = tpr * tpc) by lia.
    rewrite Hmin.
    set (f := fun i => crop frame_img
                 ((i `mod` tpr) * 8, (i `div` tpr) * 8,
                  (i `mod` tpr) * 8 + 8, (i `div` tpr) * 8 + 8)).
    assert (Hl : length (f <$> range (tpr * tpc)) = Z.to_nat (tpr * tpc)).
    { unfold range. by rewrite !length_fmap, length_seq. }
    destruct (i <? tpr * tpc) eqn:Ei.
    + specialize (Hrow ltac:(lia)).
      rewrite lookup_app_l by lia.
      rewrite list_lookup_fmap, range_lookup_Z by lia.
      split; [done|]. lia.
    + rewrite lookup_app_r by lia.
      apply lookup_replicate_2. unfold len. rewrite Hl. lia.
Qed.

End FrameTiles.

Section FrameTilesExamples.
Import AnimationScanner.

Lemma extract_tiles_from_frame_layout_witness :
  extract_tiles_from_frame (fun img box => box :: img) [] [] 16 16 30 = [[]]
  ∧ extract_tiles_from_frame (fun img box => box :: img) [] [] 16 120 30
      !! Z.to_nat 3 = Some [(8, 8, 16, 16)].
Proof.
  destruct (extract_tiles_from_frame_layout
              (fun (img : list (Z * Z * Z * Z)) box => box :: img) [] []
              16 16 30) as (Hwhole & _).
  split; [apply Hwhole; split; reflexivity|].
  destruct (extract_tiles_from_frame_layout
              (fun (img : list (Z * Z * Z * Z)) box => box :: img) [] []
              16 120 30) as (_ & _ & Hcell).
  assert (Hne : ¬ (16 = 16 ∧ 120 = 16)) by (intros [_ H]; discriminate H).
  exact (proj1 (Hcell Hne ltac:(lia) ltac:(lia) 3 ltac:(lia))).
Defined.

End FrameTilesExamples.

Section WorldCoordinates.
Import FixWorldCoordinates.

Lemma find_entry_Some (name : string) (maps : list map_entry) (i j : nat)
    (m : map_entry) :
  find_entry name maps i = Some (j, m) →
  (i <= j)%nat ∧ maps !! (j - i)%nat = Some m ∧ map_name m = name.
Proof.
  revert i. induction maps as [|a maps IH]; intros i; [done|].
  cbn [find_entry].
  destruct (find_entry name maps (S i)) as [[j' m']|] eqn:E.
  - intros [= -> ->]. destruct (IH _ E) as (Hle & Hl & Hn).
    split; [lia|]. split; [|done].
    replace (j - i)%nat with (S (j - S i)) by lia. done.
  - destruct (decide (map_name a = name)); [|done].
    intros [= <- <-]. split; [done|]. by rewrite Nat.sub_diag.
Qed.

Lemma find_entry_insert (name : string) (maps : list map_entry) (i k : nat)
    (m0 m' : map_entry) :
  maps !! k = Some m0 → map_name m' = map_name m0 →
  find_entry name (<[k := m']> maps) i
  = (fun p : nat * map_entry =>
       if decide (p.1 = (i + k)%nat) then (p.1, m') else p)
      <$> find_entry name maps i.
Proof.
  revert i k. induction maps as [|a maps IH]; intros i k Hk Hn; [done|].
  destruct k as [|k].
  - injection Hk as ->.
    change (<[0%nat := m']> (m0 :: maps)) with (m' :: maps).
    cbn [find_entry].
    destruct (find_entry name maps (S i)) as [[j m]|] eqn:E.
    + cbn. apply find_entry_Some in E as (Hle & _).
      rewrite decide_False by lia. done.
    + rewrite Hn. destruct (decide (map_name m0 = name)); [|done].
      cbn. rewrite decide_True by lia. done.
  - cbn in Hk.
    change (<[S k := m']> (a :: maps)) with (a :: <[k := m']> maps).
    cbn [find_entry].
    rewrite (IH (S i) k Hk Hn).
    destruct (find_entry name maps (S i)) as [[j m]|] eqn:E.
    + cbn [fmap option_fmap option_map fst].
      destruct (decide (j = (S i + k)%nat)), (decide (j = (i + S k)%nat));
        try done; lia.
    + cbn. destruct (decide (map_name a = name)); [|done].
      cbn. rewrite decide_False by lia. done.
Qed.

Lemma find_entry_set_y (name name0 : string) (maps : list map_entry)
    (j : nat) (m : map_entry) (y : Z) :
  find_entry name0 maps 0 = Some (j, m) →
  find_entry name (<[j := set_y m y]> maps) 0
  = if decide (name = name0) then Some (j, set_y m y)
    else find_entry name maps 0.
Proof.
  intros Hf. destruct (find_entry_Some _ _ _ _ _ Hf) as (_ & Hl & Hn).
  rewrite Nat.sub_0_r in Hl.
  rewrite (find_entry_insert name maps 0 j m (set_y m y) Hl eq_refl).
  destruct (decide (name = name0)) as [->|Hne].
  - rewrite Hf. cbn. by rewrite decide_True.
  - destruct (find_entry name maps 0) as [[j2 m2]|] eqn:E2; [|done].
    cbn. destruct (decide (j2 = j)) as [->|]; [|done].
    destruct (find_entry_Some _ _ _ _ _ E2) as (_ & Hl2 & Hn2).
    rewrite Nat.sub_0_r in Hl2. congruence.
Qed.

Lemma insert_set_y_fields (maps : list map_entry) (j : nat) (m : map_entry)
    (y : Z) :
  maps !! j = Some m →
  map_name <$> <[j := set_y m y]> maps = map_name <$> maps
  ∧ map_x <$> <[j := set_y m y]> maps = map_x <$> maps
  ∧ length (<[j := set_y m y]> maps) = length maps
  ∧ (∀ i e, maps !! i = Some e → map_name e ≠ map_name m →
       <[j := set_y m y]> maps !! i = Some e)
  ∧ (map_y m ≠ y → <[j := set_y m y]> maps ≠ maps).
Proof.
  intros Hl. split; [|split; [|split; [|split]]].
  - rewrite list_fmap_insert. cbn. by apply list_insert_id, list_lookup_fmap_Some_2.
  - rewrite list_fmap_insert. cbn. apply list_insert_id.
    rewrite list_lookup_fmap, Hl. done.
  - by rewrite length_insert.
  - intros i e He Hne. rewrite list_lookup_insert_ne; [done|].
    intros <-. congruence.
  - intros Hy Heq.
    assert (<[j := set_y m y]> maps !! j = Some (set_y m y)).
    { apply list_lookup_insert_eq. by eapply lookup_lt_Some. }
    rewrite Heq, Hl in H. injection H as H. apply Hy. by rewrite H.
Qed.

Lemma fix_world_coordinates_cases (maps : list map_entry) :
  ∃ maps1 f1 maps2 f2,
    fix_world_coordinates maps = (maps2, f1 ++ f2)
    ∧ ((maps1 = maps ∧ f1 = []
        ∧ ∀ i d j r, find_entry "dewford_town" maps 0 = Some (i, d) →
            find_entry "route107" maps 0 = Some (j, r) →
            Z.abs (map_y d - map_y r) ≠ 32)
       ∨ ∃ i d j r,
           find_entry "dewford_town" maps 0 = Some (i, d)
           ∧ find_entry "route107" maps 0 = Some (j, r)
           ∧ Z.abs (map_y d - map_y r) = 32
           ∧ maps1 = <[j := set_y r (map_y d)]> maps ∧ f1 = ["route107"])
    ∧ ((maps2 = maps1 ∧ f2 = []
        ∧ ∀ k r4 i r5, find_entry "route114" maps1 0 = Some (k, r4) →
            find_entry "route115" maps1 0 = Some (i, r5) →
            Z.abs (map_y r5 - map_y r4) = 320)
       ∨ ∃ k r4 i r5,
           find_entry "route114" maps1 0 = Some (k, r4)
           ∧ find_entry "route115" maps1 0 = Some (i, r5)
           ∧ Z.abs (map_y r5 - map_y r4) ≠ 320
           ∧ maps2 = <[k := set_y r4 (map_y r5 + 320)]> maps1
           ∧ f2 = ["route114"]).
Proof.
  unfold fix_world_coordinates.
  set (s1 := match find_entry "dewford_town" maps 0,
                   find_entry "route107" maps 0 with
             | Some (_, dewford), Some (j, route107) =>
                 if decide (Z.abs (map_y dewford - map_y route107) = 32)
                 then (<[j := set_y route107 (map_y dewford)]> maps,
                       ["route107"])
                 else (maps, [])
             | _, _ => (maps, [])
             end).
  assert (H1 : (s1 = (maps, [])
        ∧ ∀ i d j r, find_entry "dewford_town" maps 0 = Some (i, d) →
            find_entry "route107" maps 0 = Some (j, r) →
            Z.abs (map_y d - map_y r) ≠ 32)
       ∨ ∃ i d j r,
           find_entry "dewford_town" maps 0 = Some (i, d)
           ∧ find_entry "route107" maps 0 = Some (j, r)
           ∧ Z.abs (map_y d - map_y r) = 32
           ∧ s1 = (<[j := set_y r (map_y d)]> maps, ["route107"])).
  { unfold s1.
    destruct (find_entry "dewford_town" maps 0) as [[i d]|];
      [|left; split; [done|]; intros; done].
    destruct (find_entry "route107" maps 0) as [[j r]|];
      [|left; split; [done|]; intros; done].
    destruct (decide (Z.abs (map_y d - map_y r) = 32)) as [Heq|Hne].
    - right. by exists i, d, j, r.
    - left. split; [done|]. by intros ? ? ? ? [= <- <-] [= <- <-]. }
  destruct s1 as [maps1 f1].
  exists maps1, f1.
  assert (H2 : ∃ maps2 f2,
    match find_entry "route114" maps1 0, find_entry "route115" maps1 0 with
    | Some (j, route114), Some (_, route115) =>
        let expected_offset := 320 in
        let actual_offset := Z.abs (map_y route115 - map_y route114) in
        if decide (actual_offset ≠ expected_offset) then
          let correct_y := map_y route115 + expected_offset in
          if decide (map_y route114 ≠ correct_y)
          then (<[j := set_y route114 correct_y]> maps1, f1 ++ ["route114"])
          else (maps1, f1)
        else (maps1, f1)
    | _, _ => (maps1, f1)
    end = (maps2, f1 ++ f2)
    ∧ ((maps2 = maps1 ∧ f2 = []
        ∧ ∀ k r4 i r5, find_entry "route114" maps1 0 = Some (k, r4) →
            find_entry "route115" maps1 0 = Some (i, r5) →
            Z.abs (map_y r5 - map_y r4) = 320)
       ∨ ∃ k r4 i r5,
           find_entry "route114" maps1 0 = Some (k, r4)
           ∧ find_entry "route115" maps1 0 = Some (i, r5)
           ∧ Z.abs (map_y r5 - map_y r4) ≠ 320
           ∧ maps2 = <[k := set_y r4 (map_y r5 + 320)]> maps1
           ∧ f2 = ["route114"])).
  { destruct (find_entry "route114" maps1 0) as [[k r4]|];
      [|exists maps1, []; rewrite app_nil_r; split; [done|]; left;
        split; [done|]; split; [done|]; intros; done].
    destruct (find_entry "route115" maps1 0) as [[i r5]|];
      [|exists maps1, []; rewrite app_nil_r; split; [done|]; left;
        split; [done|]; split; [done|]; intros; done].
    cbn zeta.
    destruct (decide (Z.abs (map_y r5 - map_y r4) ≠ 320)) as [Hne|Heq].
    - rewrite decide_True by lia.
      exists (<[k := set_y r4 (map_y r5 + 320)]> maps1), ["route114"].
      split; [done|]. right. by exists k, r4, i, r5.
    - exists maps1, []. rewrite app_nil_r. split; [done|]. left.
      split; [done|]. split; [done|].
      intros ? ? ? ? [= <- <-] [= <- <-].
      destruct (decide (Z.abs (map_y r5 - map_y r4) = 320)); [done|].
      by destruct Heq. }
  destruct H2 as (maps2 & f2 & Heq & H2).
  exists maps2, f2. split; [exact Heq|]. split; [|exact H2].
  destruct H1 as [([= -> ->] & H1)|(i & d & j & r & Hd & Hr & Habs & [= -> ->])].
  - by left.
  - right. by exists i, d, j, r.
Qed.

(** X21: [fix_world_coordinates] only moves maps vertically: it keeps the order,
    the names and the x coordinates of the list, and every entry other than
    the (last) [route107] and [route114] ones.  In the list it writes back,
    [route114] and [route115], when both are there, are exactly 320 pixels
    apart in y, and [dewford_town] and [route107] are never 32 pixels apart.
    It reports no fix exactly when the list is unchanged, and running it on
    its own output changes nothing and reports no fix. *)
Theorem fix_world_coordinates_fixed_point (maps : list map_entry) :
  let maps' := (fix_world_coordinates maps).1 in
  let fixes_applied := (fix_world_coordinates maps).2 in
  map_name <$> maps' = map_name <$> maps
  ∧ map_x <$> maps' = map_x <$> maps
  ∧ (∀ i e, maps !! i = Some e →
       map_name e ≠ "route107" → map_name e ≠ "route114" →
       maps' !! i = Some e)
  ∧ (∀ k route114 i route115,
       find_entry "route114" maps' 0 = Some (k, route114) →
       find_entry "route115" maps' 0 = Some (i, route115) →
       Z.abs (map_y route115 - map_y route114) = 320)
  ∧ (∀ i dewford j route107,
       find_entry "dewford_town" maps' 0 = Some (i, dewford) →
       find_entry "route107" maps' 0 = Some (j, route107) →
       Z.abs (map_y dewford - map_y route107) ≠ 32)
  ∧ (fixes_applied = [] ↔ maps' = maps)
  ∧ fix_world_coordinates maps' = (maps', []).
Proof.
  cbn zeta.
  destruct (fix_world_coordinates_cases maps)
    as (maps1 & f1 & maps2 & f2 & Heq & H1 & H2).
  rewrite Heq. cbn [fst snd].
  (* the lookups by name after each step *)
  assert (A : ∀ name, name ≠ "route107" →
            find_entry name maps1 0 = find_entry name maps 0).
  { intros name Hn.
    destruct H1 as [(-> & _)|(i & d & j & r & _ & Hr & _ & -> & _)]; [done|].
    rewrite (find_entry_set_y name "route107" maps j r _ Hr).
    by rewrite decide_False. }
  assert (B : ∀ name, name ≠ "route114" →
            find_entry name maps2 0 = find_entry name maps1 0).
  { intros name Hn.
    destruct H2 as [(-> & _)|(k & r4 & i & r5 & Hr4 & _ & _ & -> & _)]; [done|].
    rewrite (find_entry_set_y name "route114" maps1 k r4 _ Hr4).
    by rewrite decide_False. }
  assert (P4 : ∀ k route114 i route115,
       find_entry "route114" maps2 0 = Some (k, route114) →
       find_entry "route115" maps2 0 = Some (i, route115) →
       Z.abs (map_y route115 - map_y route114) = 320).
  { intros k' r4' i' r5'. rewrite (B "route115") by done.
    destruct H2 as [(-> & _ & Hno)|(k & r4 & i & r5 & Hr4 & Hr5 & _ & -> & _)].
    - apply Hno.
    - rewrite (find_entry_set_y "route114" "route114" maps1 k r4 _ Hr4).
      rewrite decide_True by done. rewrite Hr5.
      intros [= <- <-] [= <- <-]. cbn. lia. }
  assert (P5 : ∀ i dewford j route107,
       find_entry "dewford_town" maps2 0 = Some (i, dewford) →
       find_entry "route107" maps2 0 = Some (j, route107) →
       Z.abs (map_y dewford - map_y route107) ≠ 32).
  { intros i' d' j' r'. rewrite !B by done. rewrite (A "dewford_town") by done.
    destruct H1 as [(-> & _ & Hno)|(i & d & j & r & Hd & Hr & _ & -> & _)].
    - apply Hno.
    - rewrite (find_entry_set_y "route107" "route107" maps j r _ Hr).
      rewrite decide_True by done. rewrite Hd.
      intros [= <- <-] [= <- <-]. cbn. lia. }
  (* the entries *)
  assert (F1 : map_name <$> maps1 = map_name <$> maps
               ∧ map_x <$> maps1 = map_x <$> maps
               ∧ (∀ i e, maps !! i = Some e → map_name e ≠ "route107" →
                    maps1 !! i = Some e)
               ∧ (f1 = [] ↔ maps1 = maps)).
  { destruct H1 as [(-> & -> & _)|(i & d & j & r & _ & Hr & Habs & -> & ->)];
      [done|].
    destruct (find_entry_Some _ _ _ _ _ Hr) as (_ & Hl & Hn).
    rewrite Nat.sub_0_r in Hl.
    destruct (insert_set_y_fields maps j r (map_y d) Hl)
      as (Hnames & Hxs & _ & Hoth & Hdiff).
    split; [done|]. split; [done|]. split.
    - intros i' e He Hne. apply Hoth; [done|]. by rewrite Hn.
    - split; [done|]. intros Hsame. exfalso. apply Hdiff; [lia|done]. }
  assert (F2 : map_name <$> maps2 = map_name <$> maps1
               ∧ map_x <$> maps2 = map_x <$> maps1
               ∧ (∀ i e, maps1 !! i = Some e → map_name e ≠ "route114" →
                    maps2 !! i = Some e)
               ∧ (f2 = [] ↔ maps2 = maps1)).
  { destruct H2 as [(-> & -> & _)|(k & r4 & i & r5 & Hr4 & _ & Habs & -> & ->)];
      [done|].
    destruct (find_entry_Some _ _ _ _ _ Hr4) as (_ & Hl & Hn).
    rewrite Nat.sub_0_r in Hl.
    destruct (insert_set_y_fields maps1 k r4 (map_y r5 + 320) Hl)
      as (Hnames & Hxs & _ & Hoth & Hdiff).
    split; [done|]. split; [done|]. split.
    - intros i' e He Hne. apply Hoth; [done|]. by rewrite Hn.
    - split; [done|]. intros Hsame. exfalso. apply Hdiff; [lia|done]. }
  destruct F1 as (N1 & X1 & O1 & E1). destruct F2 as (N2 & X2 & O2 & E2).
  split; [congruence|]. split; [congruence|].
  split; [intros i e He H7 H4; apply O2; [by apply O1|done]|].
  split; [exact P4|]. split; [exact P5|].
  split.
  { split.
    - intros [Hf1 Hf2]%app_eq_nil. apply E1 in Hf1. apply E2 in Hf2. congruence.
    - intros Hsame.
      destruct (decide (f1 = [])) as [Hf1|Hf1].
      + rewrite Hf1. cbn. apply E2. apply E1 in Hf1. congruence.
      + exfalso.
        destruct H1 as [(_ & ? & _)|(i & d & j & r & _ & Hr & Habs & -> & _)];
          [done|].
        destruct (find_entry_Some _ _ _ _ _ Hr) as (_ & Hl & Hn).
        rewrite Nat.sub_0_r in Hl.
        assert (Hj : <[j := set_y r (map_y d)]> maps !! j
                     = Some (set_y r (map_y d))).
        { apply list_lookup_insert_eq. by eapply lookup_lt_Some. }
        assert (Hj2 : maps2 !! j = Some (set_y r (map_y d))).
        { apply O2; [done|]. cbn. by rewrite Hn. }
        rewrite Hsame, Hl in Hj2. injection Hj2 as Hj2.
        assert (map_y r = map_y d) by (by rewrite Hj2).
        lia. }
  destruct (fix_world_coordinates_cases maps2)
    as (m1 & g1 & m2 & g2 & Heq' & H1' & H2').
  rewrite Heq'.
  destruct H1' as [(-> & -> & _)|(i & d & j & r & Hd & Hr & Habs & _)].
  2:{ exfalso. by apply (P5 i d j r). }
  destruct H2' as [(-> & -> & _)|(k & r4 & i & r5 & Hr4 & Hr5 & Habs & _)].
  2:{ exfalso. apply Habs. by apply (P4 k r4 i r5). }
  done.
Qed.

Lemma fix_world_coordinates_fixed_point_witness :
  fix_world_coordinates
    [MapEntry "route115" 0 0; MapEntry "route114" (-320) 640]
  = ([MapEntry "route115" 0 0; MapEntry "route114" (-320) 320], ["route114"])
  ∧ fix_world_coordinates
      [MapEntry "route115" 0 0; MapEntry "route114" (-320) 320]
    = ([MapEntry "route115" 0 0; MapEntry "route114" (-320) 320], []).
Proof.
  split; [reflexivity|].
  exact (proj2 (proj2 (proj2 (proj2 (proj2 (proj2
    (fix_world_coordinates_fixed_point
       [MapEntry "route115" 0 0; MapEntry "route114" (-320) 640]))))))).
Defined.

End WorldCoordinates.

Section RoutingAndValidation.
Import Constants Converter.

(** X22: Routing followed by validation: of the tile IDs collected by any run of
    [add_used_tile_with_palette], the secondary set that the validation
    block returns holds only IDs in [0, secondary_max_tile], each the ID
    [t - 512] of a call for a secondary metatile; the primary set holds IDs
    of calls routed to the primary bank that are within the primary bound,
    and the IDs moved from the secondary set, which lie above the secondary
    maximum and below 512.  When every routed ID is within the bound of its
    bank, validation returns both sets unchanged. *)
Theorem routed_tiles_validated (primary_tileset : string)
    (calls : list (Z * Z * string)) (primary_max_tile : option Z)
    (secondary_max_tile : Z) :
  let u := add_used_tiles primary_tileset calls no_used_tiles in
  let r := validate_used_tiles primary_max_tile (Some secondary_max_tile)
             (used_primary_tiles u) (used_secondary_tiles u) in
  (∀ tid, tid ∈ r.2 →
     0 <= tid <= secondary_max_tile
     ∧ ∃ p n, (tid + 512, p, n) ∈ calls ∧ n ≠ primary_tileset)
  ∧ (∀ tid, tid ∈ r.1 →
       (within_bound primary_max_tile tid
        ∧ ∃ p n, (tid, p, n) ∈ calls ∧ (n = primary_tileset ∨ tid < 512))
       ∨ (secondary_max_tile < tid < 512
          ∧ ∃ p n, (tid + 512, p, n) ∈ calls ∧ n ≠ primary_tileset))
  ∧ ((∀ t p n, (t, p, n) ∈ calls →
        if decide (n = primary_tileset ∨ t < 512)
        then within_bound primary_max_tile t
        else t - 512 <= secondary_max_tile) →
     r = (used_primary_tiles u, used_secondary_tiles u)).
Proof.
  intros u r.
  destruct (add_used_tiles_from primary_tileset calls no_used_tiles)
    as (_ & _ & HP & HS).
  fold u in HP, HS.
  assert (P : ∀ tid, tid ∈ used_primary_tiles u ↔
     ∃ p n, (tid, p, n) ∈ calls ∧ (n = primary_tileset ∨ tid < 512)).
  { intros tid. rewrite HP. cbn. rewrite elem_of_empty. tauto. }
  assert (S : ∀ tid, tid ∈ used_secondary_tiles u ↔
     ∃ t p n, (t, p, n) ∈ calls ∧ n ≠ primary_tileset ∧ 512 <= t
              ∧ tid = t - 512).
  { intros tid. rewrite HS. cbn. rewrite elem_of_empty. tauto. }
  clear HP HS.
  destruct (validate_used_tiles_elem primary_max_tile secondary_max_tile
              (used_primary_tiles u) (used_secondary_tiles u)) as [Hr1 Hr2].
  fold r in Hr1, Hr2.
  assert (Sfrom : ∀ tid, tid ∈ used_secondary_tiles u →
            0 <= tid ∧ ∃ p n, (tid + 512, p, n) ∈ calls ∧ n ≠ primary_tileset).
  { intros tid (t & p & n & Hin & Hn & Ht & ->)%S. split; [lia|].
    exists p, n. by replace (t - 512 + 512) with t by lia. }
  split; [|split].
  - intros tid (Hin & Hle & _)%Hr2. destruct (Sfrom _ Hin) as [H0 Hc].
    split; [lia|done].
  - intros tid [(Hin & Hb)|(Hin & Hgt & Hlt)]%Hr1.
    + left. split; [done|]. by apply P.
    + right. split; [lia|]. by apply Sfrom.
  - intros Hall.
    assert (HPb : ∀ tid, tid ∈ used_primary_tiles u →
              within_bound primary_max_tile tid).
    { intros tid (p & n & Hin & Hc)%P. specialize (Hall _ _ _ Hin).
      by rewrite decide_True in Hall. }
    assert (HSb : ∀ tid, tid ∈ used_secondary_tiles u →
              tid <= secondary_max_tile).
    { intros tid (t & p & n & Hin & Hn & Ht & ->)%S.
      specialize (Hall _ _ _ Hin).
      rewrite decide_False in Hall; [done|]. intros [?|?]; [done|lia]. }
    destruct r as [r1 r2]. cbn [fst snd] in Hr1, Hr2. f_equal.
    + apply set_eq. intros tid. rewrite Hr1. split.
      * intros [[? _]|(Hin & Hgt & _)]; [done|]. apply HSb in Hin. lia.
      * intros Hin. left. split; [done|]. by apply HPb.
    + apply set_eq. intros tid. rewrite Hr2. split; [tauto|].
      intros Hin. split; [done|]. split; [by apply HSb|].
      intros (t & Ht & Hgt). apply HSb in Ht. lia.
Qed.

End RoutingAndValidation.

Section SimpleConversion.
Import Constants Metatile.

Lemma tile_block (a b t0 t1 t2 t3 : Z) :
  let d : gmap (Z * Z) Z :=
    <[(a + 1, b + 1) := t3]>
      (<[(a, b + 1) := t2]> (<[(a + 1, b) := t1]> (<[(a, b) := t0]> ∅))) in
  size d = 4%nat
  ∧ d !! (a, b) = Some t0 ∧ d !! (a + 1, b) = Some t1
  ∧ d !! (a, b + 1) = Some t2 ∧ d !! (a + 1, b + 1) = Some t3.
Proof.
  cbn zeta.
  assert (N : ∀ p q r s : Z, (p ≠ r ∨ q ≠ s) → (p, q) ≠ (r, s))
    by (intros p q r s H [= ? ?]; lia).
  split.
  { rewrite !map_size_insert_None; [by rewrite map_size_empty|..].
    - apply lookup_empty.
    - rewrite lookup_insert_ne by (apply N; lia). apply lookup_empty.
    - rewrite !lookup_insert_ne by (apply N; lia). apply lookup_empty.
    - rewrite !lookup_insert_ne by (apply N; lia). apply lookup_empty. }
  repeat split.
  - rewrite !lookup_insert_ne by (apply N; lia). apply lookup_insert_eq.
  - rewrite !lookup_insert_ne by (apply N; lia). apply lookup_insert_eq.
  - rewrite !lookup_insert_ne by (apply N; lia). apply lookup_insert_eq.
  - apply lookup_insert_eq.
Qed.

(** X23: A successful [convert_metatile_to_tile_layers] returns three
    dictionaries of exactly four cells each, the 2 x 2 block of the metatile
    at [(2x, 2y)]: the layers that the routing table gives to the bottom and
    to the top half hold the four tile IDs of that half, row by row, and the
    remaining layer holds tile 0 in all four cells; tile 0 is kept, not
    skipped. *)
Theorem convert_metatile_to_tile_layers_cells
    (metatile_id : Z) (metatile_data : list Z) (layer_type x y map_width : Z)
    (bg3 bg2 bg1 : gmap (Z * Z) Z) :
  convert_metatile_to_tile_layers metatile_id metatile_data layer_type
    x y map_width = Ok (bg3, bg2, bg1) →
  let tiles := unpack_metatile_data metatile_id metatile_data in
  let block (d : gmap (Z * Z) Z) (part : list Z) :=
    size d = 4%nat
    ∧ d !! (x * 2, y * 2) = part !! 0%nat
    ∧ d !! (x * 2 + 1, y * 2) = part !! 1%nat
    ∧ d !! (x * 2, y * 2 + 1) = part !! 2%nat
    ∧ d !! (x * 2 + 1, y * 2 + 1) = part !! 3%nat in
  length tiles = 8%nat
  ∧ (layer_type = COVERED →
     block bg3 (take 4 tiles) ∧ block bg2 (drop 4 tiles)
     ∧ block bg1 [0; 0; 0; 0])
  ∧ (layer_type = SPLIT →
     block bg3 (take 4 tiles) ∧ block bg2 [0; 0; 0; 0]
     ∧ block bg1 (drop 4 tiles))
  ∧ (layer_type ≠ COVERED → layer_type ≠ SPLIT →
     block bg3 [0; 0; 0; 0] ∧ block bg2 (take 4 tiles)
     ∧ block bg1 (drop 4 tiles)).
Proof.
  intros Heq tiles block.
  assert (Hb : ∀ t0 t1 t2 t3,
    block (<[(x * 2 + 1, y * 2 + 1) := t3]>
             (<[(x * 2, y * 2 + 1) := t2]>
                (<[(x * 2 + 1, y * 2) := t1]> (<[(x * 2, y * 2) := t0]> ∅))))
          [t0; t1; t2; t3]).
  { intros. apply tile_block. }
  pose proof (length_unpack_truncated metatile_id metatile_data) as Htr.
  pose proof (length_unpack_complete metatile_id metatile_data) as Hco.
  destruct (decide (0 <= metatile_id * 8 < len metatile_data
                    ∧ len metatile_data < metatile_id * 8 + 8)) as [Hp|Hp].
  { destruct Hp as [Hp1 Hp2].
    rewrite (convert_metatile_to_tile_layers_truncated metatile_id
               metatile_data layer_type x y map_width Hp1 Hp2) in Heq.
    done. }
  specialize (Hco Hp). fold tiles in Hco.
  unfold convert_metatile_to_tile_layers, split_metatile_to_layers in Heq.
  fold tiles in Heq. unfold METATILE_WIDTH, METATILE_HEIGHT in Heq.
  destruct tiles as [|a [|b [|c [|d [|e [|f [|g [|h [|? ?]]]]]]]]];
    cbn in Hco; try lia.
  split; [done|].
  unfold NORMAL, COVERED, SPLIT in *.
  destruct (decide (layer_type = 0)) as [->|H0].
  { cbn in Heq. injection Heq as <- <- <-.
    split; [done|]. split; [done|]. intros _ _. cbn [take drop].
    split; [apply Hb|]. split; apply Hb. }
  destruct (decide (layer_type = 1)) as [->|H1].
  { cbn in Heq. injection Heq as <- <- <-.
    split; [|split; [done|done]]. intros _. cbn [take drop].
    split; [apply Hb|]. split; apply Hb. }
  destruct (decide (layer_type = 2)) as [->|H2].
  { cbn in Heq. injection Heq as <- <- <-.
    split; [done|]. split; [|done]. intros _. cbn [take drop].
    split; [apply Hb|]. split; apply Hb. }
  cbn in Heq. injection Heq as <- <- <-.
  split; [done|]. split; [done|]. intros _ _. cbn [take drop].
  split; [apply Hb|]. split; apply Hb.
Qed.

Lemma convert_metatile_to_tile_layers_cells_witness :
  convert_metatile_to_tile_layers 0 [1; 2; 3; 4; 5; 6; 7; 8] SPLIT 3 2 10
  = Ok (<[(7, 5) := 4]> (<[(6, 5) := 3]> (<[(7, 4) := 2]> (<[(6, 4) := 1]> ∅))),
        <[(7, 5) := 0]> (<[(6, 5) := 0]> (<[(7, 4) := 0]> (<[(6, 4) := 0]> ∅))),
        <[(7, 5) := 8]> (<[(6, 5) := 7]> (<[(7, 4) := 6]> (<[(6, 4) := 5]> ∅))))
  ∧ length (unpack_metatile_data 0 [1; 2; 3; 4; 5; 6; 7; 8]) = 8%nat.
Proof.
  assert (H : convert_metatile_to_tile_layers 0 [1; 2; 3; 4; 5; 6; 7; 8]
                SPLIT 3 2 10
  = Ok (<[(7, 5) := 4]> (<[(6, 5) := 3]> (<[(7, 4) := 2]> (<[(6, 4) := 1]> ∅))),
        <[(7, 5) := 0]> (<[(6, 5) := 0]> (<[(7, 4) := 0]> (<[(6, 4) := 0]> ∅))),
        <[(7, 5) := 8]> (<[(6, 5) := 7]> (<[(7, 4) := 6]> (<[(6, 4) := 5]> ∅)))))
    by reflexivity.
  split; [exact H|].
  exact (proj1 (convert_metatile_to_tile_layers_cells _ _ _ _ _ _ _ _ _ H)).
Defined.

End SimpleConversion.

Section ObjectLayer.
Import Converter.

Lemma number_objects {A B : Type} (mk : Z → A → B) (l : list A)
    (acc : list B) (i : Z) :
  foldl (fun '(objects, object_id) e =>
           (objects ++ [mk object_id e], object_id + 1)) (acc, i) l
  = (acc ++ imap (fun k e => mk (i + Z.of_nat k) e) l, i + len l).
Proof.
  revert acc i. induction l as [|e l IH]; intros acc i.
  - cbn. rewrite app_nil_r. f_equal. unfold len. cbn. lia.
  - cbn [foldl]. rewrite IH. f_equal.
    + rewrite <- app_assoc. f_equal. cbn [imap app]. f_equal.
      * by rewrite Z.add_0_r.
      * apply imap_ext. intros k x _. cbn. f_equal. lia.
    + unfold len. cbn [length]. lia.
Qed.

(** X24: The objects of a converted map are numbered 1, 2, ... in the order they
    are written, the NPCs first and the warps after them, so that no two
    objects share an ID and the counter ends one above the last ID; object
    [k] is named after its ID and placed at 8 times the event's position,
    with 0 for a missing coordinate.  The object layer is left out exactly
    when there is no event of either kind. *)
Theorem convert_events_ids (object_events warp_events : list event) :
  ∃ objects,
    convert_events object_events warp_events
    = (objects, 1 + len object_events + len warp_events)
    ∧ length objects = (length object_events + length warp_events)%nat
    ∧ (∀ (k : nat) o, objects !! k = Some o →
         object_id o = Z.of_nat k + 1
         ∧ ((k < length object_events)%nat →
            ∃ e, object_events !! k = Some e
              ∧ o = TiledObject (Z.of_nat k + 1)
                      ("NPC_" +:+ pretty (Z.of_nat k + 1)) "npc"
                      (default 0 (event_x e) * 8)
                      (default 0 (event_y e) * 8) 16 16)
         ∧ ((length object_events <= k)%nat →
            ∃ e, warp_events !! (k - length object_events)%nat = Some e
              ∧ o = TiledObject (Z.of_nat k + 1)
                      ("Warp_" +:+ pretty (Z.of_nat k + 1)) "warp_event"
                      (default 0 (event_x e) * 8)
                      (default 0 (event_y e) * 8) 8 8))
    ∧ NoDup (object_id <$> objects)
    ∧ (objects_layer object_events warp_events = None
       ↔ object_events = [] ∧ warp_events = [])
    ∧ (objects ≠ [] →
       objects_layer object_events warp_events
       = Some (objects, 1 + len object_events + len warp_events)).
Proof.
  unfold objects_layer, convert_events.
  rewrite (number_objects
             (fun object_id obj =>
                TiledObject object_id ("NPC_" +:+ pretty object_id) "npc"
                  (default 0 (event_x obj) * 8)
                  (default 0 (event_y obj) * 8) 16 16)).
  rewrite (number_objects
             (fun object_id warp =>
                TiledObject object_id ("Warp_" +:+ pretty object_id)
                  "warp_event"
                  (default 0 (event_x warp) * 8)
                  (default 0 (event_y warp) * 8) 8 8)).
  rewrite app_nil_l.
  set (npcs := imap _ object_events). set (warps := imap _ warp_events).
  assert (Hn : length npcs = length object_events)
    by (unfold npcs; by rewrite length_imap).
  assert (Hw : length warps = length warp_events)
    by (unfold warps; by rewrite length_imap).
  exists (npcs ++ warps). split; [done|].
  assert (Hlook : ∀ (k : nat) o, (npcs ++ warps) !! k = Some o →
         object_id o = Z.of_nat k + 1
         ∧ ((k < length object_events)%nat →
            ∃ e, object_events !! k = Some e
              ∧ o = TiledObject (Z.of_nat k + 1)
                      ("NPC_" +:+ pretty (Z.of_nat k + 1)) "npc"
                      (default 0 (event_x e) * 8)
                      (default 0 (event_y e) * 8) 16 16)
         ∧ ((length object_events <= k)%nat →
            ∃ e, warp_events !! (k - length object_events)%nat = Some e
              ∧ o = TiledObject (Z.of_nat k + 1)
                      ("Warp_" +:+ pretty (Z.of_nat k + 1)) "warp_event"
                      (default 0 (event_x e) * 8)
                      (default 0 (event_y e) * 8) 8 8)).
  { intros k o Ho.
    destruct (decide (k < length object_events)%nat) as [Hk|Hk].
    - rewrite lookup_app_l in Ho by lia. unfold npcs in Ho.
      rewrite list_lookup_imap in Ho.
      destruct (object_events !! k) as [e|] eqn:He; [|done].
      cbn in Ho. injection Ho as <-.
      replace (1 + Z.of_nat k) with (Z.of_nat k + 1) by lia.
      split; [done|]. split; [|lia]. intros _. by exists e.
    - rewrite lookup_app_r in Ho by lia. unfold warps in Ho.
      rewrite list_lookup_imap, Hn in Ho.
      destruct (warp_events !! (k - length object_events)%nat) as [e|] eqn:He;
        [|done].
      cbn in Ho. injection Ho as <-.
      replace (1 + len object_events
               + Z.of_nat (k - length object_events))
        with (Z.of_nat k + 1) by (unfold len; lia).
      split; [done|]. split; [lia|]. intros _. by exists e. }
  split; [by rewrite length_app, Hn, Hw|].
  split; [exact Hlook|].
  split.
  { apply NoDup_alt. intros i j x.
    rewrite !list_lookup_fmap.
    destruct ((npcs ++ warps) !! i) as [oi|] eqn:Ei; [|done].
    destruct ((npcs ++ warps) !! j) as [oj|] eqn:Ej; [|done].
    cbn. intros [= <-] [= Heq].
    apply Hlook in Ei as [Hi _]. apply Hlook in Ej as [Hj _]. lia. }
  split.
  - case_bool_decide as Hne.
    + split; [done|]. intros [-> ->]. by destruct Hne.
    + split; [|done]. intros _.
      assert (Hnil : npcs ++ warps = [])
        by (destruct (npcs ++ warps); [done|by destruct Hne]).
      apply app_eq_nil in Hnil as [H1 H2].
      rewrite H1 in Hn. rewrite H2 in Hw.
      split; [by destruct object_events|by destruct warp_events].
  - intros Hne. by rewrite bool_decide_eq_true_2.
Qed.

Lemma convert_events_ids_witness :
  convert_events [Event (Some 3) None] [Event (Some 1) (Some 2)]
  = ([TiledObject 1 "NPC_1" "npc" 24 0 16 16;
      TiledObject 2 "Warp_2" "warp_event" 8 16 8 8], 3)
  ∧ NoDup [1; 2].
Proof.
  destruct (convert_events_ids [Event (Some 3) None]
              [Event (Some 1) (Some 2)]) as (objects & Heq & _ & _ & Hnd & _).
  vm_compute in Heq. injection Heq as <-.
  split; [reflexivity|exact Hnd].
Defined.

End ObjectLayer.
